(** * Valora: the order-to-invoice pipeline, embedded and verified

    A shallow embedding of [src/algorithms/invoice.py]
    ([generate_invoice_pdf]), of [src/algorithms/email_processing.py]
    ([read_csv_columns], [process_emails]) and of [src/app.py] ([main]),
    together with the parts of the Python run time these functions rest on:
    [str.strip], [str.replace], [int], [float], float formatting with
    [:.2f], binary64 arithmetic, [json.loads] and [json.dumps].

    Conventions.
    - A Python [str] is the list of its code points ([pystr]).
    - A Python [float] is an IEEE 754 binary64 value, [spec_float] with
      precision 53 and maximal exponent 1024; every operation rounds to
      nearest, ties to even, as CPython does.
    - A Python [int] is a [Z].
    - Exceptions are values of [exn]; a computation that may raise returns
      a [result]. *)

From Stdlib Require Import String Ascii ZArith NArith QArith List Bool Lia.
From Stdlib Require Import Floats.SpecFloat.
From Stdlib Require Import Qabs Qpower Lqa.
Import ListNotations.


(* ================================================================== *)
(** * Strings *)
(* ================================================================== *)

Module Str.

Definition char := N.
Definition pystr := list char.

(** [py "abc"] is the Python string with the code points of the ASCII
    literal. *)
Definition py (s : string) : pystr :=
  List.map N_of_ascii (list_ascii_of_string s).

Definition ch (a : ascii) : char := N_of_ascii a.

Definition mem (c : char) (cs : pystr) : bool := existsb (N.eqb c) cs.

(** [s.lstrip(cs)], [s.rstrip(cs)], [s.strip(cs)]: the second argument is
    a set of characters, not a prefix or suffix. *)
Fixpoint lstrip (cs s : pystr) : pystr :=
  match s with
  | [] => []
  | c :: r => if mem c cs then lstrip cs r else s
  end.

Definition rstrip (cs s : pystr) : pystr := rev (lstrip cs (rev s)).

Definition strip (cs s : pystr) : pystr := rstrip cs (lstrip cs s).

(** [s.replace(old, "")] for a one-character [old]. *)
Definition remove_char (old : char) (s : pystr) : pystr :=
  filter (fun c => negb (N.eqb c old)) s.

(** ASCII decimal digits and the white space of [Py_ISSPACE]. *)
Definition is_digit (c : char) : bool := ((48 <=? c) && (c <=? 57))%N.

Definition digit_val (c : char) : Z := Z.of_N c - 48.

Definition ascii_space (c : char) : bool :=
  ((9 <=? c) && (c <=? 13) || (c =? 32))%N.

(** The non-ASCII code points for which [str.isspace] holds. *)
Definition unicode_space (c : char) : bool :=
  ((c =? 133) || (c =? 160) || (c =? 5760)
   || (8192 <=? c) && (c <=? 8202)
   || (c =? 8232) || (c =? 8233) || (c =? 8239) || (c =? 8287)
   || (c =? 12288))%N.

(** The code points of the digit zero of every decimal digit run of the
    Unicode character database 14.0.0 (category Nd, the one CPython 3.11
    ships); each run has the ten digits in order. *)
Definition nd_zeros : list char :=
  [48; 1632; 1776; 1984; 2406; 2534; 2662; 2790; 2918; 3046; 3174; 3302;
   3430; 3558; 3664; 3792; 3872; 4160; 4240; 6112; 6160; 6470; 6608; 6784;
   6800; 6992; 7088; 7232; 7248; 42528; 43216; 43264; 43472; 43504; 43600;
   44016; 65296; 66720; 68912; 69734; 69872; 69942; 70096; 70384; 70736;
   70864; 71248; 71360; 71472; 71904; 72016; 72784; 73040; 73120; 92768;
   92864; 93008; 120782; 120792; 120802; 120812; 120822; 123200; 123632;
   125264; 130032]%N.

Definition decimal_value (c : char) : option N :=
  match find (fun z => (z <=? c) && (c <? z + 10))%N nd_zeros with
  | Some z => Some (c - z)%N
  | None => None
  end.

(** One character of [_PyUnicode_TransformDecimalAndSpaceToASCII], which
    [int] and [float] apply to a [str] argument: ASCII is kept, other
    white space becomes a blank, other decimal digits become ASCII
    digits, and anything else becomes [?], which no number contains. *)
Definition to_ascii (c : char) : char :=
  if (c <? 127)%N then c
  else if unicode_space c then 32%N
  else match decimal_value c with
       | Some d => (48 + d)%N
       | None => 63%N
       end.

Fixpoint lstrip_space (s : pystr) : pystr :=
  match s with
  | [] => []
  | c :: r => if ascii_space c then lstrip_space r else s
  end.

Definition strip_space (s : pystr) : pystr :=
  rev (lstrip_space (rev (lstrip_space s))).

(** [_Py_string_to_number_with_underscores]: an underscore is dropped
    when it stands between two digits and is an error anywhere else;
    [prev] is the previous character, NUL at the start. *)
Fixpoint drop_underscores (prev : char) (s : pystr) : option pystr :=
  match s with
  | [] => if (prev =? 95)%N then None else Some []
  | c :: r =>
      if (c =? 95)%N then
        if is_digit prev then drop_underscores c r else None
      else if (prev =? 95)%N && negb (is_digit c) then None
      else option_map (cons c) (drop_underscores c r)
  end.

(** The longest prefix of ASCII digits, and the rest. *)
Fixpoint span_digits (s : pystr) : pystr * pystr :=
  match s with
  | c :: r =>
      if is_digit c then let '(ds, t) := span_digits r in (c :: ds, t)
      else ([], s)
  | [] => ([], [])
  end.

(** ASCII lower-casing, enough for the case-insensitive [inf] and [nan]
    of [float]. *)
Definition lower (c : char) : char :=
  if ((65 <=? c) && (c <=? 90))%N then (c + 32)%N else c.

Fixpoint eqb (a b : pystr) : bool :=
  match a, b with
  | [], [] => true
  | x :: a', y :: b' => N.eqb x y && eqb a' b'
  | _, _ => false
  end.

(** Decimal digits of a natural number, most significant first. *)
Fixpoint digits_fuel (fuel : nat) (n : Z) (acc : pystr) : pystr :=
  match fuel with
  | O => acc
  | S f =>
      let acc' := Z.to_N (48 + n mod 10) :: acc in
      if n <? 10 then acc' else digits_fuel f (n / 10) acc'
  end%Z.

Definition digits (n : Z) : pystr :=
  digits_fuel (S (Z.to_nat (Z.log2 n))) n [].

(** The characters of a fixed-point text: digits, minus sign, point. *)
Definition numeric_char (c : char) : bool :=
  is_digit c || (c =? 45)%N || (c =? 46)%N.

(** Value of a list of decimal digits. *)
Definition digits_val (ds : pystr) : Z :=
  fold_left (fun acc c => 10 * acc + digit_val c)%Z ds 0%Z.

End Str.

Import Str.

(* ================================================================== *)
(** * Binary64 floating point *)
(* ================================================================== *)

Module F64.

Open Scope Z_scope.

Definition prec : Z := 53.
Definition emax : Z := 1024.

Definition float := spec_float.

Definition add : float -> float -> float := SFadd prec emax.
Definition mul : float -> float -> float := SFmul prec emax.

Definition zero : float := S754_zero false.
Definition nan : float := S754_nan.
Definition inf (s : bool) : float := S754_infinity s.

Definition is_finite (x : float) : bool :=
  match x with
  | S754_zero _ | S754_finite _ _ _ => true
  | _ => false
  end.

Definition is_negative (x : float) : bool :=
  match x with
  | S754_zero s | S754_infinity s | S754_finite s _ _ => s
  | S754_nan => false
  end.

(** The float nearest to [(-1)^s * n / d] for [0 <= n] and [0 < d]
    (correct rounding of an exact quotient: the division keeps at least
    53 significant bits and the position of the remainder). *)
Definition of_ratio (s : bool) (n d : Z) : float :=
  if n =? 0 then S754_zero s
  else
    let '(q, e, l) := SFdiv_core_binary prec emax n 0 d 0 in
    binary_round_aux prec emax s q e l.

(** The float nearest to [(-1)^s * m * 10^e], what [strtod] returns for
    a decimal literal with digits [m] and exponent [e].  Overflow gives
    an infinity, underflow a zero or a subnormal. *)
Definition of_decimal (s : bool) (m e : Z) : float :=
  if 0 <=? e then of_ratio s (m * 10 ^ e) 1
  else of_ratio s m (10 ^ (- e)).

(** [float(n)] for an [int] ([PyLong_AsDouble]); the caller raises
    [OverflowError] when the result is not finite. *)
Definition of_Z (z : Z) : float := binary_normalize prec emax z 0 false.

(** [int(x)] for a finite float: truncation toward zero. *)
Definition trunc (x : float) : Z :=
  match x with
  | S754_finite s m e =>
      let a := if 0 <=? e then Zpos m * 2 ^ e else Zpos m / 2 ^ (- e) in
      if s then - a else a
  | _ => 0
  end.

Definition round_half_even (n d : Z) : Z :=
  let q := n / d in
  match 2 * (n mod d) ?= d with
  | Lt => q
  | Gt => q + 1
  | Eq => if Z.even q then q else q + 1
  end.

(** [|x| * 100] rounded to an integer, ties to even on the exact binary
    value. *)
Definition cents (m : positive) (e : Z) : Z :=
  if 0 <=? e then Zpos m * 100 * 2 ^ e
  else round_half_even (Zpos m * 100) (2 ^ (- e)).

Definition fixed2 (c : Z) : pystr :=
  digits (c / 100)
    ++ py "." ++ [Z.to_N (48 + c mod 100 / 10); Z.to_N (48 + c mod 10)].

Definition sign_str (s : bool) : pystr := if s then py "-" else [].

(** [format(x, ".2f")]. *)
Definition format_2f (x : float) : pystr :=
  match x with
  | S754_nan => py "nan"
  | S754_infinity s => sign_str s ++ py "inf"
  | S754_zero s => sign_str s ++ py "0.00"
  | S754_finite s m e => sign_str s ++ fixed2 (cents m e)
  end.

(** ** [repr] of a float

    [float.__repr__] gives the shortest decimal text that [float] reads
    back as the same float, and the one nearest to it among the texts of
    that length. *)

(** Is [num / den] below [10 ^ k]? *)
Definition below_pow10 (num den k : Z) : bool :=
  if 0 <=? k then num <? den * 10 ^ k else num * 10 ^ (- k) <? den.

(** [floor (log10 (num / den))] for positive [num] and [den]: the binary
    logarithms give it within one. *)
Definition ilog10 (num den : Z) : Z :=
  let est := (Z.log2 num - Z.log2 den) * 30103 / 100000 in
  match find (fun k => negb (below_pow10 num den k)
                       && below_pow10 num den (k + 1))
             [est - 2; est - 1; est; est + 1; est + 2] with
  | Some k => k
  | None => est
  end.

(** [floor (num / den / 10 ^ scale)]. *)
Definition scaled_floor (num den scale : Z) : Z :=
  if 0 <=? scale then num / (den * 10 ^ scale)
  else num * 10 ^ (- scale) / den.

(** The decimal [D * 10 ^ scale] with [n] digits that is read back as
    [x], nearest to [x = num / den] when both neighbours are. *)
Definition candidate (x : float) (num den k10 : Z) (n : nat)
  : option (Z * Z) :=
  let scale := k10 - (Z.of_nat n - 1) in
  let lo := scaled_floor num den scale in
  let hi := lo + 1 in
  let ok D := match of_decimal false D scale, x with
              | S754_finite _ m1 e1, S754_finite _ m2 e2 =>
                  Pos.eqb m1 m2 && (e1 =? e2)
              | _, _ => false
              end in
  (* twice the distance to [lo] against the gap between [lo] and [hi] *)
  let twice_rem :=
    if 0 <=? scale then 2 * (num - lo * den * 10 ^ scale)
    else 2 * (num * 10 ^ (- scale) - lo * den) in
  let gap := if 0 <=? scale then den * 10 ^ scale else den in
  match ok lo, ok hi with
  | true, true =>
      match twice_rem ?= gap with
      | Lt => Some (lo, scale)
      | Gt => Some (hi, scale)
      | Eq => Some (if Z.even lo then lo else hi, scale)
      end
  | true, false => Some (lo, scale)
  | false, true => Some (hi, scale)
  | false, false => None
  end.

Fixpoint shortest (x : float) (num den k10 : Z) (n fuel : nat) : Z * Z :=
  match candidate x num den k10 n, fuel with
  | Some r, _ => r
  | None, S f => shortest x num den k10 (S n) f
  | None, O =>
      let scale := k10 - (Z.of_nat n - 1) in
      (round_half_even (if 0 <=? scale then num else num * 10 ^ (- scale))
         (if 0 <=? scale then den * 10 ^ scale else den), scale)
  end.

(** Drop the trailing zeros of [D * 10 ^ scale]. *)
Fixpoint drop_zeros (fuel : nat) (D scale : Z) : Z * Z :=
  match fuel with
  | O => (D, scale)
  | S f => if (D mod 10 =? 0) && (0 <? D) then drop_zeros f (D / 10) (scale + 1)
           else (D, scale)
  end.

(** The digits of the shortest text of a positive finite float, and the
    position [decpt] of the decimal point: the value is
    [0.d1 d2 ... dn * 10 ^ decpt]. *)
Definition shortest_digits (m : positive) (e : Z) : pystr * Z :=
  let num := if 0 <=? e then Zpos m * 2 ^ e else Zpos m in
  let den := if 0 <=? e then 1 else 2 ^ (- e) in
  let k10 := ilog10 num den in
  let '(D, scale) := shortest (S754_finite false m e) num den k10 1 16 in
  let '(D, scale) := drop_zeros 17 D scale in
  let ds := digits D in
  (ds, Z.of_nat (length ds) + scale).

(** [repr(x)]: fixed notation when the decimal point falls within the
    first sixteen digits or at most three zeros after the point, and
    exponent notation otherwise. *)
Definition repr (x : float) : pystr :=
  match x with
  | S754_nan => py "nan"
  | S754_infinity s => sign_str s ++ py "inf"
  | S754_zero s => sign_str s ++ py "0.0"
  | S754_finite s m e =>
      let '(ds, decpt) := shortest_digits m e in
      let n := Z.of_nat (length ds) in
      sign_str s ++
      if (decpt <=? -4) || (16 <? decpt) then
        let ex := decpt - 1 in
        let exd := digits (Z.abs ex) in
        firstn 1 ds
          ++ (if 1 <? n then py "." ++ skipn 1 ds else [])
          ++ py "e" ++ (if ex <? 0 then py "-" else py "+")
          ++ (if Nat.ltb (length exd) 2 then py "0" else []) ++ exd
      else if decpt <=? 0 then
        py "0." ++ repeat 48%N (Z.to_nat (- decpt)) ++ ds
      else if n <=? decpt then
        ds ++ repeat 48%N (Z.to_nat (decpt - n)) ++ py ".0"
      else
        firstn (Z.to_nat decpt) ds ++ py "." ++ skipn (Z.to_nat decpt) ds
  end.

(** The exact value of a finite float. *)
Definition to_Q (x : float) : Q :=
  match x with
  | S754_finite s m e =>
      ((if s then -1 else 1) * inject_Z (Zpos m) * Qpower 2 e)%Q
  | _ => 0%Q
  end.

(** The float that [float] reads back from the text [format_2f x]: for
    a finite [x], the float nearest to [x] rounded to cents. *)
Definition reread_2f (x : float) : float :=
  match x with
  | S754_finite s m e => of_decimal s (cents m e) (-2)
  | _ => x
  end.

End F64.

(* ================================================================== *)
(** * Python values, exceptions and the built-ins the code calls *)
(* ================================================================== *)

Module Py.

Import F64.
Open Scope Z_scope.

(** The values that reach [generate_invoice_pdf]: what [json.loads]
    builds, which is also what a caller passes as a dictionary.  A [dict]
    is the list of its items in insertion order. *)
#[warnings="-register-all"]
Inductive pyval : Type :=
| PNone
| PBool (b : bool)
| PInt (z : Z)
| PFloat (f : float)
| PStr (s : pystr)
| PList (l : list pyval)
| PDict (d : list (pystr * pyval)).

Definition dict := list (pystr * pyval).

(** Why a [ValueError] was raised. *)
Inductive value_error :=
| BadJSON          (* "matched_products is not a valid JSON string" *)
| TableTooLarge    (* "Table is too large to fit on one page. ..." *)
| BadInt           (* [int]: invalid literal, too many digits, NaN *)
| BadFloat         (* [float]: could not convert string *)
| BadSleep.        (* [time.sleep]: negative or NaN length *)

Inductive exn :=
| ValueError (why : value_error)
| TypeError
| AttributeError
| IndexError
| OverflowError
| RecursionError
| OSError.

Inductive result (A : Type) :=
| Ok (a : A)
| Raise (e : exn).
Arguments Ok {A} a.
Arguments Raise {A} e.

Definition bind {A B} (m : result A) (k : A -> result B) : result B :=
  match m with
  | Ok a => k a
  | Raise e => Raise e
  end.

(** A computation that records calls on an external object (a canvas,
    the services of the pipeline) and may raise: the calls made so far
    are kept when it does. *)
Definition Log (E A : Type) := list E -> result A * list E.

Definition ret {E A} (a : A) : Log E A := fun st => (Ok a, st).

Definition raise {E A} (e : exn) : Log E A := fun st => (Raise e, st).

Definition bindM {E A B} (m : Log E A) (k : A -> Log E B) : Log E B :=
  fun st =>
    match m st with
    | (Ok a, st') => k a st'
    | (Raise e, st') => (Raise e, st')
    end.

Definition lift {E A} (r : result A) : Log E A := fun st => (r, st).

Definition emit {E} (o : E) : Log E unit := fun st => (Ok tt, st ++ [o]).

(** The calls recorded so far are never dropped. *)
Definition grows {E A} (m : Log E A) : Prop :=
  forall st, exists tr, snd (m st) = st ++ tr.

Declare Scope log_scope.
Delimit Scope log_scope with log.
Notation "x <- m ;; k" := (bindM m (fun x => k))
  (at level 61, m at next level, right associativity) : log_scope.
Notation "m ;;; k" := (bindM m (fun _ => k))
  (at level 61, right associativity) : log_scope.

(** [d.get(k)] on the item list of a dictionary. *)
Fixpoint dict_get (k : pystr) (d : dict) : option pyval :=
  match d with
  | [] => None
  | (k', v) :: r => if Str.eqb k k' then Some v else dict_get k r
  end.

(** [d[k] = v]: a key that is present keeps its position. *)
Fixpoint dict_set (k : pystr) (v : pyval) (d : dict) : dict :=
  match d with
  | [] => [(k, v)]
  | (k', v') :: r =>
      if Str.eqb k k' then (k, v) :: r else (k', v') :: dict_set k v r
  end.

(** [x.get(k, default)]: only a [dict] has the method. *)
Definition py_get (x : pyval) (k : pystr) (default : pyval) : result pyval :=
  match x with
  | PDict d => Ok (match dict_get k d with Some v => v | None => default end)
  | _ => Raise AttributeError
  end.

(** [for p in x]: the items a [for] loop visits. *)
Definition py_iter (x : pyval) : result (list pyval) :=
  match x with
  | PList l => Ok l
  | PDict d => Ok (List.map (fun kv => PStr (fst kv)) d)
  | PStr s => Ok (List.map (fun c => PStr [c]) s)
  | PNone | PBool _ | PInt _ | PFloat _ => Raise TypeError
  end.

(** [x.replace("$", "")]: only a [str] has the method. *)
Definition py_replace_dollar (x : pyval) : result pystr :=
  match x with
  | PStr s => Ok (remove_char 36%N s)
  | _ => Raise AttributeError
  end.

Definition parse_sign (s : pystr) : bool * pystr :=
  match s with
  | c :: r =>
      if (c =? 45)%N then (true, r)
      else if (c =? 43)%N then (false, r)
      else (false, s)
  | [] => (false, [])
  end.

Definition all_digits (ds : pystr) : bool :=
  forallb is_digit ds && negb (Nat.eqb (length ds) 0).

(** [sys.int_max_str_digits], the default of CPython 3.11. *)
Definition int_max_str_digits : nat := 4300.

(** [int(s)] for a [str], base 10. *)
Definition int_of_str (s : pystr) : option Z :=
  match drop_underscores 0%N (List.map to_ascii s) with
  | None => None
  | Some t =>
      let '(neg, ds) := parse_sign (strip_space t) in
      if all_digits ds && Nat.leb (length ds) int_max_str_digits
      then Some (if neg then - digits_val ds else digits_val ds)
      else None
  end.

(** The decimal literals of [strtod]: digits with an optional fraction
    and an optional exponent, at least one digit before the exponent. *)
Definition parse_decimal (neg : bool) (s : pystr) : option float :=
  let '(ip, r1) := span_digits s in
  let '(fp, r2) :=
    match r1 with
    | c :: r' => if (c =? 46)%N then span_digits r' else ([], r1)
    | [] => ([], r1)
    end in
  if Nat.eqb (length ip + length fp) 0 then None
  else
    let m := digits_val (ip ++ fp) in
    let k := Z.of_nat (length fp) in
    match r2 with
    | [] => Some (of_decimal neg m (- k))
    | c :: r3 =>
        if (c =? 101)%N || (c =? 69)%N then
          let '(eneg, ds) := parse_sign r3 in
          if all_digits ds then
            let e := digits_val ds in
            Some (of_decimal neg m ((if eneg then - e else e) - k))
          else None
        else None
    end.

(** [float(s)] for a [str]. *)
Definition float_of_str (s : pystr) : option float :=
  match drop_underscores 0%N (List.map to_ascii s) with
  | None => None
  | Some t =>
      let '(neg, r) := parse_sign (strip_space t) in
      let low := List.map lower r in
      if Str.eqb low (py "inf") || Str.eqb low (py "infinity")
      then Some (inf neg)
      else if Str.eqb low (py "nan") then Some nan
      else parse_decimal neg r
  end.

(** [int(x)]. *)
Definition py_int (x : pyval) : result Z :=
  match x with
  | PInt z => Ok z
  | PBool b => Ok (if b then 1 else 0)
  | PFloat S754_nan => Raise (ValueError BadInt)
  | PFloat (S754_infinity _) => Raise OverflowError
  | PFloat f => Ok (trunc f)
  | PStr s =>
      match int_of_str s with
      | Some z => Ok z
      | None => Raise (ValueError BadInt)
      end
  | PNone | PList _ | PDict _ => Raise TypeError
  end.

(** [float(n)] for an [int]. *)
Definition float_of_int (z : Z) : result float :=
  let f := of_Z z in
  if is_finite f then Ok f else Raise OverflowError.

(** [float(x)]. *)
Definition py_float (x : pyval) : result float :=
  match x with
  | PFloat f => Ok f
  | PInt z => float_of_int z
  | PBool b => Ok (of_Z (if b then 1 else 0))
  | PStr s =>
      match float_of_str s with
      | Some f => Ok f
      | None => Raise (ValueError BadFloat)
      end
  | PNone | PList _ | PDict _ => Raise TypeError
  end.

(** [n * x] for an [int] and a [float]. *)
Definition int_mul_float (n : Z) (x : float) : result float :=
  bind (float_of_int n) (fun fn => Ok (mul fn x)).

(** [sum(xs)] over floats: the additions in order, from the start value
    [0], whose sum with a float is that of [0.0] (CPython up to 3.11;
    later versions add with a compensation term). *)
Definition py_sum (xs : list float) : float := fold_left add xs zero.

End Py.

(* ================================================================== *)
(** * [json.loads] *)
(* ================================================================== *)

Module Json.

Import F64 Py.
Open Scope N_scope.

(** [json.loads] raises [JSONDecodeError] on a malformed document and
    lets the [ValueError] of [int] through on an integer literal of
    more than [int_max_str_digits] digits.  [JFuel] is the model's own
    outcome for a recursion that was given too little fuel; [json_loads]
    never returns it (lemma [json_loads_fuel]).  CPython's recursion
    limit on deeply nested documents is not modelled. *)
Inductive jerr := DecodeError | IntDigits.

Inductive jres (A : Type) :=
| JOk (a : A)
| JErr (e : jerr)
| JFuel.
Arguments JOk {A} a.
Arguments JErr {A} e.
Arguments JFuel {A}.

Definition json_ws (c : char) : bool :=
  (c =? 32) || (c =? 9) || (c =? 10) || (c =? 13).

Fixpoint skip_ws (s : pystr) : pystr :=
  match s with
  | c :: r => if json_ws c then skip_ws r else s
  | [] => []
  end.

Definition hex_val (c : char) : option N :=
  if is_digit c then Some (c - 48)
  else if (97 <=? c) && (c <=? 102) then Some (c - 87)
  else if (65 <=? c) && (c <=? 70) then Some (c - 55)
  else None.

Definition hex4 (a b c d : char) : option N :=
  match hex_val a, hex_val b, hex_val c, hex_val d with
  | Some x, Some y, Some z, Some w => Some (((x * 16 + y) * 16 + z) * 16 + w)
  | _, _, _, _ => None
  end.

Definition is_high (u : N) : bool := (55296 <=? u) && (u <=? 56319).
Definition is_low (u : N) : bool := (56320 <=? u) && (u <=? 57343).

Definition join_surrogates (hi lo : N) : N :=
  65536 + (hi - 55296) * 1024 + (lo - 56320).

(** The one-character escapes: quote, backslash, slash, b, f, n, r, t. *)
Definition unescape (e : char) : option char :=
  if e =? 34 then Some 34
  else if e =? 92 then Some 92
  else if e =? 47 then Some 47
  else if e =? 98 then Some 8
  else if e =? 102 then Some 12
  else if e =? 110 then Some 10
  else if e =? 114 then Some 13
  else if e =? 116 then Some 9
  else None.

(** The units of a string literal: a character of the text or of a
    one-character escape, or the code unit of a [\u] escape. *)
Inductive unit_ :=
| Lit (c : char)
| Esc (u : N).

Definition cons_unit (x : unit_) (r : option (list unit_ * pystr))
  : option (list unit_ * pystr) :=
  match r with
  | Some (us, rest) => Some (x :: us, rest)
  | None => None
  end.

(** The text after an opening quote, up to the closing one, strict: a
    control character is an error. *)
Fixpoint scan_units (s : pystr) : option (list unit_ * pystr) :=
  match s with
  | [] => None
  | c :: r =>
      if c =? 34 then Some ([], r)
      else if c =? 92 then
        match r with
        | [] => None
        | e :: r1 =>
            if e =? 117 then
              match r1 with
              | a :: b :: c1 :: d :: r2 =>
                  match hex4 a b c1 d with
                  | Some u => cons_unit (Esc u) (scan_units r2)
                  | None => None
                  end
              | _ => None
              end
            else
              match unescape e with
              | Some c' => cons_unit (Lit c') (scan_units r1)
              | None => None
              end
        end
      else if c <? 32 then None
      else cons_unit (Lit c) (scan_units r)
  end.

(** A [\u] escape of a high surrogate that is followed at once by a
    [\u] escape of a low surrogate gives one code point. *)
Fixpoint join_units (us : list unit_) : pystr :=
  match us with
  | [] => []
  | Lit c :: r => c :: join_units r
  | Esc u :: r =>
      match r with
      | Esc u2 :: r' =>
          if is_high u && is_low u2
          then join_surrogates u u2 :: join_units r'
          else u :: join_units r
      | _ => u :: join_units r
      end
  end.

(** [scanstring]: CPython decodes the escapes and joins the surrogate
    pairs in one pass over the text; the two steps are separate here. *)
Definition scanstring (s : pystr) : option (pystr * pystr) :=
  match scan_units s with
  | Some (us, rest) => Some (join_units us, rest)
  | None => None
  end.

Fixpoint strip_prefix (p s : pystr) : option pystr :=
  match p, s with
  | [], _ => Some s
  | a :: p', b :: s' => if a =? b then strip_prefix p' s' else None
  | _ :: _, [] => None
  end.

(** The integer part of a number: [0] or a digit from 1 to 9 followed by
    digits. *)
Definition int_part (s : pystr) : option (pystr * pystr) :=
  match s with
  | c :: r =>
      if c =? 48 then Some ([c], r)
      else if is_digit c then
        let '(ds, t) := span_digits r in Some (c :: ds, t)
      else None
  | [] => None
  end.

(** The fraction: a point followed by at least one digit. *)
Definition frac_part (s : pystr) : pystr * pystr :=
  match s with
  | p :: d :: r =>
      if (p =? 46) && is_digit d then
        let '(ds, t) := span_digits r in (d :: ds, t)
      else ([], s)
  | _ => ([], s)
  end.

(** The exponent: [e] or [E], an optional sign, at least one digit;
    otherwise nothing is consumed. *)
Definition exp_part (s : pystr) : option (bool * pystr) * pystr :=
  match s with
  | e :: r =>
      if (e =? 101) || (e =? 69) then
        let '(neg, r1) :=
          match r with
          | sg :: r' =>
              if sg =? 45 then (true, r')
              else if sg =? 43 then (false, r')
              else (false, r)
          | [] => (false, r)
          end in
        let '(ds, t) := span_digits r1 in
        match ds with
        | [] => (None, s)
        | _ :: _ => (Some (neg, ds), t)
        end
      else (None, s)
  | [] => (None, s)
  end.

(** [_match_number]: an integer literal becomes an [int], a literal with
    a fraction or an exponent a [float]. *)
Definition match_number (s : pystr) : jres (pyval * pystr) :=
  let '(neg, r0) :=
    match s with
    | c :: r => if c =? 45 then (true, r) else (false, s)
    | [] => (false, s)
    end in
  match int_part r0 with
  | None => JErr DecodeError
  | Some (ip, r1) =>
      let '(fp, r2) := frac_part r1 in
      let '(ex, r3) := exp_part r2 in
      match fp, ex with
      | [], None =>
          if Nat.leb (length ip) int_max_str_digits then
            let z := digits_val ip in
            JOk (PInt (if neg then - z else z)%Z, r3)
          else JErr IntDigits
      | _, _ =>
          let e :=
            match ex with
            | Some (eneg, ds) =>
                let e := digits_val ds in if eneg then (- e)%Z else e
            | None => 0%Z
            end in
          JOk (PFloat (of_decimal neg (digits_val (ip ++ fp))
                         (e - Z.of_nat (length fp))), r3)
      end
  end.

(** The constants, tried after strings, objects and arrays and before
    numbers. *)
Definition match_constant (s : pystr) : option (pyval * pystr) :=
  match strip_prefix (py "null") s with
  | Some r => Some (PNone, r)
  | None =>
  match strip_prefix (py "true") s with
  | Some r => Some (PBool true, r)
  | None =>
  match strip_prefix (py "false") s with
  | Some r => Some (PBool false, r)
  | None =>
  match strip_prefix (py "NaN") s with
  | Some r => Some (PFloat nan, r)
  | None =>
  match strip_prefix (py "Infinity") s with
  | Some r => Some (PFloat (inf false), r)
  | None =>
  match strip_prefix (py "-Infinity") s with
  | Some r => Some (PFloat (inf true), r)
  | None => None
  end end end end end end.

(** An object is built by assigning its pairs in order: the last value
    of a repeated key wins, at the position of the first. *)
Definition dict_of_pairs (kvs : list (pystr * pyval)) : dict :=
  fold_left (fun d kv => dict_set (fst kv) (snd kv) d) kvs [].

(** [scan_once], with [JSONArray] and [JSONObject] entered after the
    opening bracket and the white space that follows it. *)
Fixpoint scan_once (fuel : nat) (s : pystr) {struct fuel}
  : jres (pyval * pystr) :=
  match fuel with
  | O => JFuel
  | S f =>
      match s with
      | [] => JErr DecodeError
      | c :: r =>
          if c =? 34 then
            match scanstring r with
            | Some (t, rest) => JOk (PStr t, rest)
            | None => JErr DecodeError
            end
          else if c =? 123 then
            match skip_ws r with
            | c1 :: r1 =>
                if c1 =? 125 then JOk (PDict [], r1)
                else
                  match object_items f (skip_ws r) with
                  | JOk (kvs, rest) => JOk (PDict (dict_of_pairs kvs), rest)
                  | JErr e => JErr e
                  | JFuel => JFuel
                  end
            | [] => JErr DecodeError
            end
          else if c =? 91 then
            match skip_ws r with
            | c1 :: r1 =>
                if c1 =? 93 then JOk (PList [], r1)
                else
                  match array_items f (skip_ws r) with
                  | JOk (vs, rest) => JOk (PList vs, rest)
                  | JErr e => JErr e
                  | JFuel => JFuel
                  end
            | [] => JErr DecodeError
            end
          else
            match match_constant s with
            | Some vr => JOk vr
            | None => match_number s
            end
      end
  end

with array_items (fuel : nat) (s : pystr) {struct fuel}
  : jres (list pyval * pystr) :=
  match fuel with
  | O => JFuel
  | S f =>
      match scan_once f s with
      | JOk (v, r) =>
          match skip_ws r with
          | c :: r1 =>
              if c =? 93 then JOk ([v], r1)
              else if c =? 44 then
                match array_items f (skip_ws r1) with
                | JOk (vs, rest) => JOk (v :: vs, rest)
                | JErr e => JErr e
                | JFuel => JFuel
                end
              else JErr DecodeError
          | [] => JErr DecodeError
          end
      | JErr e => JErr e
      | JFuel => JFuel
      end
  end

with object_items (fuel : nat) (s : pystr) {struct fuel}
  : jres (list (pystr * pyval) * pystr) :=
  match fuel with
  | O => JFuel
  | S f =>
      match s with
      | q :: r =>
          if q =? 34 then
            match scanstring r with
            | None => JErr DecodeError
            | Some (k, r1) =>
                match skip_ws r1 with
                | c :: r2 =>
                    if c =? 58 then
                      match scan_once f (skip_ws r2) with
                      | JOk (v, r3) =>
                          match skip_ws r3 with
                          | c1 :: r4 =>
                              if c1 =? 125 then JOk ([(k, v)], r4)
                              else if c1 =? 44 then
                                match object_items f (skip_ws r4) with
                                | JOk (kvs, rest) => JOk ((k, v) :: kvs, rest)
                                | JErr e => JErr e
                                | JFuel => JFuel
                                end
                              else JErr DecodeError
                          | [] => JErr DecodeError
                          end
                      | JErr e => JErr e
                      | JFuel => JFuel
                      end
                    else JErr DecodeError
                | [] => JErr DecodeError
                end
            end
          else JErr DecodeError
      | [] => JErr DecodeError
      end
  end.

(** The characters a number is made of. *)
Definition number_char (c : char) : bool :=
  is_digit c || (c =? 45) || (c =? 43) || (c =? 46) || (c =? 101)
  || (c =? 69).

(** A text that may follow a number without changing it: empty, or
    beginning with a character that no number contains. *)
Definition boundary (t : pystr) : Prop :=
  match t with [] => True | c :: _ => number_char c = false end.

(** [json.loads(s)]. *)
Definition json_loads (s : pystr) : jres pyval :=
  match scan_once (2 * length s + 1) (skip_ws s) with
  | JOk (v, r) =>
      match skip_ws r with
      | [] => JOk v
      | _ :: _ => JErr DecodeError
      end
  | JErr e => JErr e
  | JFuel => JFuel
  end.

(* ------------------------------------------------------------------ *)
(** ** [json.dumps] *)

Definition hex_digit (n : N) : char := if n <? 10 then 48 + n else 87 + n.

(** The escape [\uXXXX] of a code unit, in lower case. *)
Definition u_escape (u : N) : pystr :=
  [92; 117; hex_digit (u / 4096); hex_digit (u / 256 mod 16);
   hex_digit (u / 16 mod 16); hex_digit (u mod 16)].

(** [ensure_ascii]: quote, backslash and the five short escapes; the
    printable ASCII characters as they are; every other character of
    the basic plane as a [\u] escape, and the others as a surrogate
    pair. *)
Definition escape_char (c : char) : pystr :=
  if c =? 34 then [92; 34]
  else if c =? 92 then [92; 92]
  else if c =? 10 then [92; 110]
  else if c =? 13 then [92; 114]
  else if c =? 9 then [92; 116]
  else if c =? 8 then [92; 98]
  else if c =? 12 then [92; 102]
  else if (32 <=? c) && (c <=? 126) then [c]
  else if c <? 65536 then u_escape c
  else
    let n := c - 65536 in
    u_escape (55296 + (n / 1024) mod 1024) ++ u_escape (56320 + n mod 1024).

(** The units the scanner reads from the escape of a character. *)
Definition units_of_char (c : char) : list unit_ :=
  if (c =? 34) || (c =? 92) || (c =? 10) || (c =? 13) || (c =? 9)
     || (c =? 8) || (c =? 12) || (32 <=? c) && (c <=? 126)
  then [Lit c]
  else if c <? 65536 then [Esc c]
  else
    let n := c - 65536 in
    [Esc (55296 + (n / 1024) mod 1024); Esc (56320 + n mod 1024)].

Definition encode_string (s : pystr) : pystr :=
  [34] ++ flat_map escape_char s ++ [34].

Definition encode_int (z : Z) : pystr :=
  (if (z <? 0)%Z then [45] else []) ++ digits (Z.abs z).

Definition encode_float (x : float) : pystr :=
  match x with
  | S754_nan => py "NaN"
  | S754_infinity s => sign_str s ++ py "Infinity"
  | _ => repr x
  end.

Fixpoint join (sep : pystr) (l : list pystr) : pystr :=
  match l with
  | [] => []
  | [x] => x
  | x :: r => x ++ sep ++ join sep r
  end.

(** [json.dumps(v)] with its default settings, for a value whose
    dictionary keys are strings. *)
Fixpoint json_dumps (v : pyval) : pystr :=
  match v with
  | PNone => py "null"
  | PBool true => py "true"
  | PBool false => py "false"
  | PInt z => encode_int z
  | PFloat x => encode_float x
  | PStr s => encode_string s
  | PList l => [91] ++ join (py ", ") (List.map json_dumps l) ++ [93]
  | PDict d =>
      [123]
        ++ join (py ", ")
             (List.map (fun kv => encode_string (fst kv) ++ py ": "
                                    ++ json_dumps (snd kv)) d)
        ++ [125]
  end.

(** A string that its JSON text denotes: code points up to 10FFFF, and
    no high surrogate followed at once by a low surrogate (two such
    code units are the escape of one character). *)
Fixpoint text (s : pystr) : bool :=
  match s with
  | [] => true
  | c :: r =>
      (c <=? 1114111)
      && match r with
         | c2 :: _ => negb (is_high c && is_low c2)
         | [] => true
         end
      && text r
  end.

(** A float that the scanner reads back from its [repr]. *)
Definition readable (x : float) : Prop :=
  match x with
  | S754_finite _ _ _ => match_number (repr x) = JOk (PFloat x, [])
  | _ => True
  end.

(** The values [json.dumps] serialises to a text that denotes them:
    strings that are [text], integers within the digit limit of the
    conversion to [str], floats that are [readable], and dictionaries,
    whose keys are distinct. *)
Fixpoint serializable (v : pyval) : Prop :=
  match v with
  | PNone | PBool _ => True
  | PInt z => (length (digits (Z.abs z)) <= int_max_str_digits)%nat
  | PFloat x => readable x
  | PStr s => text s = true
  | PList l => fold_right (fun x acc => serializable x /\ acc) True l
  | PDict d =>
      NoDup (List.map fst d)
      /\ fold_right (fun kv acc => text (fst kv) = true
                                  /\ serializable (snd kv) /\ acc) True d
  end.

Definition prepend (us : list unit_) (r : option (list unit_ * pystr))
  : option (list unit_ * pystr) :=
  match r with
  | Some (us', rest) => Some (us ++ us', rest)
  | None => None
  end.

(** The text of a value begins with a character that is neither white
    space nor a closing bracket or brace. *)
Definition opens (s : pystr) : Prop :=
  match s with
  | c :: _ => json_ws c = false /\ (c =? 93) = false /\ (c =? 125) = false
  | [] => False
  end.

(** A value is read back from its text, whatever follows that cannot
    continue a number. *)
Definition reads_back (v : pyval) : Prop :=
  forall rest, boundary rest ->
  exists f0, forall f, (f0 <= f)%nat ->
    scan_once f (json_dumps v ++ rest) = JOk (v, rest).

End Json.

(* ================================================================== *)
(** * [src/algorithms/invoice.py] *)
(* ================================================================== *)

Module Invoice.

Import F64 Py Json.
Open Scope Z_scope.

(** ** The canvas

    ReportLab is an external library: a canvas is modelled by the list of
    the calls made on it, in order.  Nothing reaches the file system
    before [Save].  Page coordinates are multiples of one point that stay
    far below [2^53], where binary64 arithmetic is exact, so they are
    integers here ([letter] is 612 by 792 points). *)

Definition row := list pyval.

Inductive op :=
| NewCanvas (file : pystr)
| DrawImage (path : pystr) (x y w h : Z)
| SetFont (name : pystr) (size : Z)
| DrawString (x y : Z) (text : pystr)
| DrawTable (data : list row) (col_widths : list Z) (x y : Z)
| Save.

(** What the function needs from its surroundings: [drawImage] opens the
    logo file and raises when it cannot. *)
Record env := { logo_present : bool }.

Definition M := Log op.

Open Scope log_scope.

Definition letter : Z * Z := (612, 792).

Definition row_height : Z := 20.

Definition header_row : row :=
  [PStr (py "Producto"); PStr (py "Cantidad"); PStr (py "Precio");
   PStr (py "Total")].

Definition dollar (s : pystr) : pystr := py "$" ++ s.

(** ** The body of the loop over [productos] *)

(** [try: cantidad = int(cantidad) / except ValueError: cantidad = 1]. *)
Definition coerce_cantidad (cantidad : pyval) : result Z :=
  match py_int cantidad with
  | Raise (ValueError _) => Ok 1
  | r => r
  end.

(** [try: costo = float(costo) / except ValueError: costo = 1.0]. *)
Definition coerce_costo (costo : pystr) : result float :=
  match py_float (PStr costo) with
  | Raise (ValueError _) => Ok (of_Z 1)
  | r => r
  end.

Definition price_row (product : pyval) : result row :=
  bind (py_get product (py "nombre") (PStr [])) (fun nombre =>
  bind (py_get product (py "cantidad") (PInt 0)) (fun cantidad =>
  bind (py_get product (py "costo") (PStr (py "0"))) (fun costo =>
  bind (py_replace_dollar costo) (fun costo =>
  bind (coerce_cantidad cantidad) (fun cantidad =>
  bind (coerce_costo costo) (fun costo =>
  bind (py_float (PFloat costo)) (fun costo =>
  bind (py_int (PInt cantidad)) (fun cantidad =>
  bind (int_mul_float cantidad costo) (fun total =>
  Ok [nombre; PInt cantidad; PStr (dollar (format_2f costo));
      PStr (dollar (format_2f total))]))))))))).

(** [for product in productos: ... table_data.append(...)]. *)
Fixpoint price_rows (productos : list pyval) (table_data : list row)
  : result (list row) :=
  match productos with
  | [] => Ok table_data
  | product :: rest =>
      bind (price_row product) (fun r => price_rows rest (table_data ++ [r]))
  end.

(** [float(row[3].replace("$", ""))]. *)
Definition row_total (r : row) : result float :=
  match nth_error r 3 with
  | None => Raise IndexError
  | Some cell => bind (py_replace_dollar cell) (fun s => py_float (PStr s))
  end.

Fixpoint row_totals (rows : list row) : result (list float) :=
  match rows with
  | [] => Ok []
  | r :: rest =>
      bind (row_total r) (fun x =>
      bind (row_totals rest) (fun xs => Ok (x :: xs)))
  end.

(** [sum(float(row[3].replace("$", "")) for row in table_data[1:])]. *)
Definition subtotal_of (table_data : list row) : result float :=
  bind (row_totals (tl table_data)) (fun xs => Ok (py_sum xs)).

(** The literal [0.16]. *)
Definition iva_rate : float := of_decimal false 16 (-2).

(** ** [generate_invoice_pdf] *)

Definition fence_chars : pystr := py "```json".

Definition decode (matched_products : pyval) : result pyval :=
  match matched_products with
  | PStr s =>
      match json_loads (strip fence_chars s) with
      | JOk v => Ok v
      | JErr DecodeError => Raise (ValueError BadJSON)
      | JErr IntDigits => Raise (ValueError BadInt)
      | JFuel => Raise RecursionError
      end
  | v => Ok v
  end.

Definition draw_image (e : env) (path : pystr) (x y w h : Z) : M unit :=
  if logo_present e then emit (DrawImage path x y w h) else raise OSError.

Definition default_output_file : pystr := py "orden_de_servicio.pdf".

Definition generate_invoice_pdf (e : env) (matched_products : pyval)
    (output_file : pystr) : M unit :=
  matched_products <- lift (decode matched_products) ;;
  productos <- lift (py_get matched_products (py "productos") (PList [])) ;;
  emit (NewCanvas output_file) ;;;
  let '(width, height) := letter in
  let image_path := py "bunker_logo.jpg" in
  let image_width := 100 in
  let image_height := 50 in
  draw_image e image_path (width - image_width - 20)
    (height - image_height - 20) image_width image_height ;;;
  let title_y_position := height - 50 in
  emit (SetFont (py "Helvetica-Bold") 16) ;;;
  emit (DrawString 200 title_y_position (py "Orden de Servicio")) ;;;
  emit (SetFont (py "Helvetica") 12) ;;;
  emit (DrawString 50 (title_y_position - 30) (py "Nombre de la empresa")) ;;;
  let issued_to_y_position := title_y_position - 60 in
  emit (SetFont (py "Helvetica-Bold") 12) ;;;
  emit (DrawString 50 issued_to_y_position (py "Issued To:")) ;;;
  emit (SetFont (py "Helvetica") 12) ;;;
  emit (DrawString 50 (issued_to_y_position - 20)
          (py "Nombre del Cliente: John Doe")) ;;;
  emit (DrawString 50 (issued_to_y_position - 40)
          (py "Direcci" ++ [243%N] ++ py "n: 123 Main Street")) ;;;
  emit (DrawString 50 (issued_to_y_position - 60)
          (py "Tel" ++ [233%N] ++ py "fono: +1 234 567 890")) ;;;
  let pay_to_y_position := issued_to_y_position - 100 in
  emit (SetFont (py "Helvetica-Bold") 12) ;;;
  emit (DrawString 50 pay_to_y_position (py "Pay To:")) ;;;
  emit (SetFont (py "Helvetica") 12) ;;;
  emit (DrawString 50 (pay_to_y_position - 20)
          (py "Nombre de la Empresa: Bunker Inc.")) ;;;
  emit (DrawString 50 (pay_to_y_position - 40)
          (py "Direcci" ++ [243%N] ++ py "n: 456 Business Road")) ;;;
  emit (DrawString 50 (pay_to_y_position - 60)
          (py "Tel" ++ [233%N] ++ py "fono: +1 987 654 321")) ;;;
  let table_y_position := (height / 2) - 50 in
  items <- lift (py_iter productos) ;;
  table_data <- lift (price_rows items [header_row]) ;;
  let col_widths := [200; 100; 100] in
  let table_height := Z.of_nat (length table_data) * row_height in
  let table_y_position := title_y_position - 60 in
  if table_y_position - table_height <? 50 then
    raise (ValueError TableTooLarge)
  else
    subtotal <- lift (subtotal_of table_data) ;;
    let subtotal_y_position := table_y_position - 300 - table_height - 20 in
    emit (SetFont (py "Helvetica-Bold") 12) ;;;
    emit (DrawString 400 subtotal_y_position (py "Subtotal:")) ;;;
    emit (SetFont (py "Helvetica") 12) ;;;
    emit (DrawString 500 subtotal_y_position (dollar (format_2f subtotal))) ;;;
    let iva := mul subtotal iva_rate in
    let iva_y_position := subtotal_y_position - 20 in
    emit (SetFont (py "Helvetica-Bold") 12) ;;;
    emit (DrawString 400 iva_y_position (py "IVA:")) ;;;
    emit (SetFont (py "Helvetica") 12) ;;;
    emit (DrawString 500 iva_y_position (dollar (format_2f iva))) ;;;
    let total_y_position := iva_y_position - 20 in
    emit (SetFont (py "Helvetica-Bold") 12) ;;;
    emit (DrawString 400 total_y_position (py "Total:")) ;;;
    emit (SetFont (py "Helvetica") 12) ;;;
    emit (DrawString 500 total_y_position
            (dollar (format_2f (add subtotal iva)))) ;;;
    emit (DrawTable table_data col_widths 50 (table_y_position - 300)) ;;;
    emit Save.

(** ** Reading the outcome *)

(** A priced line: the name, the quantity and the unit cost after
    coercion, and the line total. *)
Record line := {
  l_nombre : pyval;
  l_cantidad : Z;
  l_costo : float;
  l_total : float
}.

(** The row the loop appends for a line. *)
Definition row_of_line (l : line) : row :=
  [l_nombre l; PInt (l_cantidad l); PStr (dollar (format_2f (l_costo l)));
   PStr (dollar (format_2f (l_total l)))].

(** The outcome of a call and the calls it made on the canvas. *)
Definition run (e : env) (matched_products : pyval) (output_file : pystr)
  : result unit * list op :=
  generate_invoice_pdf e matched_products output_file [].

Definition is_save (o : op) : bool :=
  match o with Save => true | _ => false end.

(** The document exists once [c.save()] has run. *)
Definition written (ops : list op) : bool := existsb is_save ops.

(** The texts drawn at a given label column, in order. *)
Definition strings_at (x : Z) (ops : list op) : list pystr :=
  flat_map (fun o => match o with
                     | DrawString x' _ t => if x' =? x then [t] else []
                     | _ => []
                     end) ops.

(** The data of the table that was drawn, if one was. *)
Definition table_of (ops : list op) : option (list row) :=
  match filter (fun o => match o with DrawTable _ _ _ _ => true
                                 | _ => false end) ops with
  | DrawTable d _ _ _ :: _ => Some d
  | _ => None
  end.

(** The fourth cell of every data row of the table that was drawn. *)
Definition line_totals (ops : list op) : option (list pyval) :=
  option_map (fun d => List.map (fun r => nth 3 r PNone) (tl d))
    (table_of ops).

End Invoice.

(* ================================================================== *)
(** * [src/algorithms/email_processing.py] and [src/app.py] *)
(* ================================================================== *)

Module Pipeline.

Import F64 Py Json.
Open Scope Z_scope.
Open Scope log_scope.

(** ** The collaborators

    The mailbox, the text-understanding service, the catalog file and
    the mail transport are outside the program: a [world] fixes what
    each of them answers during one polling cycle. *)

(** What [process_emails] reads from a fetched message: the parsed
    [From] header and the plain-text body. *)
Record fetched := { from_name : pystr; from_addr : pystr; body : pystr }.

(** One element of an IMAP fetch response: a tuple that carries the
    message, or a bare closing token. *)
Inductive part :=
| Tuple (m : fetched)
| Token.

Record world := {
  (** [connect_to_email()] returned a connection, not [None] *)
  connection : bool;
  (** what [fetch_emails] returns, newest first *)
  inbox : list (list part);
  extract_products_from_email : pystr -> result pystr;
  extract_product_names : pystr -> result pystr;
  match_products_with_costs : pystr -> pystr -> result pystr;
  (** the outcome of the [try] body of [read_csv_columns]: reading the
      columns and serialising the records *)
  catalog_source : result pystr;
  (** [send_email_with_pdf] from the configured sender: receiver,
      attachment path, receiver name *)
  smtp_send : pystr -> pystr -> pystr -> result unit;
  files : Invoice.env
}.

(** What a cycle does that is visible outside the process. *)
Inductive event :=
| Print (label : pystr) (value : pystr)
| ExtractCall (body : pystr)
| NamesCall (json_products : pystr)
| MatchCall (json_products catalog : pystr)
| Canvas (ops : list Invoice.op)
| SendCall (receiver pdf_path name : pystr).

(** A call to a collaborator: recorded, then its answer or its
    exception. *)
Definition call {A} (ev : event) (answer : result A) : Log event A :=
  emit ev ;;; lift answer.

Definition CSV_FILE_PATH : pystr := py "products.csv".

(** [read_csv_columns]: every exception of the [try] body is caught,
    reported on standard output, and the empty string is returned. *)
Definition read_csv_columns (source : result pystr) : Log event pystr :=
  match source with
  | Ok products_json => ret products_json
  | Raise _ => emit (Print (py "Error reading CSV file: ") []) ;;; ret []
  end.

(** The body of the inner loop of [process_emails] for one tuple. *)
Definition process_message (w : world) (m : fetched) : Log event unit :=
  emit (Print (py "Email Body:") (body m)) ;;;
  json_products <-
    call (ExtractCall (body m)) (extract_products_from_email w (body m)) ;;
  emit (Print (py "Extracted JSON Products:") json_products) ;;;
  product_names <-
    call (NamesCall json_products) (extract_product_names w json_products) ;;
  emit (Print (py "Product Names:") product_names) ;;;
  products_json_string <- read_csv_columns (catalog_source w) ;;
  emit (Print (py "Products JSON String:") products_json_string) ;;;
  matched_products <-
    call (MatchCall json_products products_json_string)
      (match_products_with_costs w json_products products_json_string) ;;
  emit (Print (py "Matched Products:") matched_products) ;;;
  let output_file := py "invoice.pdf" in
  let '(r, ops) := Invoice.run (files w) (PStr matched_products) output_file in
  emit (Canvas ops) ;;;
  lift r ;;;
  call (SendCall (from_addr m) output_file (from_name m))
    (smtp_send w (from_addr m) output_file (from_name m)) ;;;
  emit (Print (py "SENDER EMAIL:") (from_addr m)).

(** [for sent in msg: if isinstance(sent, tuple): ...]. *)
Fixpoint process_parts (w : world) (msg : list part) : Log event unit :=
  match msg with
  | [] => ret tt
  | Tuple m :: rest => process_message w m ;;; process_parts w rest
  | Token :: rest => process_parts w rest
  end.

(** [process_emails]: only the newest message, [msgs[0:1]], is
    processed. *)
Definition process_emails (w : world) : Log event unit :=
  if negb (connection w) then ret tt
  else
    match inbox w with
    | [] => emit (Print (py "No emails found with 'orden de pedido'.") [])
    | msg :: _ => process_parts w msg
    end.

(** [time.sleep(secs)]. *)
Definition time_sleep (secs : pyval) : result unit :=
  match secs with
  | PInt z => if z <? 0 then Raise (ValueError BadSleep) else Ok tt
  | PBool _ => Ok tt
  | PFloat S754_nan => Raise (ValueError BadSleep)
  | PFloat f => if is_negative f then
                  match f with
                  | S754_zero _ => Ok tt
                  | _ => Raise (ValueError BadSleep)
                  end
                else Ok tt
  | PNone | PStr _ | PList _ | PDict _ => Raise TypeError
  end.

(** [main]: the loop [while True: process_emails(); print(...);
    time.sleep(CHECKING_INTERVAL)], run on the worlds of its successive
    cycles.  [Ok tt] says that the loop is still running after the
    cycles given; [Raise e] that the exception [e] left [main], which
    ends the process.  [CHECKING_INTERVAL] is what the configuration
    read from the environment. *)
Fixpoint main (CHECKING_INTERVAL : pyval) (cycles : list world)
  : Log event unit :=
  match cycles with
  | [] => ret tt
  | w :: rest =>
      process_emails w ;;;
      emit (Print
              (py "Waiting for 180 seconds before checking for new emails...")
              []) ;;;
      lift (time_sleep CHECKING_INTERVAL) ;;;
      main CHECKING_INTERVAL rest
  end.

End Pipeline.

(* ================================================================== *)
(** * The specification's own notions, for comparison with the code *)
(* ================================================================== *)

Module Spec.

Import F64 Py.

(** "A JSON object with exactly one top-level key holding the item
    list." *)
Definition conforms (v : pyval) : bool :=
  match v with
  | PDict [(_, PList _)] => true
  | _ => false
  end.

(** "Per-line total = quantity x unit cost ... full precision retained
    for summation.  Subtotal = sum of line totals", in exact decimal
    arithmetic: a line is a quantity and an exact unit cost. *)
Definition line_total (l : Z * Q) : Q := (inject_Z (fst l) * snd l)%Q.

Definition subtotal (lines : list (Z * Q)) : Q :=
  fold_right (fun l acc => (line_total l + acc)%Q) 0%Q lines.


End Spec.

(* ================================================================== *)
(** * Inputs used in the examples *)
(* ================================================================== *)

Module Examples.

Import F64 Py Invoice Pipeline.

(** A JSON text written with apostrophes in place of the double
    quotes. *)
Definition jq (s : string) : pystr :=
  List.map (fun c => if (c =? 39)%N then 34%N else c) (py s).

Definition product (nombre cantidad costo : string) : pyval :=
  PDict [(py "nombre", PStr (py nombre)); (py "cantidad", PStr (py cantidad));
         (py "costo", PStr (py costo))].

Definition order (items : list pyval) : dict := [(py "productos", PList items)].

(** The matched products of the test suite. *)
Definition sample_items : list pyval :=
  [product "LAPTOP HP" "5" "$800.00";
   product "IMPRESORA EPSON" "3" "$200.00";
   product "MONITOR DELL" "2" "$300.00"].

(** [n] single-line items, as in the test of a table that is too
    large. *)
Definition single_line_items (n : nat) : list pyval :=
  repeat (product "Product" "1" "$10.00") n.

Definition with_logo : env := {| logo_present := true |}.

(** An item with a quantity and a cost that do not parse. *)
Definition garbage_item : dict :=
  [(py "nombre", PStr (py "X")); (py "cantidad", PStr (py "abc"));
   (py "costo", PStr (py "$-"))].

(** An item without a quantity. *)
Definition no_quantity_item : dict :=
  [(py "nombre", PStr (py "X")); (py "costo", PStr (py "$10.00"))].



(** A message that asks for a quotation. *)
Definition order_message : fetched :=
  {| from_name := py "John Doe";
     from_addr := py "john@example.com";
     body := py "Hola, necesito cotizar 5 laptops HP. Gracias." |}.

Definition extracted_json : pystr :=
  jq "{'productos': [{'nombre': 'LAPTOP HP', 'cantidad': '5'}]}".

Definition matched_json : pystr :=
  jq "{'productos': [{'nombre': 'LAPTOP HP', 'cantidad': '5', 'costo': '$800.00'}]}".

Definition prose : pystr := py "This is not a valid JSON string".

Definition newline : pystr := [10%N].

(** An order with an accented name, an integer quantity and a float
    among its values. *)
Definition mixed_order : dict :=
  order [PDict [(py "nombre", PStr (py "CA" ++ [209%N] ++ py "ON EPSON"));
                (py "cantidad", PInt 2);
                (py "costo", PStr (py "$1,250.50"));
                (py "descuento",
                 PFloat (S754_finite false 4503599627370496 (-53)))]].

(** An order whose product name is a high surrogate followed by a low
    surrogate. *)
Definition surrogate_order : dict :=
  order [PDict [(py "nombre", PStr [55357; 56832]%N);
                (py "cantidad", PStr (py "1")); (py "costo", PStr (py "1"))]].

(** The text of an object, without its braces. *)
Definition laptop_body : pystr :=
  jq "'productos': [{'nombre': 'LAPTOP HP', 'cantidad': '5', 'costo': '$800.00'}]".

(** A cycle with one matching message in the mailbox: the matching
    service answers [matched] and reading the catalog gives
    [catalog]. *)
Definition cycle (matched : pystr) (catalog : result pystr) : world :=
  {| connection := true;
     inbox := [[Tuple order_message; Token]];
     extract_products_from_email := fun _ => Ok extracted_json;
     extract_product_names := fun _ => Ok (py "LAPTOP HP");
     match_products_with_costs := fun _ _ => Ok matched;
     catalog_source := catalog;
     smtp_send := fun _ _ _ => Ok tt;
     files := with_logo |}.

End Examples.

(* ================================================================== *)
(** * The rest of the program

    What follows embeds [src/setup.py] (the configuration read from the
    environment), [src/api/gmail.py] ([connect_to_email], [get_body],
    [search_emails], [fetch_emails]) and [send_email_with_pdf] of
    [src/algorithms/email_processing.py], with the predicates used to
    state properties of the invoice generator and of the polling loop.
    The IMAP and SMTP servers and the file system are outside the
    program: they are records of the answers they give. *)
(* ================================================================== *)

(* ================================================================== *)
(** * Reading the page *)
(* ================================================================== *)

Module Page.

Import Py Invoice.
Open Scope Z_scope.

(** The heights at which a text was drawn, in order. *)
Definition ys_of (text : pystr) (ops : list op) : list Z :=
  flat_map (fun o => match o with
                     | DrawString _ y t => if Str.eqb t text then [y] else []
                     | _ => []
                     end) ops.

(** Where the table was put, if one was drawn. *)
Definition table_at (ops : list op) : option (Z * Z) :=
  match filter (fun o => match o with DrawTable _ _ _ _ => true
                                 | _ => false end) ops with
  | DrawTable _ _ x y :: _ => Some (x, y)
  | _ => None
  end.

End Page.

(* ================================================================== *)
(** * Texts that the coercions of the pricing loop fall back on *)
(* ================================================================== *)

Module Fallback.

Import Str.
Open Scope N_scope.

(** An ASCII character that no text accepted by [int] contains: not a
    digit, a sign, an underscore or white space. *)
Definition foreign_to_int (c : char) : bool :=
  (c <? 127) && negb (is_digit c) && negb (mem c (py "+-_"))
  && negb (ascii_space c).

(** An ASCII character that no text accepted by [float] contains once
    the dollar signs are removed: not a digit, a sign, a point, an
    exponent mark, an underscore, white space, the dollar sign, or a
    letter of [inf], [infinity] or [nan]. *)
Definition foreign_to_float (c : char) : bool :=
  (c <? 127) && negb (is_digit c) && negb (mem c (py "+-._eE$"))
  && negb (ascii_space c) && negb (mem (lower c) (py "infaty")).

End Fallback.

(* ================================================================== *)
(** * The first character of a JSON document *)
(* ================================================================== *)

Module Texts.

Import Str.
Open Scope N_scope.

(** The characters a JSON value can begin with: a quote, a brace, a
    bracket, a minus sign, a digit, or the first letter of [null],
    [true], [false], [NaN] or [Infinity]. *)
Definition opens_value (c : char) : bool :=
  (c =? 34) || is_digit c || mem c (py "{[-ntfNI").

End Texts.

(* ================================================================== *)
(** * [src/setup.py] *)
(* ================================================================== *)

Module Setup.

Import Py.

(** The process environment once [dotenv.load_dotenv()] has run: names
    and values, both texts. *)
Definition environ := list (pystr * pystr).

(** [os.getenv(key)]: the value of the variable, or [None]. *)
Fixpoint os_getenv (env : environ) (key : pystr) : pyval :=
  match env with
  | [] => PNone
  | (k, v) :: rest => if Str.eqb key k then PStr v else os_getenv rest key
  end.

Definition CHECKING_INTERVAL (env : environ) : pyval :=
  os_getenv env (py "CHECKING_INTERVAL").

End Setup.

(* ================================================================== *)
(** * Reading the trace of a polling cycle *)
(* ================================================================== *)

Module Trace.

Import Py Pipeline.

(** A computation whose outcome and whose records do not depend on what
    was recorded before it. *)
Definition local {E A} (m : Log E A) : Prop :=
  forall st, m st = (fst (m []), st ++ snd (m [])).

(** Every dispatch comes after an invoice run that saved its document,
    with no other dispatch in between; [saved] tells whether such a run
    is pending when the trace begins. *)
Fixpoint guarded (saved : bool) (tr : list event) : bool :=
  match tr with
  | [] => true
  | Canvas ops :: rest => guarded (Invoice.written ops) rest
  | SendCall _ _ _ :: rest => saved && guarded false rest
  | _ :: rest => guarded saved rest
  end.

(** What [main] prints before it sleeps. *)
Definition waiting : event :=
  Print (py "Waiting for 180 seconds before checking for new emails...") [].

(** The dispatches of a trace, in order. *)
Definition dispatches (tr : list event) : list event :=
  filter (fun ev => match ev with SendCall _ _ _ => true | _ => false end) tr.

End Trace.

(* ================================================================== *)
(** * [src/api/gmail.py] *)
(* ================================================================== *)

Module Gmail.

Import Py Pipeline Setup.
Open Scope log_scope.

(** A [bytes] object: the list of its bytes. *)
Definition bytes := list N.

(** [try: m / except Exception as e: h e].  Every exception of [exn] is
    an [Exception]. *)
Definition try_except {E A} (m : Log E A) (h : exn -> Log E A) : Log E A :=
  fun st =>
    match m st with
    | (Raise e, st') => h e st'
    | done => done
    end.

(** ** The server

    An [imaplib.IMAP4_SSL] object is an external resource: it is
    modelled by what the server answers to the commands the module
    sends.  [search] answers with the [data] of the pair that
    [con.search] returns, [fetch] with the [data] of the pair that
    [con.fetch] returns. *)
Record connection := {
  login : pyval -> pyval -> result unit;
  select : pystr -> result unit;
  search : pystr -> pystr -> result (list (option bytes));
  fetch : bytes -> pystr -> result (list part)
}.

Inductive event :=
| Print (text : pystr)
| PrintError (label : pystr) (e : exn)
| Open (host : pystr)
| Login (user password : pyval)
| Select (mailbox : pystr)
| Search (key criterion : pystr)
| Fetch (num : bytes) (message_parts : pystr).

Definition call {A} (ev : event) (answer : result A) : Log event A :=
  emit ev ;;; lift answer.

Definition IMAP_URL : pystr := py "imap.gmail.com".
Definition EMAIL_USER (env : environ) : pyval := os_getenv env (py "EMAIL_USER").
Definition EMAIL_PASSWORD (env : environ) : pyval :=
  os_getenv env (py "EMAIL_PASSWORD").

(** [connect_to_email]; [IMAP4_SSL] is the constructor, which opens
    the connection. *)
Definition connect_to_email (IMAP4_SSL : pystr -> result connection)
    (env : environ) : Log event (option connection) :=
  try_except
    (con <- call (Open IMAP_URL) (IMAP4_SSL IMAP_URL) ;;
     emit (Print (py "Connection established with GMAIL")) ;;;
     call (Login (EMAIL_USER env) (EMAIL_PASSWORD env))
       (login con (EMAIL_USER env) (EMAIL_PASSWORD env)) ;;;
     emit (Print (py "Login successful")) ;;;
     ret (Some con))
    (fun e =>
       emit (PrintError (py "Error connecting to email: ") e) ;;;
       ret None).

(** The search value between double quotes. *)
Definition quoted (value : pystr) : pystr := [34%N] ++ value ++ [34%N].

(** [search_emails]. *)
Definition search_emails (con : connection) (key value : pystr)
  : Log event (list (option bytes)) :=
  call (Search key (quoted value)) (search con key (quoted value)).

(** [b.split()]: the maximal runs of bytes that are not ASCII white
    space; [cur] is the run being read, last byte first. *)
Fixpoint split_from (cur : bytes) (b : bytes) : list bytes :=
  match b with
  | [] => match cur with [] => [] | _ :: _ => [rev cur] end
  | c :: r =>
      if ascii_space c then
        match cur with
        | [] => split_from [] r
        | _ :: _ => rev cur :: split_from [] r
        end
      else split_from (c :: cur) r
  end.

Definition split (b : bytes) : list bytes := split_from [] b.

(** [result_bytes[0]], on which [split] is then called. *)
Definition first_item (data : list (option bytes)) : result bytes :=
  match data with
  | [] => Raise IndexError
  | None :: _ => Raise AttributeError
  | Some b :: _ => Ok b
  end.

(** The request for a whole message. *)
Definition fetch_event (num : bytes) : event := Fetch num (py "(RFC822)").

(** The loop [for num in ...: typ, data = con.fetch(num, '(RFC822)');
    msgs.append(data)]. *)
Fixpoint fetch_all (con : connection) (nums : list bytes)
    (msgs : list (list part)) : Log event (list (list part)) :=
  match nums with
  | [] => ret msgs
  | num :: rest =>
      data <- call (fetch_event num) (fetch con num (py "(RFC822)")) ;;
      fetch_all con rest (msgs ++ [data])
  end.

(** [fetch_emails]. *)
Definition fetch_emails (con : connection) (search_key search_value : pystr)
  : Log event (list (list part)) :=
  try_except
    (call (Select (py "Inbox")) (select con (py "Inbox")) ;;;
     emit (Print (py "Fetching emails...")) ;;;
     result_bytes <- search_emails con search_key search_value ;;
     ids <- lift (first_item result_bytes) ;;
     msgs <- fetch_all con (rev (split ids)) [] ;;
     emit (Print (py "Fetching done")) ;;;
     ret msgs)
    (fun e =>
       emit (PrintError (py "Error fetching emails: ") e) ;;;
       ret []).

(** The message numbers a trace asks the server for, in order. *)
Definition fetched_nums (tr : list event) : list bytes :=
  flat_map (fun ev => match ev with Fetch num _ => [num] | _ => [] end) tr.

(** ** The body of a message *)

(** An [email.message.Message] as [get_body] reads it: its content
    type, and either its parts or the bytes that
    [get_payload(decode=True)] returns, the payload with its transfer
    encoding undone. *)
#[warnings="-register-all"]
Inductive message :=
| Single (content_type : pystr) (payload : bytes)
| Multipart (content_type : pystr) (parts : list message).

Definition get_content_type (m : message) : pystr :=
  match m with Single t _ | Multipart t _ => t end.

Definition is_multipart (m : message) : bool :=
  match m with Single _ _ => false | Multipart _ _ => true end.

(** [msg.walk()]: the message, then the parts of its parts, depth
    first. *)
Fixpoint walk (m : message) : list message :=
  m :: match m with
       | Single _ _ => []
       | Multipart _ parts => flat_map walk parts
       end.

Definition continuation (b : N) : bool := ((128 <=? b) && (b <=? 191))%N.

(** [b.decode('utf-8')], strict: [None] stands for
    [UnicodeDecodeError].  Over-long forms, surrogates and code points
    above 10FFFF are errors, which the bounds on the second byte
    exclude. *)
Fixpoint utf8_decode (b : bytes) : option pystr :=
  match b with
  | [] => Some []
  | b0 :: r0 =>
      if (b0 <? 128)%N then option_map (cons b0) (utf8_decode r0)
      else if ((194 <=? b0) && (b0 <=? 223))%N then
        match r0 with
        | b1 :: r1 =>
            if continuation b1
            then option_map (cons ((b0 - 192) * 64 + (b1 - 128))%N)
                   (utf8_decode r1)
            else None
        | _ => None
        end
      else if ((224 <=? b0) && (b0 <=? 239))%N then
        match r0 with
        | b1 :: b2 :: r2 =>
            if ((if b0 =? 224 then 160 else 128) <=? b1)%N
               && (b1 <=? (if b0 =? 237 then 159 else 191))%N
               && continuation b2
            then option_map
                   (cons (((b0 - 224) * 64 + (b1 - 128)) * 64 + (b2 - 128))%N)
                   (utf8_decode r2)
            else None
        | _ => None
        end
      else if ((240 <=? b0) && (b0 <=? 244))%N then
        match r0 with
        | b1 :: b2 :: b3 :: r3 =>
            if ((if b0 =? 240 then 144 else 128) <=? b1)%N
               && (b1 <=? (if b0 =? 244 then 143 else 191))%N
               && continuation b2 && continuation b3
            then option_map
                   (cons ((((b0 - 240) * 64 + (b1 - 128)) * 64
                           + (b2 - 128)) * 64 + (b3 - 128))%N)
                   (utf8_decode r3)
            else None
        | _ => None
        end
      else None
  end.

(** [b.decode('latin-1', errors='ignore')]: every byte is a code
    point, so nothing is ignored. *)
Definition latin1_decode (b : bytes) : pystr := b.

(** [try: return p.decode('utf-8') / except UnicodeDecodeError: return
    p.decode('latin-1', errors='ignore')], where [p] is
    [part.get_payload(decode=True)], which is [None] for a multipart
    message. *)
Definition decode_payload (m : message) : result pystr :=
  match m with
  | Multipart _ _ => Raise AttributeError
  | Single _ p =>
      match utf8_decode p with
      | Some s => Ok s
      | None => Ok (latin1_decode p)
      end
  end.

(** The loop over [msg.walk()], which returns at the first part of
    type [text/plain] and falls through to [None]. *)
Fixpoint first_plain (parts : list message) : result (option pystr) :=
  match parts with
  | [] => Ok None
  | part :: rest =>
      if Str.eqb (get_content_type part) (py "text/plain")
      then bind (decode_payload part) (fun s => Ok (Some s))
      else first_plain rest
  end.

(** [get_body]. *)
Definition get_body (msg : message) : result (option pystr) :=
  if is_multipart msg then first_plain (walk msg)
  else bind (decode_payload msg) (fun s => Ok (Some s)).

End Gmail.

(* ================================================================== *)
(** * [send_email_with_pdf] of [src/algorithms/email_processing.py] *)
(* ================================================================== *)

Module Mail.

Import Py Gmail.
Open Scope log_scope.

(** The message that is built: its headers, its text part, and the
    attachment, whose payload is encoded in base64 when the message is
    serialised. *)
Record mime := {
  From : pyval;
  To : pystr;
  Subject : pystr;
  text : pystr;
  attachment_type : pystr;
  attachment_name : pystr;
  attachment : bytes
}.

(** An [smtplib.SMTP] session: what the server answers. *)
Record session := {
  starttls : result unit;
  login : pyval -> pyval -> result unit;
  sendmail : pyval -> pystr -> mime -> result unit;
  quit : result unit
}.

(** The file system and the network. *)
Record outside := {
  read_binary : pystr -> result bytes;      (* [open(path, 'rb').read()] *)
  SMTP : pystr -> Z -> result session       (* [smtplib.SMTP(host, port)] *)
}.

Inductive event :=
| ReadFile (path : pystr)
| Connect (host : pystr) (port : Z)
| StartTLS
| Login (user password : pyval)
| SendMail (sender : pyval) (receiver : pystr) (message : mime)
| Quit
| Print (text : pystr).

Definition call {A} (ev : event) (answer : result A) : Log event A :=
  emit ev ;;; lift answer.

Definition greeting (name : pystr) : pystr :=
  py "Hello," ++ name
  ++ py "here is the invoice you requested, if it does not meet requirements, please resend the email with the correct information again.".

(** [send_email_with_pdf].  Building the message and serialising it
    with [as_string] are taken to succeed; the file, the connection
    and the four commands of the session may each raise. *)
Definition send_email_with_pdf (o : outside) (sender : pyval)
    (receiver : pystr) (password : pyval) (pdf_path name : pystr)
  : Log event unit :=
  let body := greeting name in
  data <- call (ReadFile pdf_path) (read_binary o pdf_path) ;;
  let message :=
    {| From := sender; To := receiver; Subject := py "SAMLA - Invoice";
       text := body; attachment_type := py "application/octate-stream";
       attachment_name := pdf_path; attachment := data |} in
  session <- call (Connect (py "smtp.gmail.com") 587)
               (SMTP o (py "smtp.gmail.com") 587) ;;
  call StartTLS (starttls session) ;;;
  call (Login sender password) (login session sender password) ;;;
  call (SendMail sender receiver message)
    (sendmail session sender receiver message) ;;;
  call Quit (quit session) ;;;
  emit (Print (py "Mail Sent")).

End Mail.

(* ================================================================== *)
(** * Facts about strings and digits *)
(* ================================================================== *)

Import Str F64 Py.

Module StrFacts.

Lemma eqb_spec a b : reflect (a = b) (Str.eqb a b).
Proof.
  revert b; induction a as [|x a IH]; intros [|y b]; simpl;
    try (constructor; congruence).
  destruct (N.eqb_spec x y) as [->|Hn]; simpl.
  - destruct (IH b) as [->|Hn]; constructor; congruence.
  - constructor; congruence.
Qed.

Lemma eqb_refl a : Str.eqb a a = true.
Proof. destruct (eqb_spec a a); congruence. Qed.

Lemma eqb_eq a b : Str.eqb a b = true <-> a = b.
Proof. destruct (eqb_spec a b); split; congruence. Qed.

Lemma eqb_neq a b : Str.eqb a b = false <-> a <> b.
Proof. destruct (eqb_spec a b); split; congruence. Qed.

Open Scope Z_scope.

Lemma digits_val_app a b :
  digits_val (a ++ b) = digits_val a * 10 ^ Z.of_nat (length b) + digits_val b.
Proof.
  unfold digits_val.
  assert (G : forall l x y,
    fold_left (fun acc c => 10 * acc + digit_val c) l (x * 10 ^ 0 + y) 
    = x * 10 ^ Z.of_nat (length l) + fold_left (fun acc c => 10 * acc + digit_val c) l y).
  { induction l as [|c l IH]; intros x y; simpl length.
    - reflexivity.
    - cbn [fold_left]. rewrite Nat2Z.inj_succ, Z.pow_succ_r by lia.
      replace (10 * (x * 10 ^ 0 + y) + digit_val c)
        with ((10 * x) * 10 ^ 0 + (10 * y + digit_val c)) by (rewrite Z.pow_0_r; ring).
      rewrite IH. ring. }
  rewrite fold_left_app.
  specialize (G b (fold_left (fun acc c => 10 * acc + digit_val c) a 0) 0).
  rewrite Z.pow_0_r, Z.mul_1_r, Z.add_0_r in G. exact G.
Qed.

Lemma is_digit_of_val d : 0 <= d < 10 -> is_digit (Z.to_N (48 + d)) = true.
Proof.
  intros H. unfold is_digit. apply andb_true_intro; split; apply N.leb_le; lia.
Qed.

Lemma digit_val_of_val d : 0 <= d < 10 -> digit_val (Z.to_N (48 + d)) = d.
Proof. intros H. unfold digit_val. rewrite Z2N.id by lia. lia. Qed.

Lemma digits_fuel_S f n acc :
  digits_fuel (S f) n acc
  = if n <? 10 then Z.to_N (48 + n mod 10) :: acc
    else digits_fuel f (n / 10) (Z.to_N (48 + n mod 10) :: acc).
Proof. reflexivity. Qed.

Lemma digits_fuel_spec f : forall n acc,
  0 <= n < 2 ^ Z.of_nat (S f) ->
  exists ds, digits_fuel (S f) n acc = ds ++ acc
    /\ forallb is_digit ds = true /\ ds <> [] /\ digits_val ds = n.
Proof.
  induction f as [|f IH]; intros n acc H;
    assert (Hm : 0 <= n mod 10 < 10) by (apply Z.mod_pos_bound; lia);
    rewrite digits_fuel_S; destruct (Z.ltb_spec n 10) as [Hlt|Hge].
  1,3: exists [Z.to_N (48 + n mod 10)]; repeat split;
      [ cbn [forallb]; now rewrite is_digit_of_val by lia
      | discriminate
      | unfold digits_val; cbn [fold_left]; rewrite digit_val_of_val by lia;
        rewrite Z.mod_small by lia; lia ].
  - change (2 ^ Z.of_nat 1) with 2 in H. lia.
  - destruct (IH (n / 10) (Z.to_N (48 + n mod 10) :: acc)) as (ds & E & A & NE & V).
    { split; [apply Z.div_pos; lia|].
      rewrite (Nat2Z.inj_succ (S f)), Z.pow_succ_r in H by lia.
      apply Z.div_lt_upper_bound; lia. }
    exists (ds ++ [Z.to_N (48 + n mod 10)]). repeat split.
    + rewrite E, <- app_assoc. reflexivity.
    + rewrite forallb_app, A. cbn [forallb]. now rewrite is_digit_of_val by lia.
    + intros C. apply app_eq_nil in C. destruct C; discriminate.
    + rewrite digits_val_app, V. cbn [length]. unfold digits_val at 1; cbn [fold_left].
      rewrite digit_val_of_val by lia. change (10 ^ Z.of_nat 1) with 10.
      pose proof (Z.div_mod n 10). lia.
Qed.

Lemma digits_spec n : 0 <= n ->
  forallb is_digit (digits n) = true /\ digits n <> [] /\ digits_val (digits n) = n.
Proof.
  intros H. unfold digits.
  destruct (digits_fuel_spec (Z.to_nat (Z.log2 n)) n []) as (ds & E & A & NE & V).
  { split; [lia|]. rewrite Nat2Z.inj_succ, Z2Nat.id by apply Z.log2_nonneg.
    destruct (Z.eq_dec n 0) as [->|]; [reflexivity|].
    apply Z.log2_spec. lia. }
  rewrite E, app_nil_r. auto.
Qed.

Lemma span_digits_app ds t :
  forallb is_digit ds = true ->
  match t with [] => True | c :: _ => is_digit c = false end ->
  span_digits (ds ++ t) = (ds, t).
Proof.
  induction ds as [|d ds IH]; simpl; intros A B.
  - destruct t as [|c t]; [reflexivity|]. simpl. now rewrite B.
  - apply andb_prop in A. destruct A as [A1 A2]. rewrite A1, IH; auto.
Qed.

Lemma span_digits_all ds :
  forallb is_digit ds = true -> span_digits ds = (ds, []).
Proof.
  intros A. rewrite <- (app_nil_r ds) at 1. now apply span_digits_app.
Qed.

Lemma to_ascii_plain s : forallb (fun c => (c <? 127)%N) s = true -> List.map to_ascii s = s.
Proof.
  induction s as [|c s IH]; simpl; intros A; [reflexivity|].
  apply andb_prop in A. destruct A as [A1 A2].
  unfold to_ascii at 1. rewrite A1, IH; auto.
Qed.

Lemma drop_underscores_none p s :
  (p =? 95)%N = false ->
  forallb (fun c => negb (c =? 95)%N) s = true ->
  drop_underscores p s = Some s.
Proof.
  revert p; induction s as [|c s IH]; simpl; intros p Hp A.
  - now rewrite Hp.
  - apply andb_prop in A. destruct A as [A1 A2].
    apply negb_true_iff in A1. rewrite A1, Hp. simpl.
    rewrite IH; auto.
Qed.

Lemma strip_space_id s :
  match s with [] => True | c :: _ => ascii_space c = false end ->
  match rev s with [] => True | c :: _ => ascii_space c = false end ->
  strip_space s = s.
Proof.
  intros A B. unfold strip_space.
  assert (L : forall l, match l with [] => True | c :: _ => ascii_space c = false end ->
                   lstrip_space l = l).
  { intros [|c l] H; simpl; [reflexivity|]. now rewrite H. }
  rewrite (L s A), (L _ B). apply rev_involutive.
Qed.

End StrFacts.

Module F64Facts.
Import StrFacts.
Open Scope Z_scope.

Lemma numeric_char_plain c :
  numeric_char c = true ->
  (c <? 127)%N = true /\ (c =? 95)%N = false /\ ascii_space c = false
  /\ (c =? 36)%N = false.
Proof.
  unfold numeric_char, is_digit, ascii_space. intros H.
  repeat match goal with
         | H : _ || _ = true |- _ => apply orb_prop in H; destruct H as [H|H]
         | H : _ && _ = true |- _ => apply andb_prop in H; destruct H as [? ?]
         end;
  repeat match goal with
         | H : (_ <=? _)%N = true |- _ => apply N.leb_le in H
         | H : (_ =? _)%N = true |- _ => apply N.eqb_eq in H
         end;
  repeat split;
  repeat match goal with
         | |- (_ <? _)%N = true => apply N.ltb_lt
         | |- (_ =? _)%N = false => apply N.eqb_neq
         | |- _ || _ = false => apply orb_false_intro
         | |- _ && _ = false => apply andb_false_iff
         end; try lia.
  all: try (left; apply N.leb_gt; lia); try (right; apply N.leb_gt; lia).
Qed.

Lemma forallb_imp {A} (p q : A -> bool) l :
  (forall x, p x = true -> q x = true) ->
  forallb p l = true -> forallb q l = true.
Proof.
  intros H. induction l as [|x l IH]; simpl; [reflexivity|].
  intros E. apply andb_prop in E. destruct E as [E1 E2].
  now rewrite (H _ E1), IH.
Qed.

Lemma round_half_even_nonneg n d : 0 <= n -> 0 < d -> 0 <= round_half_even n d.
Proof.
  intros Hn Hd. unfold round_half_even.
  assert (0 <= n / d) by (apply Z.div_pos; lia).
  destruct (2 * (n mod d) ?= d); [destruct (Z.even (n / d))|..]; lia.
Qed.

Lemma cents_nonneg m e : 0 <= cents m e.
Proof.
  unfold cents. destruct (Z.leb_spec 0 e).
  - assert (0 < 2 ^ e) by (apply Z.pow_pos_nonneg; lia). nia.
  - apply round_half_even_nonneg; [lia|]. apply Z.pow_pos_nonneg; lia.
Qed.

(** The shape of the text of a non-negative amount of cents. *)
Lemma fixed2_shape c : 0 <= c ->
  exists ip d1 d2,
    fixed2 c = ip ++ 46%N :: [d1; d2]
    /\ forallb is_digit ip = true /\ ip <> []
    /\ is_digit d1 = true /\ is_digit d2 = true
    /\ digits_val (ip ++ [d1; d2]) = c.
Proof.
  intros H. unfold fixed2.
  assert (Hq : 0 <= c / 100) by (apply Z.div_pos; lia).
  destruct (digits_spec _ Hq) as (A & NE & V).
  assert (H1 : 0 <= c mod 100 / 10 < 10).
  { pose proof (Z.mod_pos_bound c 100 ltac:(lia)).
    split; [apply Z.div_pos; lia | apply Z.div_lt_upper_bound; lia]. }
  assert (H2 : 0 <= c mod 10 < 10) by (apply Z.mod_pos_bound; lia).
  exists (digits (c / 100)), (Z.to_N (48 + c mod 100 / 10)), (Z.to_N (48 + c mod 10)).
  repeat split; auto using is_digit_of_val.
  rewrite digits_val_app, V. unfold digits_val at 1. cbn [fold_left length].
  rewrite !digit_val_of_val by lia. change (10 ^ Z.of_nat 2) with 100.
  pose proof (Z.div_mod c 100 ltac:(lia)).
  pose proof (Z.div_mod (c mod 100) 10 ltac:(lia)).
  assert ((c mod 100) mod 10 = c mod 10).
  { apply Z.mod_mod_divide. exists 10; lia. }
  lia.
Qed.

Lemma digit_not_sign d : is_digit d = true ->
  (d =? 45)%N = false /\ (d =? 43)%N = false /\ (d =? 46)%N = false
  /\ (d =? 101)%N = false /\ (d =? 69)%N = false /\ lower d = d
  /\ (d =? 105)%N = false /\ (d =? 110)%N = false.
Proof.
  unfold is_digit, lower. intros H. apply andb_prop in H. destruct H as [H1 H2].
  apply N.leb_le in H1, H2.
  replace (65 <=? d)%N with false by (symmetry; apply N.leb_gt; lia).
  repeat split; try apply N.eqb_neq; lia.
Qed.

Lemma parse_decimal_fixed neg ip d1 d2 :
  forallb is_digit ip = true -> ip <> [] ->
  is_digit d1 = true -> is_digit d2 = true ->
  parse_decimal neg (ip ++ 46%N :: [d1; d2])
  = Some (of_decimal neg (digits_val (ip ++ [d1; d2])) (-2)).
Proof.
  intros A NE D1 D2. unfold parse_decimal.
  rewrite span_digits_app; auto.
  change (46 =? 46)%N with true. cbv iota.
  rewrite (span_digits_all [d1; d2]) by (cbn; now rewrite D1, D2).
  destruct ip as [|i ip]; [congruence|]. reflexivity.
Qed.

Lemma float_of_str_fixed s c : 0 <= c ->
  float_of_str (sign_str s ++ fixed2 c) = Some (of_decimal s c (-2)).
Proof.
  intros H. destruct (fixed2_shape _ H) as (ip & d1 & d2 & E & A & NE & D1 & D2 & V).
  rewrite E, <- V.
  set (body := ip ++ 46%N :: [d1; d2]).
  assert (NB : forallb numeric_char body = true).
  { unfold body. rewrite forallb_app. apply andb_true_intro; split.
    - eapply forallb_imp; [|exact A]. intros x Hx. unfold numeric_char. now rewrite Hx.
    - cbn. unfold numeric_char. now rewrite D1, D2. }
  assert (NT : forallb numeric_char (sign_str s ++ body) = true).
  { rewrite forallb_app, NB. destruct s; reflexivity. }
  destruct ip as [|i ip]; [congruence|].
  cbn in A. apply andb_prop in A. destruct A as [Ai A].
  destruct (digit_not_sign _ Ai) as (S1 & S2 & S3 & S4 & S5 & S6 & S7 & S8).
  unfold float_of_str.
  rewrite to_ascii_plain
    by (eapply forallb_imp; [|exact NT]; intros x Hx; apply (numeric_char_plain _ Hx)).
  rewrite drop_underscores_none;
    [| reflexivity
     | eapply forallb_imp; [|exact NT]; intros x Hx;
       apply negb_true_iff; apply (numeric_char_plain _ Hx) ].
  rewrite strip_space_id.
  - assert (P : parse_sign (sign_str s ++ body) = (s, body)).
    { destruct s; [reflexivity|]. unfold body. cbn. now rewrite S1, S2. }
    rewrite P.
    assert (L : forall k, Str.eqb (List.map lower body) (105%N :: k) = false
                          /\ Str.eqb (List.map lower body) (110%N :: k) = false).
    { intros k. unfold body. cbn. now rewrite S6, S7, S8. }
    unfold py. cbn [list_ascii_of_string List.map N_of_ascii].
    change (N_of_ascii "i") with 105%N; change (N_of_ascii "n") with 110%N.
    rewrite !(proj1 (L _)), (proj2 (L _)). cbn [orb].
    unfold body. apply parse_decimal_fixed; cbn; auto; try congruence; now rewrite Ai, A.
  - destruct s; cbn; [reflexivity|]. unfold body. cbn.
    apply (numeric_char_plain i). unfold numeric_char. now rewrite Ai.
  - rewrite rev_app_distr. unfold body. rewrite rev_app_distr. cbn.
    apply (numeric_char_plain d2). unfold numeric_char. now rewrite D2.
Qed.

Theorem float_of_str_format_2f x : float_of_str (format_2f x) = Some (reread_2f x).
Proof.
  destruct x as [s|s| |s m e].
  - destruct s; vm_compute; reflexivity.
  - destruct s; vm_compute; reflexivity.
  - vm_compute; reflexivity.
  - apply float_of_str_fixed, cents_nonneg.
Qed.

End F64Facts.

(* ================================================================== *)
(** * Facts about [json.loads] *)
(* ================================================================== *)

Import Json.

Module JsonFacts.

Open Scope nat_scope.

Lemma list_length_ind {A} (P : list A -> Prop) :
  (forall s, (forall s', length s' < length s -> P s') -> P s) ->
  forall s, P s.
Proof.
  intros H s. assert (G : forall n s', length s' < n -> P s').
  { induction n as [|n IH]; intros s' L; [lia|].
    apply H. intros s'' L'. apply IH. lia. }
  apply (G (S (length s))). lia.
Qed.

(** ** What is left is shorter *)

Lemma skip_ws_length s : length (skip_ws s) <= length s.
Proof.
  induction s as [|c s IH]; simpl; [lia|].
  destruct (json_ws c); simpl; lia.
Qed.

Lemma cons_unit_some x r us rest :
  cons_unit x r = Some (us, rest) ->
  exists us', r = Some (us', rest) /\ us = x :: us'.
Proof.
  destruct r as [[us' rest']|]; simpl; [|discriminate].
  intros H. inversion H; subst. eauto.
Qed.

Lemma scan_units_length s : forall us rest,
  scan_units s = Some (us, rest) -> length rest < length s.
Proof.
  induction s as [s IH] using list_length_ind.
  intros us rest H.
  destruct s as [|c r]; [discriminate|]. cbn [scan_units] in H.
  destruct (c =? 34)%N.
  { inversion H; subst. simpl. lia. }
  destruct (c =? 92)%N.
  - destruct r as [|e r1]; [discriminate|].
    destruct (e =? 117)%N.
    + destruct r1 as [|a [|b [|c1 [|d r2]]]]; try discriminate.
      destruct (hex4 a b c1 d) as [u|]; [|discriminate].
      apply cons_unit_some in H. destruct H as (us' & H & _).
      apply IH in H; simpl in *; lia.
    + destruct (unescape e); [|discriminate].
      apply cons_unit_some in H. destruct H as (us' & H & _).
      apply IH in H; simpl in *; lia.
  - destruct (c <? 32)%N; [discriminate|].
    apply cons_unit_some in H. destruct H as (us' & H & _).
    apply IH in H; simpl in *; lia.
Qed.

Lemma scanstring_length s t rest :
  scanstring s = Some (t, rest) -> length rest < length s.
Proof.
  unfold scanstring. destruct (scan_units s) as [[us r]|] eqn:E; [|discriminate].
  intros H. inversion H; subst. now apply scan_units_length in E.
Qed.

Lemma span_digits_length s ds t :
  span_digits s = (ds, t) -> length s = length ds + length t.
Proof.
  revert ds t; induction s as [|c s IH]; simpl; intros ds t H.
  - inversion H; reflexivity.
  - destruct (is_digit c).
    + destruct (span_digits s) as [ds' t']. inversion H; subst.
      simpl. rewrite (IH ds' t eq_refl). reflexivity.
    + inversion H; subst. reflexivity.
Qed.

Lemma strip_prefix_length p : forall s r,
  strip_prefix p s = Some r -> length s = length p + length r.
Proof.
  induction p as [|a p IH]; intros [|b s] r H; simpl in *;
    try discriminate; try (inversion H; reflexivity).
  revert H. destruct (a =? b)%N; [|discriminate]. intros H. now rewrite (IH _ _ H).
Qed.

Lemma match_constant_length s v r :
  match_constant s = Some (v, r) -> length r < length s.
Proof.
  unfold match_constant. intros H.
  repeat match type of H with
         | match strip_prefix ?p s with _ => _ end = _ =>
             destruct (strip_prefix p s) eqn:E; rewrite ?E in H;
             [apply strip_prefix_length in E; inversion H; subst;
              rewrite E; simpl; lia | clear E]
         end.
  discriminate.
Qed.

Lemma int_part_length s ip r :
  int_part s = Some (ip, r) -> length r < length s.
Proof.
  unfold int_part. destruct s as [|c s]; [discriminate|].
  destruct (c =? 48)%N.
  - intros H; inversion H; subst. simpl. lia.
  - destruct (is_digit c); [|discriminate].
    destruct (span_digits s) as [ds t] eqn:E. apply span_digits_length in E.
    intros H; inversion H; subst. simpl. lia.
Qed.

Lemma frac_part_length s fp r :
  frac_part s = (fp, r) -> length r <= length s.
Proof.
  unfold frac_part. destruct s as [|p [|d s]]; try (intros H; inversion H; subst; simpl; lia).
  destruct ((p =? 46)%N && is_digit d).
  - destruct (span_digits s) as [ds t] eqn:E. apply span_digits_length in E.
    intros H; inversion H; subst. simpl. lia.
  - intros H; inversion H; subst. simpl. lia.
Qed.

Lemma exp_part_length s ex r :
  exp_part s = (ex, r) -> length r <= length s.
Proof.
  unfold exp_part. destruct s as [|e s]; [intros H; inversion H; subst; simpl; lia|].
  destruct ((e =? 101)%N || (e =? 69)%N); [|intros H; inversion H; subst; simpl; lia].
  assert (K : forall neg r1, length r1 <= length s ->
    (let '(ds, t) := span_digits r1 in
     match ds with [] => (None, e :: s) | _ :: _ => (Some (neg, ds), t) end)
    = (ex, r) -> length r <= length (e :: s)).
  { intros neg r1 L. destruct (span_digits r1) as [ds t] eqn:E.
    apply span_digits_length in E.
    destruct ds; intros H; inversion H; subst; simpl in *; lia. }
  destruct s as [|sg s']; [apply (K false); simpl; lia|].
  destruct (sg =? 45)%N; [apply (K true); simpl; lia|].
  destruct (sg =? 43)%N; apply (K false); simpl; lia.
Qed.

Lemma match_number_length s v r :
  match_number s = JOk (v, r) -> length r < length s.
Proof.
  unfold match_number.
  set (p := match s with
            | c :: r0 => if (c =? 45)%N then (true, r0) else (false, s)
            | [] => (false, s) end).
  assert (L : length (snd p) <= length s).
  { subst p. destruct s as [|c s]; simpl; [lia|]. destruct (c =? 45)%N; simpl; lia. }
  destruct p as [neg r0]. simpl in L.
  destruct (int_part r0) as [[ip r1]|] eqn:E1; [|discriminate].
  apply int_part_length in E1.
  destruct (frac_part r1) as [fp r2] eqn:E2. apply frac_part_length in E2.
  destruct (exp_part r2) as [ex r3] eqn:E3. apply exp_part_length in E3.
  intros H.
  assert (r = r3).
  { destruct fp, ex; try destruct (Nat.leb _ _); inversion H; reflexivity. }
  subst. lia.
Qed.


Ltac inv H := inversion H; subst; clear H.

Lemma scan_length f :
  (forall s v r, scan_once f s = JOk (v, r) -> length r < length s)
  /\ (forall s vs r, array_items f s = JOk (vs, r) -> length r < length s)
  /\ (forall s kvs r, object_items f s = JOk (kvs, r) -> length r < length s).
Proof.
  induction f as [|f (IHs & IHa & IHo)]; [repeat split; discriminate|].
  repeat split; intros s x r H.
  - cbn [scan_once] in H.
    destruct s as [|c s]; [discriminate|].
    destruct (c =? 34)%N.
    { destruct (scanstring s) as [[t rest]|] eqn:E; [|discriminate].
      inv H. apply scanstring_length in E. simpl; lia. }
    pose proof (skip_ws_length s) as W.
    destruct (c =? 123)%N.
    { destruct (skip_ws s) as [|c1 r1] eqn:E; [discriminate|].
      destruct (c1 =? 125)%N; [inv H; simpl in *; lia|].
      destruct (object_items f (c1 :: r1)) as [[kvs rest]| |] eqn:O;
        try discriminate.
      inv H. apply IHo in O. simpl in *; lia. }
    destruct (c =? 91)%N.
    { destruct (skip_ws s) as [|c1 r1] eqn:E; [discriminate|].
      destruct (c1 =? 93)%N; [inv H; simpl in *; lia|].
      destruct (array_items f (c1 :: r1)) as [[vs rest]| |] eqn:O;
        try discriminate.
      inv H. apply IHa in O. simpl in *; lia. }
    destruct (match_constant (c :: s)) as [[v' r']|] eqn:E.
    + inv H. now apply match_constant_length in E.
    + now apply match_number_length in H.
  - cbn [array_items] in H.
    destruct (scan_once f s) as [[v r0]| |] eqn:E; try discriminate.
    apply IHs in E. pose proof (skip_ws_length r0) as W.
    destruct (skip_ws r0) as [|c r1] eqn:E1; [discriminate|].
    destruct (c =? 93)%N; [inv H; simpl in *; lia|].
    destruct (c =? 44)%N; [|discriminate].
    pose proof (skip_ws_length r1) as W1.
    destruct (array_items f (skip_ws r1)) as [[vs rest]| |] eqn:A;
      try discriminate.
    inv H. apply IHa in A. simpl in *; lia.
  - cbn [object_items] in H.
    destruct s as [|q s]; [discriminate|].
    destruct (q =? 34)%N; [|discriminate].
    destruct (scanstring s) as [[k r1]|] eqn:E; [|discriminate].
    apply scanstring_length in E. pose proof (skip_ws_length r1) as W1.
    destruct (skip_ws r1) as [|c r2] eqn:E1; [discriminate|].
    destruct (c =? 58)%N; [|discriminate].
    pose proof (skip_ws_length r2) as W2.
    destruct (scan_once f (skip_ws r2)) as [[v r3]| |] eqn:V; try discriminate.
    apply IHs in V. pose proof (skip_ws_length r3) as W3.
    destruct (skip_ws r3) as [|c1 r4] eqn:E3; [discriminate|].
    destruct (c1 =? 125)%N; [inv H; simpl in *; lia|].
    destruct (c1 =? 44)%N; [|discriminate].
    pose proof (skip_ws_length r4) as W4.
    destruct (object_items f (skip_ws r4)) as [[kvs rest]| |] eqn:O;
      try discriminate.
    inv H. apply IHo in O. simpl in *; lia.
Qed.


Lemma match_number_fuel s : match_number s <> JFuel.
Proof.
  unfold match_number.
  destruct (match s with
            | c :: r => if (c =? 45)%N then (true, r) else (false, s)
            | [] => (false, s)
            end) as [neg r0].
  destruct (int_part r0) as [[ip r1]|]; [|discriminate].
  destruct (frac_part r1) as [fp r2]. destruct (exp_part r2) as [ex r3].
  destruct fp, ex; try destruct (Nat.leb _ _); discriminate.
Qed.

(** ** More fuel changes nothing *)

Lemma scan_mono f :
  (forall s f', f <= f' -> scan_once f s <> JFuel ->
                scan_once f' s = scan_once f s)
  /\ (forall s f', f <= f' -> array_items f s <> JFuel ->
                   array_items f' s = array_items f s)
  /\ (forall s f', f <= f' -> object_items f s <> JFuel ->
                   object_items f' s = object_items f s).
Proof.
  induction f as [|f (IHs & IHa & IHo)];
    [repeat split; intros s f' _ H; now contradiction H|].
  repeat split; intros s [|f'] L H; try lia; apply le_S_n in L.
  - cbn [scan_once] in *.
    destruct s as [|c s]; [reflexivity|].
    destruct (c =? 34)%N; [reflexivity|].
    destruct (c =? 123)%N.
    { destruct (skip_ws s) as [|c1 r1]; [reflexivity|].
      destruct (c1 =? 125)%N; [reflexivity|].
      rewrite (IHo _ _ L); [reflexivity|].
      intros C. rewrite C in H. now apply H. }
    destruct (c =? 91)%N; [|reflexivity].
    destruct (skip_ws s) as [|c1 r1]; [reflexivity|].
    destruct (c1 =? 93)%N; [reflexivity|].
    rewrite (IHa _ _ L); [reflexivity|].
    intros C. rewrite C in H. now apply H.
  - cbn [array_items] in *.
    rewrite (IHs _ _ L) by (intros C; rewrite C in H; now apply H).
    destruct (scan_once f s) as [[v r0]| |]; try reflexivity.
    destruct (skip_ws r0) as [|c r1]; [reflexivity|].
    destruct (c =? 93)%N; [reflexivity|].
    destruct (c =? 44)%N; [|reflexivity].
    rewrite (IHa _ _ L); [reflexivity|].
    intros C. rewrite C in H. now apply H.
  - cbn [object_items] in *.
    destruct s as [|q s]; [reflexivity|].
    destruct (q =? 34)%N; [|reflexivity].
    destruct (scanstring s) as [[k r1]|]; [|reflexivity].
    destruct (skip_ws r1) as [|c r2]; [reflexivity|].
    destruct (c =? 58)%N; [|reflexivity].
    rewrite (IHs _ _ L) by (intros C; rewrite C in H; now apply H).
    destruct (scan_once f (skip_ws r2)) as [[v r3]| |]; try reflexivity.
    destruct (skip_ws r3) as [|c1 r4]; [reflexivity|].
    destruct (c1 =? 125)%N; [reflexivity|].
    destruct (c1 =? 44)%N; [|reflexivity].
    rewrite (IHo _ _ L); [reflexivity|].
    intros C. rewrite C in H. now apply H.
Qed.

Lemma scan_once_mono f f' s x :
  f <= f' -> scan_once f s = JOk x -> scan_once f' s = JOk x.
Proof.
  intros L H. rewrite (proj1 (scan_mono f) s f' L); [exact H|].
  rewrite H. discriminate.
Qed.

(** ** Twice the length of the text is fuel enough *)

Lemma scan_fuel f :
  (forall s, 2 * length s + 1 <= f -> scan_once f s <> JFuel)
  /\ (forall s, 2 * length s + 2 <= f -> array_items f s <> JFuel)
  /\ (forall s, 2 * length s + 1 <= f -> object_items f s <> JFuel).
Proof.
  induction f as [|f (IHs & IHa & IHo)]; [repeat split; intros s L; lia|].
  repeat split; intros s L.
  - cbn [scan_once].
    destruct s as [|c s]; [discriminate|]. simpl in L.
    destruct (c =? 34)%N; [destruct (scanstring s) as [[? ?]|]; discriminate|].
    pose proof (skip_ws_length s) as W.
    destruct (c =? 123)%N.
    { destruct (skip_ws s) as [|c1 r1] eqn:E; [discriminate|].
      destruct (c1 =? 125)%N; [discriminate|].
      specialize (IHo (c1 :: r1) ltac:(lia)).
      destruct (object_items f (c1 :: r1)) as [[? ?]| |]; congruence. }
    destruct (c =? 91)%N.
    { destruct (skip_ws s) as [|c1 r1] eqn:E; [discriminate|].
      destruct (c1 =? 93)%N; [discriminate|].
      specialize (IHa (c1 :: r1) ltac:(lia)).
      destruct (array_items f (c1 :: r1)) as [[? ?]| |]; congruence. }
    destruct (match_constant (c :: s)) as [[? ?]|]; [discriminate|].
    apply match_number_fuel.
  - cbn [array_items].
    specialize (IHs s ltac:(lia)).
    destruct (scan_once f s) as [[v r0]| |] eqn:E; try congruence; try discriminate.
    apply (proj1 (scan_length f)) in E. pose proof (skip_ws_length r0) as W.
    destruct (skip_ws r0) as [|c r1] eqn:E1; [discriminate|].
    destruct (c =? 93)%N; [discriminate|].
    destruct (c =? 44)%N; [|discriminate].
    pose proof (skip_ws_length r1) as W1. simpl in W.
    specialize (IHa (skip_ws r1) ltac:(lia)).
    destruct (array_items f (skip_ws r1)) as [[? ?]| |]; congruence.
  - cbn [object_items].
    destruct s as [|q s]; [discriminate|]. simpl in L.
    destruct (q =? 34)%N; [|discriminate].
    destruct (scanstring s) as [[k r1]|] eqn:E; [|discriminate].
    apply scanstring_length in E. pose proof (skip_ws_length r1) as W1.
    destruct (skip_ws r1) as [|c r2] eqn:E1; [discriminate|].
    destruct (c =? 58)%N; [|discriminate].
    pose proof (skip_ws_length r2) as W2. simpl in W1.
    specialize (IHs (skip_ws r2) ltac:(lia)).
    destruct (scan_once f (skip_ws r2)) as [[v r3]| |] eqn:V;
      try congruence; try discriminate.
    apply (proj1 (scan_length f)) in V. pose proof (skip_ws_length r3) as W3.
    destruct (skip_ws r3) as [|c1 r4] eqn:E3; [discriminate|].
    destruct (c1 =? 125)%N; [discriminate|].
    destruct (c1 =? 44)%N; [|discriminate].
    pose proof (skip_ws_length r4) as W4. simpl in W3.
    specialize (IHo (skip_ws r4) ltac:(lia)).
    destruct (object_items f (skip_ws r4)) as [[? ?]| |]; congruence.
Qed.

(** [json_loads] always has fuel enough. *)
Theorem json_loads_fuel s : json_loads s <> JFuel.
Proof.
  unfold json_loads.
  pose proof (skip_ws_length s) as W.
  pose proof (proj1 (scan_fuel (2 * length s + 1)) (skip_ws s) ltac:(lia)) as F.
  destruct (scan_once _ (skip_ws s)) as [[v r]| |]; try congruence.
  destruct (skip_ws r); discriminate.
Qed.

(** With any fuel that is enough, [scan_once] gives what [json_loads]
    relies on. *)
Lemma scan_once_enough f s x :
  scan_once f s = JOk x -> scan_once (2 * length s + 1) s = JOk x.
Proof.
  intros H.
  destruct (Nat.le_gt_cases f (2 * length s + 1)) as [L|L].
  - now apply (scan_once_mono f).
  - pose proof (proj1 (scan_fuel (2 * length s + 1)) s (Nat.le_refl _)) as F.
    rewrite <- H. symmetry.
    apply (proj1 (scan_mono (2 * length s + 1)) s f); [lia | exact F].
Qed.

(** ** Text appended after a document *)

Lemma ws_not_special c :
  number_char c = false ->
  is_digit c = false /\ (c =? 45)%N = false /\ (c =? 43)%N = false
  /\ (c =? 46)%N = false /\ (c =? 101)%N = false /\ (c =? 69)%N = false.
Proof.
  unfold number_char. intros H.
  repeat match goal with
         | H : _ || _ = false |- _ => apply orb_false_elim in H; destruct H
         end.
  auto 10.
Qed.

Lemma ws_boundary c : json_ws c = true -> number_char c = false.
Proof.
  unfold json_ws. intros H.
  repeat match goal with
         | H : _ || _ = true |- _ => apply orb_prop in H; destruct H as [H|H]
         end; apply N.eqb_eq in H; subst; reflexivity.
Qed.

Lemma skip_ws_app r t c r' :
  skip_ws r = c :: r' -> skip_ws (r ++ t) = c :: r' ++ t.
Proof.
  induction r as [|x r IH]; simpl; [discriminate|].
  destruct (json_ws x); [exact IH|]. intros H; inv H. reflexivity.
Qed.

Lemma skip_ws_all ws s : forallb json_ws ws = true -> skip_ws (ws ++ s) = skip_ws s.
Proof.
  induction ws as [|c ws IH]; simpl; [reflexivity|].
  intros H. apply andb_prop in H. destruct H as [H1 H2]. now rewrite H1, IH.
Qed.

Lemma skip_ws_nil r : skip_ws r = [] -> forallb json_ws r = true.
Proof.
  induction r as [|c r IH]; simpl; [reflexivity|].
  destruct (json_ws c); [exact IH | discriminate].
Qed.

Lemma scan_units_app t s : forall us r,
  scan_units s = Some (us, r) -> scan_units (s ++ t) = Some (us, r ++ t).
Proof.
  induction s as [s IH] using list_length_ind.
  intros us rest H.
  destruct s as [|c r]; [discriminate|].
  cbn [scan_units] in H. cbn [scan_units app].
  destruct (c =? 34)%N; [inv H; reflexivity|].
  assert (K : forall x s', length s' < length (c :: r) ->
                cons_unit x (scan_units s') = Some (us, rest) ->
                cons_unit x (scan_units (s' ++ t)) = Some (us, rest ++ t)).
  { intros x s' L K. apply cons_unit_some in K. destruct K as (us' & K & ->).
    rewrite (IH s' L _ _ K). reflexivity. }
  destruct (c =? 92)%N.
  - destruct r as [|e r1]; [discriminate|]. cbn [app].
    destruct (e =? 117)%N.
    + destruct r1 as [|a [|b [|c1 [|d r2]]]]; try discriminate. cbn [app].
      destruct (hex4 a b c1 d) as [u|]; [|discriminate].
      apply K; [simpl; lia | exact H].
    + destruct (unescape e); [|discriminate].
      apply K; [simpl; lia | exact H].
  - destruct (c <? 32)%N; [discriminate|].
    apply K; [simpl; lia | exact H].
Qed.

Lemma scanstring_app t s k r :
  scanstring s = Some (k, r) -> scanstring (s ++ t) = Some (k, r ++ t).
Proof.
  unfold scanstring. destruct (scan_units s) as [[us r0]|] eqn:E; [|discriminate].
  intros H; inv H. now rewrite (scan_units_app t _ _ _ E).
Qed.

Lemma span_digits_app_r s t ds r :
  boundary t -> span_digits s = (ds, r) -> span_digits (s ++ t) = (ds, r ++ t).
Proof.
  intros B. revert ds r. induction s as [|c s IH]; intros ds r H.
  - simpl in H. inv H. destruct t as [|c t]; [reflexivity|].
    simpl in *. now rewrite (proj1 (ws_not_special _ B)).
  - simpl in *. destruct (is_digit c).
    + destruct (span_digits s) as [ds' r']. inv H.
      now rewrite (IH _ _ eq_refl).
    + now inv H.
Qed.

Lemma int_part_app s t ip r :
  boundary t -> int_part s = Some (ip, r) -> int_part (s ++ t) = Some (ip, r ++ t).
Proof.
  intros B. unfold int_part. destruct s as [|c s]; [discriminate|]. cbn [app].
  destruct (c =? 48)%N; [intros H; now inv H|].
  destruct (is_digit c); [|discriminate].
  destruct (span_digits s) as [ds r'] eqn:E.
  rewrite (span_digits_app_r _ _ _ _ B E). intros H; now inv H.
Qed.

Lemma frac_part_app s t fp r :
  boundary t -> frac_part s = (fp, r) -> frac_part (s ++ t) = (fp, r ++ t).
Proof.
  intros B. unfold frac_part.
  destruct s as [|p [|d s]]; cbn [app].
  - intros H; inv H. destruct t as [|p [|d t]]; try reflexivity.
    simpl in B. now rewrite (proj1 (proj2 (proj2 (proj2 (ws_not_special _ B))))).
  - intros H; inv H. destruct t as [|d t]; [reflexivity|].
    simpl in B. rewrite (proj1 (ws_not_special _ B)), andb_false_r. reflexivity.
  - destruct ((p =? 46)%N && is_digit d).
    + destruct (span_digits s) as [ds r'] eqn:E.
      rewrite (span_digits_app_r _ _ _ _ B E). intros H; now inv H.
    + intros H; now inv H.
Qed.

Lemma exp_part_app s t ex r :
  boundary t -> exp_part s = (ex, r) -> exp_part (s ++ t) = (ex, r ++ t).
Proof.
  intros B. unfold exp_part.
  destruct s as [|e s]; cbn [app].
  - intros H; inv H. destruct t as [|e t]; [reflexivity|]. simpl in B.
    destruct (ws_not_special _ B) as (_ & _ & _ & _ & E1 & E2).
    now rewrite E1, E2.
  - destruct ((e =? 101)%N || (e =? 69)%N); [|intros H; now inv H].
    assert (K : forall neg r1,
      (let '(ds, t0) := span_digits r1 in
       match ds with [] => (None, e :: s) | _ :: _ => (Some (neg, ds), t0) end)
      = (ex, r) ->
      (let '(ds, t0) := span_digits (r1 ++ t) in
       match ds with [] => (None, e :: s ++ t) | _ :: _ => (Some (neg, ds), t0) end)
      = (ex, r ++ t)).
    { intros neg r1. destruct (span_digits r1) as [ds t0] eqn:E.
      rewrite (span_digits_app_r _ _ _ _ B E).
      destruct ds; intros H; now inv H. }
    destruct s as [|sg s']; cbn [app].
    + intros H. simpl in H. inv H.
      destruct t as [|sg t]; [reflexivity|]. simpl in B.
      destruct (ws_not_special _ B) as (D & E1 & E2 & _).
      rewrite E1, E2. simpl. now rewrite D.
    + destruct (sg =? 45)%N; [apply K|].
      destruct (sg =? 43)%N; apply (K false).
Qed.

Lemma match_number_app s t x r :
  boundary t -> match_number s = JOk (x, r) ->
  match_number (s ++ t) = JOk (x, r ++ t).
Proof.
  intros B. unfold match_number.
  destruct s as [|c s].
  { cbn [int_part]. discriminate. }
  cbn [app].
  assert (K : forall neg r0,
    match int_part r0 with
    | Some (ip, r1) =>
        let '(fp, r2) := frac_part r1 in
        let '(ex, r3) := exp_part r2 in
        match fp, ex with
        | [], None =>
            if Nat.leb (length ip) int_max_str_digits
            then JOk (PInt (if neg then - digits_val ip else digits_val ip)%Z, r3)
            else JErr IntDigits
        | _, _ =>
            JOk (PFloat (of_decimal neg (digits_val (ip ++ fp))
                   (match ex with
                    | Some (eneg, ds) =>
                        let e := digits_val ds in if eneg then (- e)%Z else e
                    | None => 0%Z end - Z.of_nat (length fp))), r3)
        end
    | None => JErr DecodeError
    end = JOk (x, r) ->
    match int_part (r0 ++ t) with
    | Some (ip, r1) =>
        let '(fp, r2) := frac_part r1 in
        let '(ex, r3) := exp_part r2 in
        match fp, ex with
        | [], None =>
            if Nat.leb (length ip) int_max_str_digits
            then JOk (PInt (if neg then - digits_val ip else digits_val ip)%Z, r3)
            else JErr IntDigits
        | _, _ =>
            JOk (PFloat (of_decimal neg (digits_val (ip ++ fp))
                   (match ex with
                    | Some (eneg, ds) =>
                        let e := digits_val ds in if eneg then (- e)%Z else e
                    | None => 0%Z end - Z.of_nat (length fp))), r3)
        end
    | None => JErr DecodeError
    end = JOk (x, r ++ t)).
  { intros neg r0.
    destruct (int_part r0) as [[ip r1]|] eqn:E1; [|discriminate].
    rewrite (int_part_app _ _ _ _ B E1).
    destruct (frac_part r1) as [fp r2] eqn:E2.
    rewrite (frac_part_app _ _ _ _ B E2).
    destruct (exp_part r2) as [ex r3] eqn:E3.
    rewrite (exp_part_app _ _ _ _ B E3).
    destruct fp, ex; try destruct (Nat.leb _ _); intros H; now inv H. }
  destruct (c =? 45)%N; [apply K | apply (K false (c :: s))].
Qed.

Lemma strip_prefix_some p : forall s r, strip_prefix p s = Some r -> s = p ++ r.
Proof.
  induction p as [|a p IH]; intros [|b s] r H; simpl in *;
    try discriminate; try (now inv H).
  destruct (N.eqb_spec a b); [|discriminate]. subst. now rewrite (IH _ _ H).
Qed.

Lemma match_constant_app s t x r :
  match_constant s = Some (x, r) -> match_constant (s ++ t) = Some (x, r ++ t).
Proof.
  unfold match_constant. intros H.
  repeat match type of H with
         | match strip_prefix ?p s with _ => _ end = _ =>
             let E := fresh "E" in
             destruct (strip_prefix p s) eqn:E;
             [ apply strip_prefix_some in E; inv H; reflexivity | clear E ]
         end.
  discriminate.
Qed.

(** A number begins with a digit, or with a minus sign and a digit. *)
Lemma match_number_start s x :
  match_number s = JOk x ->
  exists c s', s = c :: s'
    /\ (is_digit c = true
        \/ (c = 45%N /\ exists d s'', s' = d :: s'' /\ is_digit d = true)).
Proof.
  unfold match_number. destruct s as [|c s]; [discriminate|].
  intros H. exists c, s. split; [reflexivity|].
  assert (D : forall r0 x, int_part r0 = Some x ->
                exists d r, r0 = d :: r /\ is_digit d = true).
  { intros [|d r] y; [discriminate|]. unfold int_part.
    destruct (N.eqb_spec d 48); [subst; eauto|].
    destruct (is_digit d) eqn:Dd; [eauto | discriminate]. }
  destruct (N.eqb_spec c 45).
  - right. split; [assumption|].
    destruct (int_part s) as [y|] eqn:E; [|discriminate].
    destruct (D _ _ E) as (d & r & -> & Dd). eauto.
  - left. destruct (int_part (c :: s)) as [y|] eqn:E; [|discriminate].
    destruct (D _ _ E) as (d & r & Eq & Dd). now inv Eq.
Qed.

Lemma digit_not_letter d :
  is_digit d = true ->
  (110 =? d)%N = false /\ (116 =? d)%N = false /\ (102 =? d)%N = false
  /\ (78 =? d)%N = false /\ (73 =? d)%N = false /\ (45 =? d)%N = false.
Proof.
  unfold is_digit. intros H. apply andb_prop in H. destruct H as [H1 H2].
  apply N.leb_le in H1, H2. repeat split; apply N.eqb_neq; lia.
Qed.

Lemma strip_prefix_first p c s :
  match p with a :: _ => (a =? c)%N = false | [] => False end ->
  strip_prefix p (c :: s) = None.
Proof. destruct p as [|a p]; [contradiction|]. simpl. now intros ->. Qed.

Lemma strip_prefix_second p c d s :
  match p with _ :: b :: _ => (b =? d)%N = false | _ => False end ->
  strip_prefix p (c :: d :: s) = None.
Proof.
  destruct p as [|a [|b p]]; try contradiction. simpl. intros ->.
  now destruct (a =? c)%N.
Qed.

Lemma match_constant_number s x t :
  match_number s = JOk x -> match_constant (s ++ t) = None.
Proof.
  intros H.
  destruct (match_number_start _ _ H)
    as (c & s' & -> & [D|(-> & d & s'' & -> & D)]);
    destruct (digit_not_letter _ D) as (A1 & A2 & A3 & A4 & A5 & A6);
    unfold match_constant; cbn [app].
  - now rewrite !strip_prefix_first by assumption.
  - rewrite !strip_prefix_first by reflexivity.
    now rewrite strip_prefix_second by exact A5.
Qed.

Lemma scan_app t f :
  boundary t ->
  (forall s v r, scan_once f s = JOk (v, r) ->
                 scan_once f (s ++ t) = JOk (v, r ++ t))
  /\ (forall s vs r, array_items f s = JOk (vs, r) ->
                     array_items f (s ++ t) = JOk (vs, r ++ t))
  /\ (forall s kvs r, object_items f s = JOk (kvs, r) ->
                      object_items f (s ++ t) = JOk (kvs, r ++ t)).
Proof.
  intros B.
  induction f as [|f (IHs & IHa & IHo)]; [repeat split; discriminate|].
  repeat split; intros s x r H.
  - cbn [scan_once] in H. cbn [scan_once].
    destruct s as [|c s]; [discriminate|]. cbn [app].
    destruct (c =? 34)%N.
    { destruct (scanstring s) as [[k rest]|] eqn:E; [|discriminate].
      rewrite (scanstring_app t _ _ _ E). now inv H. }
    destruct (c =? 123)%N.
    { destruct (skip_ws s) as [|c1 r1] eqn:E; [discriminate|].
      rewrite (skip_ws_app _ t _ _ E).
      destruct (c1 =? 125)%N; [now inv H|].
      destruct (object_items f (c1 :: r1)) as [[kvs rest]| |] eqn:O;
        try discriminate.
      change (c1 :: r1 ++ t) with ((c1 :: r1) ++ t).
      rewrite (IHo _ _ _ O). now inv H. }
    destruct (c =? 91)%N.
    { destruct (skip_ws s) as [|c1 r1] eqn:E; [discriminate|].
      rewrite (skip_ws_app _ t _ _ E).
      destruct (c1 =? 93)%N; [now inv H|].
      destruct (array_items f (c1 :: r1)) as [[vs rest]| |] eqn:O;
        try discriminate.
      change (c1 :: r1 ++ t) with ((c1 :: r1) ++ t).
      rewrite (IHa _ _ _ O). now inv H. }
    change (c :: s ++ t) with ((c :: s) ++ t).
    destruct (match_constant (c :: s)) as [[v' r']|] eqn:E.
    + inv H. now rewrite (match_constant_app _ t _ _ E).
    + rewrite (match_constant_number _ _ t H).
      now apply match_number_app.
  - cbn [array_items] in H. cbn [array_items].
    destruct (scan_once f s) as [[v r0]| |] eqn:E; try discriminate.
    rewrite (IHs _ _ _ E).
    destruct (skip_ws r0) as [|c r1] eqn:E1; [discriminate|].
    rewrite (skip_ws_app _ t _ _ E1).
    destruct (c =? 93)%N; [now inv H|].
    destruct (c =? 44)%N; [|discriminate].
    destruct (array_items f (skip_ws r1)) as [[vs rest]| |] eqn:A;
      try discriminate.
    pose proof (proj1 (proj2 (scan_length f)) _ _ _ A) as L.
    destruct (skip_ws r1) as [|c2 r2] eqn:E2; [simpl in L; lia|].
    rewrite (skip_ws_app _ t _ _ E2).
    change (c2 :: r2 ++ t) with ((c2 :: r2) ++ t).
    rewrite (IHa _ _ _ A). now inv H.
  - cbn [object_items] in H. cbn [object_items].
    destruct s as [|q s]; [discriminate|]. cbn [app].
    destruct (q =? 34)%N; [|discriminate].
    destruct (scanstring s) as [[k r1]|] eqn:E; [|discriminate].
    rewrite (scanstring_app t _ _ _ E).
    destruct (skip_ws r1) as [|c r2] eqn:E1; [discriminate|].
    rewrite (skip_ws_app _ t _ _ E1).
    destruct (c =? 58)%N; [|discriminate].
    destruct (scan_once f (skip_ws r2)) as [[v r3]| |] eqn:V; try discriminate.
    pose proof (proj1 (scan_length f) _ _ _ V) as L.
    destruct (skip_ws r2) as [|c2 r2'] eqn:E2; [simpl in L; lia|].
    rewrite (skip_ws_app _ t _ _ E2).
    change (c2 :: r2' ++ t) with ((c2 :: r2') ++ t).
    rewrite (IHs _ _ _ V).
    destruct (skip_ws r3) as [|c1 r4] eqn:E3; [discriminate|].
    rewrite (skip_ws_app _ t _ _ E3).
    destruct (c1 =? 125)%N; [now inv H|].
    destruct (c1 =? 44)%N; [|discriminate].
    destruct (object_items f (skip_ws r4)) as [[kvs rest]| |] eqn:O;
      try discriminate.
    pose proof (proj2 (proj2 (scan_length f)) _ _ _ O) as L4.
    destruct (skip_ws r4) as [|c4 r5] eqn:E4; [simpl in L4; lia|].
    rewrite (skip_ws_app _ t _ _ E4).
    change (c4 :: r5 ++ t) with ((c4 :: r5) ++ t).
    rewrite (IHo _ _ _ O). now inv H.
Qed.

(** White space around a document does not change what it denotes. *)
Theorem json_loads_ws ws1 ws2 s v :
  forallb json_ws ws1 = true -> forallb json_ws ws2 = true ->
  json_loads s = JOk v -> json_loads (ws1 ++ s ++ ws2) = JOk v.
Proof.
  intros W1 W2. unfold json_loads. rewrite skip_ws_all by exact W1.
  destruct (scan_once (2 * length s + 1) (skip_ws s)) as [[x r]| |] eqn:E;
    try discriminate.
  destruct (skip_ws r) eqn:R; [|discriminate]. intros H; inv H.
  pose proof (proj1 (scan_length _) _ _ _ E) as L.
  destruct (skip_ws s) as [|c s'] eqn:S; [simpl in L; lia|].
  rewrite (skip_ws_app _ ws2 _ _ S).
  assert (B : boundary ws2).
  { destruct ws2 as [|c2 ws2]; simpl in *; [exact I|].
    apply ws_boundary. now apply andb_prop in W2. }
  change (c :: s' ++ ws2) with ((c :: s') ++ ws2).
  apply (proj1 (scan_app _ _ B)) in E.
  assert (F : 2 * length s + 1 <= 2 * length (ws1 ++ s ++ ws2) + 1)
    by (rewrite !length_app; lia).
  rewrite (scan_once_mono _ _ _ _ F E).
  rewrite skip_ws_all by now apply skip_ws_nil.
  replace (skip_ws ws2) with (@nil char); [reflexivity|].
  symmetry. rewrite <- (app_nil_r ws2). rewrite skip_ws_all by exact W2. reflexivity.
Qed.

End JsonFacts.


(* ================================================================== *)
(** * Facts about [json.dumps] *)
(* ================================================================== *)

Module DumpsFacts.

Import StrFacts F64Facts JsonFacts.
Open Scope N_scope.

(** ** Strings *)

Lemma hex_val_digit n : n < 16 -> hex_val (hex_digit n) = Some n.
Proof.
  intros H.
  assert (T : forallb (fun k => match hex_val (hex_digit k) with
                                | Some m => m =? k
                                | None => false
                                end)
                (List.map N.of_nat (seq 0 16)) = true) by reflexivity.
  rewrite forallb_forall in T. specialize (T n).
  destruct (hex_val (hex_digit n)) as [m|].
  - f_equal. apply N.eqb_eq, T.
    rewrite <- (N2Nat.id n). apply in_map, in_seq. lia.
  - assert (false = true); [|discriminate].
    apply T. rewrite <- (N2Nat.id n). apply in_map, in_seq. lia.
Qed.

Lemma hex4_escape u :
  u < 65536 ->
  hex4 (hex_digit (u / 4096)) (hex_digit (u / 256 mod 16))
       (hex_digit (u / 16 mod 16)) (hex_digit (u mod 16)) = Some u.
Proof.
  intros H. unfold hex4.
  rewrite !hex_val_digit;
    try (apply N.mod_lt; discriminate);
    try (apply N.Div0.div_lt_upper_bound; lia).
  f_equal.
  pose proof (N.div_mod u 16 ltac:(discriminate)).
  pose proof (N.div_mod (u / 16) 16 ltac:(discriminate)).
  pose proof (N.div_mod (u / 16 / 16) 16 ltac:(discriminate)).
  rewrite !N.Div0.div_div in *. 
  change (16 * 16) with 256 in *. change (256 * 16) with 4096 in *.
  assert (u / 4096 mod 16 = u / 4096).
  { apply N.mod_small. apply N.Div0.div_lt_upper_bound. lia. }
  lia.
Qed.

Lemma scan_units_u_escape u s :
  u < 65536 -> scan_units (u_escape u ++ s) = cons_unit (Esc u) (scan_units s).
Proof.
  intros H. unfold u_escape. cbn [app scan_units].
  change (92 =? 34) with false. change (92 =? 92) with true.
  change (117 =? 117) with true. cbv iota.
  now rewrite hex4_escape.
Qed.

Lemma scan_units_escape_char c s :
  scan_units (escape_char c ++ s) = prepend (units_of_char c) (scan_units s).
Proof.
  unfold escape_char, units_of_char.
  destruct (N.eqb_spec c 34) as [->|N34].
  { cbn. now destruct (scan_units s) as [[? ?]|]. }
  destruct (N.eqb_spec c 92) as [->|N92].
  { cbn. now destruct (scan_units s) as [[? ?]|]. }
  destruct (N.eqb_spec c 10) as [->|N10].
  { cbn. now destruct (scan_units s) as [[? ?]|]. }
  destruct (N.eqb_spec c 13) as [->|N13].
  { cbn. now destruct (scan_units s) as [[? ?]|]. }
  destruct (N.eqb_spec c 9) as [->|N9].
  { cbn. now destruct (scan_units s) as [[? ?]|]. }
  destruct (N.eqb_spec c 8) as [->|N8].
  { cbn. now destruct (scan_units s) as [[? ?]|]. }
  destruct (N.eqb_spec c 12) as [->|N12].
  { cbn. now destruct (scan_units s) as [[? ?]|]. }
  cbn [orb].
  destruct ((32 <=? c) && (c <=? 126)) eqn:P.
  { apply andb_prop in P. destruct P as [P1 P2]. apply N.leb_le in P1.
    cbn [app scan_units].
    rewrite (proj2 (N.eqb_neq c 34) N34), (proj2 (N.eqb_neq c 92) N92).
    replace (c <? 32) with false by (symmetry; apply N.ltb_ge; exact P1).
    now destruct (scan_units s) as [[? ?]|]. }
  destruct (N.ltb_spec c 65536) as [L|L].
  { rewrite scan_units_u_escape by exact L.
    now destruct (scan_units s) as [[? ?]|]. }
  rewrite <- app_assoc.
  assert (M1 : (c - 65536) / 1024 mod 1024 < 1024) by (apply N.mod_lt; discriminate).
  assert (M2 : (c - 65536) mod 1024 < 1024) by (apply N.mod_lt; discriminate).
  rewrite scan_units_u_escape by lia.
  rewrite scan_units_u_escape by lia.
  now destruct (scan_units s) as [[? ?]|].
Qed.

Lemma scan_units_escape s rest :
  scan_units (flat_map escape_char s ++ 34 :: rest)
  = Some (flat_map units_of_char s, rest).
Proof.
  induction s as [|c s IH]; [reflexivity|].
  cbn [flat_map]. rewrite <- app_assoc, scan_units_escape_char, IH.
  reflexivity.
Qed.

Lemma join_units_esc u us :
  match us with
  | Esc u2 :: _ => is_high u && is_low u2 = false
  | _ => True
  end ->
  join_units (Esc u :: us) = u :: join_units us.
Proof.
  destruct us as [|[c|u2] r]; cbn [join_units]; intros H;
    try rewrite H; reflexivity.
Qed.

(** The first unit of the escape of a character is never the escape of
    a low surrogate, unless the character is one. *)
Lemma join_units_escape s :
  text s = true -> join_units (flat_map units_of_char s) = s.
Proof.
  unfold pystr, char in *.
  induction s as [|c s IH]; [reflexivity|].
  cbn [text flat_map]. intros T.
  apply andb_prop in T. destruct T as [T T3].
  apply andb_prop in T. destruct T as [T1 T2]. apply N.leb_le in T1.
  specialize (IH T3).
  unfold units_of_char at 1.
  destruct ((c =? 34) || (c =? 92) || (c =? 10) || (c =? 13) || (c =? 9)
            || (c =? 8) || (c =? 12) || (32 <=? c) && (c <=? 126)) eqn:P.
  { cbn [app join_units]. now rewrite IH. }
  destruct (N.ltb_spec c 65536) as [L|L].
  - cbn [app]. rewrite join_units_esc; [now rewrite IH|].
    destruct s as [|c2 s']; [exact I|].
    cbn [flat_map]. unfold units_of_char at 1.
    destruct ((c2 =? 34) || (c2 =? 92) || (c2 =? 10) || (c2 =? 13) || (c2 =? 9)
              || (c2 =? 8) || (c2 =? 12) || (32 <=? c2) && (c2 <=? 126));
      [exact I|].
    destruct (N.ltb_spec c2 65536) as [L2|L2]; cbn [app].
    + now apply negb_true_iff in T2.
    + apply andb_false_iff. right.
      unfold is_low. apply andb_false_iff. left. apply N.leb_gt.
      pose proof (N.mod_lt ((c2 - 65536) / 1024) 1024 ltac:(discriminate)).
      lia.
  - cbn [app join_units].
    assert (D : (c - 65536) / 1024 < 1024)
      by (apply N.Div0.div_lt_upper_bound; lia).
    rewrite (N.mod_small _ _ D).
    pose proof (N.mod_lt (c - 65536) 1024 ltac:(discriminate)) as M.
    pose proof (N.le_0_l ((c - 65536) / 1024)) as D0.
    pose proof (N.le_0_l ((c - 65536) mod 1024)) as M0.
    replace (is_high (55296 + (c - 65536) / 1024)) with true
      by (symmetry; unfold is_high; apply andb_true_intro; split; apply N.leb_le; lia).
    replace (is_low (56320 + (c - 65536) mod 1024)) with true
      by (symmetry; unfold is_low; apply andb_true_intro; split; apply N.leb_le; lia).
    cbn [andb]. rewrite IH. f_equal.
    unfold join_surrogates.
    pose proof (N.div_mod (c - 65536) 1024 ltac:(discriminate)). lia.
Qed.

Lemma scanstring_encode s rest :
  text s = true ->
  scanstring (flat_map escape_char s ++ 34 :: rest) = Some (s, rest).
Proof.
  intros T. unfold scanstring.
  now rewrite scan_units_escape, join_units_escape.
Qed.

(** ** Numbers *)

Lemma digits_fuel_head f : forall n acc,
  (0 <= n < 2 ^ Z.of_nat (S f))%Z ->
  exists d ds, digits_fuel (S f) n acc = d :: ds ++ acc
    /\ ((0 < n)%Z -> d <> 48).
Proof.
  induction f as [|f IH]; intros n acc H;
    assert (Hm : (0 <= n mod 10 < 10)%Z) by (apply Z.mod_pos_bound; lia);
    rewrite digits_fuel_S; destruct (Z.ltb_spec n 10) as [Hlt|Hge].
  1,3: exists (Z.to_N (48 + n mod 10)), []; split; [reflexivity|];
       intros P; rewrite Z.mod_small by lia; lia.
  - change (2 ^ Z.of_nat 1)%Z with 2%Z in H. lia.
  - destruct (IH (n / 10)%Z (Z.to_N (48 + n mod 10) :: acc)) as (d & ds & E & N0).
    { split; [apply Z.div_pos; lia|].
      rewrite (Nat2Z.inj_succ (S f)), Z.pow_succ_r in H by lia.
      apply Z.div_lt_upper_bound; lia. }
    exists d, (ds ++ [Z.to_N (48 + n mod 10)]). split.
    + rewrite E, <- app_assoc. reflexivity.
    + intros _. apply N0. apply Z.div_str_pos. lia.
Qed.

(** The digits of a number have no leading zero and are an integer
    part. *)
Lemma int_part_digits n rest :
  (0 <= n)%Z -> boundary rest ->
  int_part (digits n ++ rest) = Some (digits n, rest).
Proof.
  intros H B.
  destruct (digits_spec n H) as (A & NE & V).
  destruct (Z.eq_dec n 0) as [->|NZ]; [reflexivity|].
  unfold digits in *.
  destruct (digits_fuel_head (Z.to_nat (Z.log2 n)) n []) as (d & ds & E & N0).
  { split; [lia|]. rewrite Nat2Z.inj_succ, Z2Nat.id by apply Z.log2_nonneg.
    apply Z.log2_spec. lia. }
  rewrite app_nil_r in E. rewrite E in *. cbn [app int_part].
  rewrite (proj2 (N.eqb_neq d 48)) by (apply N0; lia).
  cbn [forallb] in A. apply andb_prop in A. destruct A as [A1 A2].
  rewrite A1, span_digits_app; [reflexivity | exact A2 |].
  destruct rest as [|c rest]; [exact I|]. now apply ws_not_special.
Qed.

Lemma frac_part_boundary rest : boundary rest -> frac_part rest = ([], rest).
Proof.
  destruct rest as [|p [|d r]]; try reflexivity. simpl. intros B.
  now rewrite (proj1 (proj2 (proj2 (proj2 (ws_not_special _ B))))).
Qed.

Lemma exp_part_boundary rest : boundary rest -> exp_part rest = (None, rest).
Proof.
  destruct rest as [|e r]; [reflexivity|]. simpl. intros B.
  destruct (ws_not_special _ B) as (_ & _ & _ & _ & E1 & E2).
  now rewrite E1, E2.
Qed.

Lemma match_number_encode_int z rest :
  (length (digits (Z.abs z)) <= int_max_str_digits)%nat ->
  boundary rest ->
  match_number (encode_int z ++ rest) = JOk (PInt z, rest).
Proof.
  intros Lim B. unfold match_number, encode_int.
  assert (P : (0 <= Z.abs z)%Z) by lia.
  pose proof (int_part_digits _ rest P B) as IP.
  destruct (digits_spec _ P) as (A & NE & V).
  destruct (Z.ltb_spec z 0) as [Neg|Pos].
  - cbn [app]. change (45 =? 45) with true. cbv iota.
    rewrite IP, (frac_part_boundary _ B), (exp_part_boundary _ B).
    rewrite (proj2 (Nat.leb_le _ _) Lim), V.
    repeat f_equal. lia.
  - cbn [app].
    destruct (digits (Z.abs z)) as [|d ds] eqn:E; [congruence|].
    cbn [app]. cbn [forallb] in A. apply andb_prop in A. destruct A as [A1 A2].
    rewrite (proj1 (digit_not_sign _ A1)).
    change (d :: ds ++ rest) with ((d :: ds) ++ rest).
    rewrite IP, (frac_part_boundary _ B), (exp_part_boundary _ B).
    rewrite (proj2 (Nat.leb_le _ _) Lim), V.
    repeat f_equal. lia.
Qed.

(** ** Values *)

Lemma pyval_nested_ind (P : pyval -> Prop) :
  P PNone -> (forall b, P (PBool b)) -> (forall z, P (PInt z)) ->
  (forall x, P (PFloat x)) -> (forall s, P (PStr s)) ->
  (forall l, Forall P l -> P (PList l)) ->
  (forall d, Forall (fun kv => P (snd kv)) d -> P (PDict d)) ->
  forall v, P v.
Proof.
  intros HN HB HI HF HS HL HD.
  fix IH 1.
  intros [| b | z | x | s | l | d];
    [apply HN | apply HB | apply HI | apply HF | apply HS | apply HL | apply HD].
  - induction l as [|v l IHl]; constructor; [apply IH | exact IHl].
  - induction d as [|[k v] d IHd]; constructor; [apply IH | exact IHd].
Qed.

(** A number is scanned as [match_number] scans it. *)
Lemma scan_once_number f s x :
  match_number s = JOk x -> scan_once (S f) s = JOk x.
Proof.
  intros H. pose proof (match_constant_number s x [] H) as C.
  rewrite app_nil_r in C.
  destruct (match_number_start _ _ H) as (c & s' & -> & D).
  cbn [scan_once].
  assert (E : (c =? 34) = false /\ (c =? 123) = false /\ (c =? 91) = false).
  { destruct D as [D|(-> & _)]; [|repeat split; reflexivity].
    unfold is_digit in D. apply andb_prop in D. destruct D as [D1 D2].
    apply N.leb_le in D1, D2. repeat split; apply N.eqb_neq; lia. }
  destruct E as (-> & -> & ->). now rewrite C, H.
Qed.

Lemma opens_number s x : match_number s = JOk x -> opens s.
Proof.
  intros H. destruct (match_number_start _ _ H) as (c & s' & -> & D).
  destruct D as [D|(-> & _)]; [|repeat split; reflexivity].
  unfold is_digit in D. apply andb_prop in D. destruct D as [D1 D2].
  apply N.leb_le in D1, D2. unfold opens, json_ws.
  repeat split; repeat (apply orb_false_intro); apply N.eqb_neq; lia.
Qed.

Lemma opens_app s t : opens s -> opens (s ++ t).
Proof. destruct s; [contradiction|]. exact (fun H => H). Qed.

Lemma skip_ws_opens s : opens s -> skip_ws s = s.
Proof.
  destruct s as [|c s]; [contradiction|]. intros (W & _). simpl. now rewrite W.
Qed.

Lemma opens_dumps v : serializable v -> opens (json_dumps v).
Proof.
  destruct v as [| [|] | z | x | s | l | d]; cbn [json_dumps serializable];
    intros S; try (repeat split; reflexivity).
  - eapply opens_number. rewrite <- (app_nil_r (encode_int z)).
    apply match_number_encode_int; [exact S | exact I].
  - destruct x as [[|]|[|]| |s m e]; try (repeat split; reflexivity).
    eapply opens_number. exact S.
Qed.

Lemma dict_set_fresh k v d :
  ~ In k (List.map fst d) -> dict_set k v d = d ++ [(k, v)].
Proof.
  induction d as [|[k' v'] d IH]; simpl; intros H; [reflexivity|].
  destruct (eqb_spec k k') as [->|N]; [exfalso; apply H; now left|].
  rewrite IH; [reflexivity|]. intros C. apply H. now right.
Qed.

Lemma dict_of_pairs_nodup d : NoDup (List.map fst d) -> dict_of_pairs d = d.
Proof.
  unfold dict_of_pairs.
  assert (G : forall acc,
             NoDup (List.map fst (acc ++ d)) ->
             fold_left (fun d0 kv => dict_set (fst kv) (snd kv) d0) d acc
             = acc ++ d).
  { induction d as [|[k v] d IH]; intros acc H; cbn [fold_left].
    - now rewrite app_nil_r.
    - cbn [fst snd]. rewrite dict_set_fresh.
      + rewrite IH; rewrite <- app_assoc; [reflexivity | exact H].
      + rewrite map_app in H. cbn [List.map fst] in H.
        apply NoDup_remove_2 in H. intros C. apply H.
        apply in_or_app. now left. }
  intros H. apply (G [] H).
Qed.

Lemma opens_join v l :
  serializable v ->
  opens (join (py ", ") (List.map json_dumps (v :: l))).
Proof.
  intros S. pose proof (opens_dumps v S) as O. cbn [List.map join].
  destruct (List.map json_dumps l); [exact O | now apply opens_app].
Qed.

Lemma array_items_dumps l :
  l <> [] ->
  Forall (fun v => serializable v /\ reads_back v) l ->
  forall rest, exists f0, forall f, (f0 <= f)%nat ->
    array_items f (join (py ", ") (List.map json_dumps l) ++ 93 :: rest)
    = JOk (l, rest).
Proof.
  induction l as [|v l IH]; [congruence|]. intros _ F rest.
  inversion F as [|? ? (Sv & Rv) Fl]; subst.
  destruct l as [|v2 l].
  - cbn [List.map join].
    destruct (Rv (93 :: rest) eq_refl) as (f0 & H0).
    exists (S f0). intros [|f] L; [lia|]. cbn [array_items].
    rewrite H0 by lia. reflexivity.
  - destruct (IH ltac:(discriminate) Fl rest) as (f1 & H1).
    change (join (py ", ") (List.map json_dumps (v :: v2 :: l)))
      with (json_dumps v ++ py ", "
              ++ join (py ", ") (List.map json_dumps (v2 :: l))).
    rewrite <- !app_assoc.
    inversion Fl as [|? ? (Sv2 & _) _]; subst.
    pose proof (opens_app _ (93 :: rest) (opens_join v2 l Sv2)) as O.
    remember (join (py ", ") (List.map json_dumps (v2 :: l)) ++ 93 :: rest)
      as tail eqn:Et.
    change (py ", " ++ tail) with (44 :: 32 :: tail).
    destruct (Rv (44 :: 32 :: tail) eq_refl) as (f0 & H0).
    exists (S (Nat.max f0 f1)). intros [|f] L; [lia|]. cbn [array_items].
    rewrite H0 by lia. cbn [skip_ws].
    change (json_ws 44) with false. change (json_ws 32) with true. cbv iota.
    change (44 =? 93) with false. change (44 =? 44) with true. cbv iota.
    cbn [skip_ws]. change (json_ws 32) with true. cbv iota.
    rewrite (skip_ws_opens _ O).
    rewrite H1 by lia. reflexivity.
Qed.

Lemma object_items_dumps d :
  d <> [] ->
  Forall (fun kv => text (fst kv) = true /\ serializable (snd kv)
                    /\ reads_back (snd kv)) d ->
  forall rest, exists f0, forall f, (f0 <= f)%nat ->
    object_items f
      (join (py ", ")
         (List.map (fun kv => encode_string (fst kv) ++ py ": "
                                ++ json_dumps (snd kv)) d) ++ 125 :: rest)
    = JOk (d, rest).
Proof.
  induction d as [|[k v] d IH]; [congruence|]. intros _ F rest.
  inversion F as [|? ? (Tk & Sv & Rv) Fd]; subst. cbn [fst snd] in *.
  pose proof (opens_dumps v Sv) as Ov.
  assert (Step : forall tail f0,
    (forall f, (f0 <= f)%nat ->
       scan_once f (json_dumps v ++ tail) = JOk (v, tail)) ->
    forall f, (f0 <= f)%nat ->
    object_items (S f)
      ((encode_string k ++ py ": " ++ json_dumps v) ++ tail)
    = match skip_ws tail with
      | c1 :: r4 =>
          if c1 =? 125 then JOk ([(k, v)], r4)
          else if c1 =? 44 then
            match object_items f (skip_ws r4) with
            | JOk (kvs, rest0) => JOk ((k, v) :: kvs, rest0)
            | JErr e => JErr e
            | JFuel => JFuel
            end
          else JErr DecodeError
      | [] => JErr DecodeError
      end).
  { intros tail f0 H0 f L. unfold encode_string.
    rewrite <- !app_assoc. cbn [app object_items].
    change (34 =? 34) with true. cbv iota.
    change (py ": " ++ json_dumps v ++ tail)
      with (58 :: 32 :: json_dumps v ++ tail).
    rewrite (scanstring_encode k _ Tk).
    cbn [skip_ws]. change (json_ws 58) with false. cbv iota.
    change (58 =? 58) with true. cbv iota.
    cbn [skip_ws]. change (json_ws 32) with true. cbv iota.
    rewrite (skip_ws_opens _ (opens_app _ tail Ov)).
    now rewrite H0 by exact L. }
  destruct d as [|kv2 d].
  - cbn [List.map join fst snd].
    destruct (Rv (125 :: rest) eq_refl) as (f0 & H0).
    exists (S f0). intros [|f] L; [lia|].
    rewrite (Step _ f0 H0) by lia. reflexivity.
  - destruct (IH ltac:(discriminate) Fd rest) as (f1 & H1).
    remember (kv2 :: d) as d2 eqn:Ed.
    assert (O2 : opens (join (py ", ")
                   (List.map (fun kv => encode_string (fst kv) ++ py ": "
                                          ++ json_dumps (snd kv)) d2)
                   ++ 125 :: rest)).
    { subst d2. apply opens_app. cbn [List.map join].
      destruct (List.map _ d); [|apply opens_app]; repeat split; reflexivity. }
    remember (join (py ", ")
                (List.map (fun kv => encode_string (fst kv) ++ py ": "
                                       ++ json_dumps (snd kv)) d2)
              ++ 125 :: rest) as tail eqn:Et.
    assert (J : join (py ", ")
                  (List.map (fun kv => encode_string (fst kv) ++ py ": "
                                         ++ json_dumps (snd kv)) ((k, v) :: d2))
                ++ 125 :: rest
                = (encode_string k ++ py ": " ++ json_dumps v)
                    ++ 44 :: 32 :: tail).
    { subst tail d2. cbn [List.map join fst snd].
      rewrite <- !app_assoc. reflexivity. }
    rewrite J.
    destruct (Rv (44 :: 32 :: tail) eq_refl) as (f0 & H0).
    exists (S (Nat.max f0 f1)). intros [|f] L; [lia|].
    rewrite (Step _ f0 H0) by lia.
    cbn [skip_ws]. change (json_ws 44) with false. cbv iota.
    change (44 =? 125) with false. change (44 =? 44) with true. cbv iota.
    cbn [skip_ws]. change (json_ws 32) with true. cbv iota.
    rewrite (skip_ws_opens _ O2).
    rewrite H1 by lia. reflexivity.
Qed.

Lemma serializable_list l :
  serializable (PList l) -> Forall serializable l.
Proof.
  cbn [serializable]. induction l as [|v l IH]; cbn [fold_right].
  - constructor.
  - intros (S & R). constructor; auto.
Qed.

Lemma serializable_dict d :
  serializable (PDict d) ->
  NoDup (List.map fst d)
  /\ Forall (fun kv => text (fst kv) = true /\ serializable (snd kv)) d.
Proof.
  cbn [serializable]. intros (N & F). split; [exact N|]. clear N.
  induction d as [|kv d IH]; cbn [fold_right] in *.
  - constructor.
  - destruct F as (T & S & R). constructor; auto.
Qed.

Lemma json_dumps_list l :
  json_dumps (PList l)
  = 91 :: join (py ", ") (List.map json_dumps l) ++ [93].
Proof. reflexivity. Qed.

Lemma json_dumps_dict d :
  json_dumps (PDict d)
  = 123 :: join (py ", ")
             (List.map (fun kv => encode_string (fst kv) ++ py ": "
                                    ++ json_dumps (snd kv)) d) ++ [125].
Proof. reflexivity. Qed.

Theorem dumps_reads_back v : serializable v -> reads_back v.
Proof.
  induction v as [| b | z | x | s | l IH | d IH] using pyval_nested_ind;
    intros Sz rest B.
  - exists 1%nat. intros [|f] L; [lia|]. reflexivity.
  - exists 1%nat. intros [|f] L; [lia|]. destruct b; reflexivity.
  - exists 1%nat. intros [|f] L; [lia|]. apply scan_once_number.
    now apply match_number_encode_int.
  - exists 1%nat. intros [|f] L; [lia|].
    destruct x as [s|s| |s m e].
    + apply scan_once_number. cbn [json_dumps encode_float repr].
      apply (match_number_app _ rest (PFloat (S754_zero s)) [] B).
      destruct s; reflexivity.
    + destruct s; reflexivity.
    + reflexivity.
    + apply scan_once_number.
      apply (match_number_app _ rest (PFloat (S754_finite s m e)) [] B).
      exact Sz.
  - exists 1%nat. intros [|f] L; [lia|].
    cbn [json_dumps]. unfold encode_string. rewrite <- !app_assoc.
    cbn [app scan_once]. change (34 =? 34) with true. cbv iota.
    now rewrite scanstring_encode.
  - apply serializable_list in Sz.
    assert (F : Forall (fun v => serializable v /\ reads_back v) l).
    { rewrite Forall_forall in *. intros v Hv. split; [now apply Sz|].
      apply IH; [exact Hv | now apply Sz]. }
    rewrite json_dumps_list. cbn [app]. rewrite <- !app_assoc. cbn [app].
    destruct l as [|v l].
    + exists 1%nat. intros [|f] L; [lia|]. reflexivity.
    + destruct (array_items_dumps (v :: l) ltac:(discriminate) F rest)
        as (f0 & H0).
      inversion F as [|? ? (Sv & _) _]; subst.
      pose proof (opens_app _ (93 :: rest) (opens_join v l Sv)) as O.
      exists (S f0). intros [|f] L; [lia|]. cbn [scan_once].
      change (91 =? 34) with false. change (91 =? 123) with false.
      change (91 =? 91) with true. cbv iota.
      repeat match goal with
             | |- context [skip_ws ?x] =>
                 replace (skip_ws x) with x
                   by (symmetry; apply skip_ws_opens; exact O)
             end.
      destruct (join _ _ ++ _) as [|c1 r1] eqn:E; [contradiction|].
      destruct O as (_ & -> & _). rewrite H0 by lia. reflexivity.
  - apply serializable_dict in Sz. destruct Sz as (N & Sz).
    assert (F : Forall (fun kv => text (fst kv) = true
                                  /\ serializable (snd kv)
                                  /\ reads_back (snd kv)) d).
    { rewrite Forall_forall in *. intros kv Hkv.
      destruct (Sz kv Hkv) as (T & Sv). repeat split; auto. }
    rewrite json_dumps_dict. cbn [app]. rewrite <- !app_assoc. cbn [app].
    destruct d as [|kv d].
    + exists 1%nat. intros [|f] L; [lia|]. reflexivity.
    + destruct (object_items_dumps (kv :: d) ltac:(discriminate) F rest)
        as (f0 & H0).
      assert (O : opens (join (py ", ")
                    (List.map (fun kv => encode_string (fst kv) ++ py ": "
                                           ++ json_dumps (snd kv)) (kv :: d))
                    ++ 125 :: rest)).
      { apply opens_app. cbn [List.map join].
        destruct (List.map _ d); [|apply opens_app]; repeat split; reflexivity. }
      exists (S f0). intros [|f] L; [lia|]. cbn [scan_once].
      change (123 =? 34) with false. change (123 =? 123) with true. cbv iota.
      repeat match goal with
             | |- context [skip_ws ?x] =>
                 replace (skip_ws x) with x
                   by (symmetry; apply skip_ws_opens; exact O)
             end.
      destruct (join _ _ ++ _) as [|c1 r1] eqn:E; [contradiction|].
      destruct O as (_ & _ & ->). rewrite H0 by lia.
      now rewrite dict_of_pairs_nodup.
Qed.

(** [json.loads(json.dumps(v)) == v]. *)
Theorem loads_dumps v : serializable v -> json_loads (json_dumps v) = JOk v.
Proof.
  intros S. unfold json_loads.
  rewrite (skip_ws_opens _ (opens_dumps v S)).
  destruct (dumps_reads_back v S [] I) as (f0 & H0).
  specialize (H0 f0 (Nat.le_refl _)). rewrite app_nil_r in H0.
  now rewrite (scan_once_enough _ _ _ H0).
Qed.
End DumpsFacts.


(* ================================================================== *)
(** * Facts about recorded computations *)
(* ================================================================== *)

Module LogFacts.

Open Scope log_scope.

Lemma grows_ret {E A} (a : A) : grows (ret (E:=E) a).
Proof. intros st. exists []. symmetry. apply app_nil_r. Qed.

Lemma grows_raise {E A} e : grows (raise (E:=E) (A:=A) e).
Proof. intros st. exists []. symmetry. apply app_nil_r. Qed.

Lemma grows_lift {E A} (r : result A) : grows (lift (E:=E) r).
Proof. intros st. exists []. symmetry. apply app_nil_r. Qed.

Lemma grows_emit {E} (o : E) : grows (emit o).
Proof. intros st. exists [o]. reflexivity. Qed.

Lemma grows_bind {E A B} (m : Log E A) (k : A -> Log E B) :
  grows m -> (forall a, grows (k a)) -> grows (bindM m k).
Proof.
  intros Hm Hk st. unfold bindM.
  destruct (Hm st) as (tr & Em). destruct (m st) as [[a|e] st1]; cbn in Em; subst.
  - destruct (Hk a (st ++ tr)) as (tr' & Ek). exists (tr ++ tr').
    now rewrite Ek, app_assoc.
  - now exists tr.
Qed.

Lemma grows_run {E A} (m : Log E A) st :
  grows m -> exists r tr, m st = (r, st ++ tr).
Proof.
  intros H. destruct (H st) as (tr & E'). destruct (m st) as [r st'].
  cbn in E'. subst. now exists r, tr.
Qed.


Lemma bindM_emit {E B} (o : E) (k : unit -> Log E B) st :
  bindM (emit o) k st = k tt (st ++ [o]).
Proof. reflexivity. Qed.

Lemma bindM_ok {E A B} (a : A) (k : A -> Log E B) st :
  bindM (lift (Ok a)) k st = k a st.
Proof. reflexivity. Qed.


Ltac grows_step :=
  first [ apply grows_emit | apply grows_lift | apply grows_ret
        | apply grows_raise | apply grows_bind; [|intros] ].


End LogFacts.

(* ================================================================== *)
(** * Facts about the invoice generator *)
(* ================================================================== *)

Module InvoiceFacts.
Import StrFacts F64Facts Invoice.
Open Scope Z_scope.

Lemma remove_char_id c s :
  forallb (fun x => negb (x =? c)%N) s = true -> remove_char c s = s.
Proof.
  unfold remove_char. induction s as [|x s IH]; simpl; [reflexivity|].
  intros H. apply andb_prop in H. destruct H as [H1 H2].
  now rewrite H1, IH.
Qed.

Lemma format_2f_no_dollar x :
  forallb (fun c => negb (c =? 36)%N) (format_2f x) = true.
Proof.
  destruct x as [s|s| |s m e]; try (destruct s; reflexivity); try reflexivity.
  unfold format_2f.
  destruct (fixed2_shape _ (cents_nonneg m e))
    as (ip & d1 & d2 & E & A & NE & D1 & D2 & V).
  assert (N1 : negb (d1 =? 36)%N = true).
  { apply negb_true_iff, (numeric_char_plain d1). unfold numeric_char. now rewrite D1. }
  assert (N2 : negb (d2 =? 36)%N = true).
  { apply negb_true_iff, (numeric_char_plain d2). unfold numeric_char. now rewrite D2. }
  rewrite E, !forallb_app. cbn [forallb]. rewrite N1, N2.
  replace (forallb (fun c => negb (c =? 36)%N) ip) with true.
  - destruct s; reflexivity.
  - symmetry. eapply forallb_imp; [|exact A]. intros c Hc. apply negb_true_iff.
    apply (numeric_char_plain c). unfold numeric_char. now rewrite Hc.
Qed.

(** A cell ["$" + format(x, ".2f")] is read back by
    [float(cell.replace("$", ""))] as [reread_2f x]. *)
Lemma row_total_priced nombre q c t :
  row_total [nombre; q; c; PStr (dollar (format_2f t))] = Ok (reread_2f t).
Proof.
  unfold row_total. cbn [nth_error py_replace_dollar bind].
  unfold dollar. change (py "$") with [36%N]. cbn [app remove_char filter].
  change (negb (36 =? 36)%N) with false. cbv iota.
  fold (remove_char 36%N (format_2f t)).
  rewrite remove_char_id by apply format_2f_no_dollar.
  cbn [py_float]. now rewrite float_of_str_format_2f.
Qed.

Lemma price_row_line product r :
  price_row product = Ok r ->
  exists l, r = row_of_line l
    /\ int_mul_float (l_cantidad l) (l_costo l) = Ok (l_total l).
Proof.
  unfold price_row, bind. intros H.
  repeat match type of H with
         | match ?x with _ => _ end = _ => destruct x eqn:?; try discriminate
         end.
  cbn [py_float py_int] in *.
  repeat match goal with
         | H : Ok _ = Ok _ |- _ => inversion H; subst; clear H
         end.
  eexists (Build_line _ _ _ _). split; [reflexivity|]. eassumption.
Qed.

Lemma price_rows_spec items : forall acc table,
  price_rows items acc = Ok table ->
  exists rows, table = acc ++ rows
    /\ Forall2 (fun p r => price_row p = Ok r) items rows.
Proof.
  induction items as [|p items IH]; intros acc table H; cbn in H.
  - inversion H; subst. exists []. split; [symmetry; apply app_nil_r | constructor].
  - unfold bind in H. destruct (price_row p) as [r|] eqn:E; [|discriminate].
    destruct (IH _ _ H) as (rows & -> & F).
    exists (r :: rows). rewrite <- app_assoc. split; [reflexivity|].
    constructor; auto.
Qed.

Lemma Forall2_length {A B} (R : A -> B -> Prop) l l' :
  Forall2 R l l' -> length l = length l'.
Proof. induction 1; simpl; congruence. Qed.

Lemma priced_lines items rows :
  Forall2 (fun p r => price_row p = Ok r) items rows ->
  exists lines, rows = List.map row_of_line lines
    /\ Forall (fun l => int_mul_float (l_cantidad l) (l_costo l)
                        = Ok (l_total l)) lines.
Proof.
  induction 1 as [|p r items rows E F (lines & -> & G)].
  - exists []. split; [reflexivity | constructor].
  - destruct (price_row_line _ _ E) as (l & -> & M).
    exists (l :: lines). split; [reflexivity | constructor; auto].
Qed.

Lemma row_total_line l : row_total (row_of_line l) = Ok (reread_2f (l_total l)).
Proof. apply row_total_priced. Qed.

Lemma row_totals_lines lines :
  row_totals (List.map row_of_line lines)
  = Ok (List.map (fun l => reread_2f (l_total l)) lines).
Proof.
  induction lines as [|l lines IH]; cbn [row_totals List.map].
  - reflexivity.
  - rewrite row_total_line. cbn [bind]. rewrite IH. reflexivity.
Qed.

(** The table is drawn and saved when it fits, and the error is raised
    before anything is saved when it does not. *)
Lemma run_priced e d items out table :
  logo_present e = true ->
  dict_get (py "productos") d = Some (PList items) ->
  price_rows items [header_row] = Ok table ->
  exists ops,
    run e (PDict d) out
    = (if 682 - Z.of_nat (length table) * row_height <? 50
       then Raise (ValueError TableTooLarge) else Ok tt, ops)
    /\ written ops = negb (682 - Z.of_nat (length table) * row_height <? 50)
    /\ (written ops = true -> table_of ops = Some table).
Proof.
  intros L G P.
  destruct (price_rows_spec _ _ _ P) as (rows & -> & F).
  destruct (priced_lines _ _ F) as (lines & -> & _).
  pose proof (row_totals_lines lines) as T.
  unfold run, generate_invoice_pdf, draw_image.
  unfold bindM, lift, emit, raise, ret, decode, py_get, letter.
  rewrite G, L. cbn [py_iter]. rewrite P.
  cbn [app length].
  destruct (682 - _ <? 50) eqn:C.
  - change (792 - 50 - 60) with 682. rewrite C.
    eexists; split; [reflexivity|]. split; [reflexivity|]. discriminate.
  - change (792 - 50 - 60) with 682. rewrite C.
    unfold subtotal_of, bind. cbn [tl]. rewrite T.
    eexists; split; [reflexivity|]. split; reflexivity.
Qed.

End InvoiceFacts.

(* ================================================================== *)
(** * Facts about [str.strip] and the fence *)
(* ================================================================== *)

Import Invoice.

Module StripFacts.

Lemma lstrip_prefix cs p s :
  forallb (fun c => mem c cs) p = true -> lstrip cs (p ++ s) = lstrip cs s.
Proof.
  induction p as [|c p IH]; simpl; [reflexivity|].
  intros H. apply andb_prop in H. destruct H as [H1 H2]. now rewrite H1, IH.
Qed.

Lemma lstrip_stop cs s :
  match s with [] => True | c :: _ => mem c cs = false end -> lstrip cs s = s.
Proof. destruct s as [|c s]; simpl; [reflexivity|]. now intros ->. Qed.

Lemma strip_between cs p q s :
  forallb (fun c => mem c cs) p = true ->
  forallb (fun c => mem c cs) q = true ->
  match s with [] => True | c :: _ => mem c cs = false end ->
  match rev s with [] => True | c :: _ => mem c cs = false end ->
  strip cs (p ++ s ++ q) = s.
Proof.
  intros P Q H T. unfold strip, rstrip.
  rewrite lstrip_prefix by exact P.
  destruct s as [|c s].
  - simpl. rewrite <- (app_nil_r q) at 1. rewrite lstrip_prefix by exact Q.
    reflexivity.
  - rewrite (lstrip_stop cs ((c :: s) ++ q)) by exact H.
    rewrite rev_app_distr, lstrip_prefix.
    + rewrite lstrip_stop by exact T. apply rev_involutive.
    + rewrite forallb_forall in *. intros x Hx. apply Q. now apply in_rev.
Qed.

Lemma ws_not_fence c : json_ws c = true -> mem c fence_chars = false.
Proof.
  unfold json_ws. intros H.
  repeat match goal with
         | H : _ || _ = true |- _ => apply orb_prop in H; destruct H as [H|H]
         end; apply N.eqb_eq in H; subst; reflexivity.
Qed.

(** A text between white space that begins and ends with a brace is
    what [strip] leaves of its fenced form. *)
Lemma strip_fenced ws1 ws2 body p q :
  forallb json_ws ws1 = true -> forallb json_ws ws2 = true ->
  forallb (fun c => mem c fence_chars) p = true ->
  forallb (fun c => mem c fence_chars) q = true ->
  strip fence_chars (p ++ (ws1 ++ (123%N :: body ++ [125%N]) ++ ws2) ++ q)
  = ws1 ++ (123%N :: body ++ [125%N]) ++ ws2.
Proof.
  intros W1 W2 P Q. apply strip_between; [exact P | exact Q | |].
  - destruct ws1 as [|c ws1]; [reflexivity|]. simpl in *.
    apply andb_prop in W1. now apply ws_not_fence.
  - destruct ws2 as [|c ws2 _] using rev_ind.
    + rewrite app_nil_r, rev_app_distr. cbn [rev app].
      rewrite rev_app_distr. reflexivity.
    + rewrite !app_assoc, rev_app_distr. cbn [rev app].
      apply ws_not_fence. rewrite forallb_app in W2.
      apply andb_prop in W2. destruct W2 as [_ W2]. cbn in W2.
      now rewrite andb_true_r in W2.
Qed.

End StripFacts.


(* ================================================================== *)
(** * The claims about pricing *)
(* ================================================================== *)

Module PricingClaims.

Import StrFacts F64Facts InvoiceFacts Invoice Examples.
Open Scope Z_scope.

(** C1.  The sample order of three priced items yields the line totals
    4000.00, 600.00 and 600.00 in that order, the subtotal 5200.00, the
    tax 832.00, which is the subtotal times 0.16, and the grand total
    6032.00, which is the subtotal plus the tax. *)
Theorem C1_end_to_end_example (e : env) (out : pystr) :
  logo_present e = true ->
  exists ops subtotal,
    run e (PDict (order sample_items)) out = (Ok tt, ops)
    /\ written ops = true
    /\ line_totals ops
       = Some [PStr (py "$4000.00"); PStr (py "$600.00"); PStr (py "$600.00")]
    /\ subtotal = of_Z 5200
    /\ strings_at 500 ops
       = [dollar (format_2f subtotal);
          dollar (format_2f (mul subtotal iva_rate));
          dollar (format_2f (add subtotal (mul subtotal iva_rate)))]
    /\ strings_at 500 ops = [py "$5200.00"; py "$832.00"; py "$6032.00"].
Proof.
  destruct e as [[|]]; cbn [logo_present]; intros H; [|discriminate].
  eexists. exists (of_Z 5200). split; [vm_compute; reflexivity|].
  vm_compute. repeat split.
Qed.

Lemma C1_end_to_end_example_witness :
  logo_present with_logo = true
  /\ exists ops subtotal,
    run with_logo (PDict (order sample_items)) (py "invoice.pdf") = (Ok tt, ops)
    /\ written ops = true
    /\ line_totals ops
       = Some [PStr (py "$4000.00"); PStr (py "$600.00"); PStr (py "$600.00")]
    /\ subtotal = of_Z 5200
    /\ strings_at 500 ops
       = [dollar (format_2f subtotal);
          dollar (format_2f (mul subtotal iva_rate));
          dollar (format_2f (add subtotal (mul subtotal iva_rate)))]
    /\ strings_at 500 ops = [py "$5200.00"; py "$832.00"; py "$6032.00"].
Proof.
  split; [reflexivity|].
  apply (C1_end_to_end_example with_logo (py "invoice.pdf")). reflexivity.
Defined.

(** C7.  An item whose quantity is the text [abc] and whose cost is the
    text [$-] does not raise: its row carries the quantity 1, the cost
    1.00 and the line total 1.00, and an order made of that item is
    drawn with that row and saved. *)
Theorem C7_defensive_coercion (e : env) (d : dict) (out : pystr) :
  logo_present e = true ->
  dict_get (py "cantidad") d = Some (PStr (py "abc")) ->
  dict_get (py "costo") d = Some (PStr (py "$-")) ->
  let nombre :=
    match dict_get (py "nombre") d with Some v => v | None => PStr [] end in
  let r := [nombre; PInt 1; PStr (py "$1.00"); PStr (py "$1.00")] in
  coerce_cantidad (PStr (py "abc")) = Ok 1
  /\ coerce_costo (remove_char 36%N (py "$-")) = Ok (of_Z 1)
  /\ price_row (PDict d) = Ok r
  /\ exists ops,
       run e (PDict (order [PDict d])) out = (Ok tt, ops)
       /\ written ops = true
       /\ table_of ops = Some [header_row; r].
Proof.
  intros L Q C nombre r.
  assert (P : price_row (PDict d) = Ok r).
  { unfold price_row, py_get. rewrite Q, C. reflexivity. }
  split; [reflexivity|]. split; [reflexivity|]. split; [exact P|].
  assert (T : price_rows [PDict d] [header_row] = Ok [header_row; r]).
  { cbn [price_rows]. rewrite P. reflexivity. }
  destruct (run_priced e (order [PDict d]) [PDict d] out _ L eq_refl T)
    as (ops & R & W & D).
  exists ops. cbn in R, W. auto.
Qed.

Lemma C7_defensive_coercion_witness :
  logo_present with_logo = true
  /\ dict_get (py "cantidad") garbage_item = Some (PStr (py "abc"))
  /\ dict_get (py "costo") garbage_item = Some (PStr (py "$-"))
  /\ price_row (PDict garbage_item)
     = Ok [PStr (py "X"); PInt 1; PStr (py "$1.00"); PStr (py "$1.00")]
  /\ exists ops,
       run with_logo (PDict (order [PDict garbage_item])) (py "invoice.pdf")
       = (Ok tt, ops)
       /\ written ops = true
       /\ table_of ops
          = Some [header_row;
                  [PStr (py "X"); PInt 1; PStr (py "$1.00"); PStr (py "$1.00")]].
Proof.
  split; [reflexivity|]. split; [reflexivity|]. split; [reflexivity|].
  exact (proj2 (proj2 (C7_defensive_coercion with_logo garbage_item
                         (py "invoice.pdf") eq_refl eq_refl eq_refl))).
Defined.

(** C8, as the claim states it, fails: an item without a quantity gets
    the quantity 0 and the line total 0.00, not the quantity 1 and a
    line total equal to its unit cost of 10.00. *)
Lemma C8_counterexample :
  dict_get (py "cantidad") no_quantity_item = None
  /\ price_row (PDict no_quantity_item)
     = Ok [PStr (py "X"); PInt 0; PStr (py "$10.00"); PStr (py "$0.00")]
  /\ price_row (PDict no_quantity_item)
     <> Ok [PStr (py "X"); PInt 1; PStr (py "$10.00"); PStr (py "$10.00")].
Proof.
  split; [reflexivity|]. split; [reflexivity|].
  vm_compute. discriminate.
Qed.

Lemma mul_zero_finite c :
  is_finite c = true -> mul (of_Z 0) c = S754_zero (is_negative c).
Proof. destruct c as [s|s| |s m e]; try discriminate; reflexivity. Qed.

(** C8, amended.  An item without a quantity, whose cost is a text or is
    absent too, gets the quantity 0 of the explicit default: its row
    shows 0, the coerced unit cost, and the product of 0.0 and that
    cost, which is displayed as 0.00 when the cost is finite and not
    negative. *)
Theorem C8_absent_quantity_is_zero (d : dict) (costo : pystr) :
  dict_get (py "cantidad") d = None ->
  match dict_get (py "costo") d with
  | Some v => v = PStr costo
  | None => costo = py "0"
  end ->
  let nombre :=
    match dict_get (py "nombre") d with Some v => v | None => PStr [] end in
  exists c,
    coerce_costo (remove_char 36%N costo) = Ok c
    /\ price_row (PDict d)
       = Ok [nombre; PInt 0; PStr (dollar (format_2f c));
             PStr (dollar (format_2f (mul (of_Z 0) c)))]
    /\ (is_finite c = true -> is_negative c = false ->
        dollar (format_2f (mul (of_Z 0) c)) = py "$0.00").
Proof.
  intros Q C nombre.
  assert (K : exists c, coerce_costo (remove_char 36%N costo) = Ok c).
  { unfold coerce_costo, py_float.
    destruct (float_of_str _); eexists; reflexivity. }
  destruct K as (c & K). exists c. split; [exact K|]. split.
  - unfold price_row, py_get. rewrite Q. cbn [bind].
    assert (G : py_replace_dollar
                  match dict_get (py "costo") d with
                  | Some v => v | None => PStr (py "0") end
                = Ok (remove_char 36%N costo)).
    { destruct (dict_get (py "costo") d); subst; reflexivity. }
    rewrite G. cbn [bind]. change (coerce_cantidad (PInt 0)) with (Ok 0 : result Z).
    cbn [bind]. rewrite K. reflexivity.
  - intros F N. rewrite mul_zero_finite, N by exact F. reflexivity.
Qed.

Lemma C8_absent_quantity_is_zero_witness :
  dict_get (py "cantidad") no_quantity_item = None
  /\ dict_get (py "costo") no_quantity_item = Some (PStr (py "$10.00"))
  /\ exists c,
    coerce_costo (remove_char 36%N (py "$10.00")) = Ok c
    /\ price_row (PDict no_quantity_item)
       = Ok [PStr (py "X"); PInt 0; PStr (dollar (format_2f c));
             PStr (dollar (format_2f (mul (of_Z 0) c)))]
    /\ (is_finite c = true -> is_negative c = false ->
        dollar (format_2f (mul (of_Z 0) c)) = py "$0.00").
Proof.
  split; [reflexivity|]. split; [reflexivity|].
  exact (C8_absent_quantity_is_zero no_quantity_item (py "$10.00")
           eq_refl eq_refl).
Defined.





End PricingClaims.

(* ================================================================== *)
(** * The claims about the orchestrator *)
(* ================================================================== *)

Module PipelineClaims.

Import LogFacts Invoice Pipeline Examples.
Open Scope log_scope.






(** An exception that leaves [process_emails] leaves [main] too: the
    loop has no handler. *)
Lemma main_propagates interval w rest st e st' :
  process_emails w st = (Raise e, st') ->
  main interval (w :: rest) st = (Raise e, st').
Proof. intros H. cbn [main]. unfold bindM at 1. now rewrite H. Qed.

(** C4, at the failing input.  The matching service answers with plain
    prose: the [ValueError] of the invoice generator leaves
    [process_emails], and it leaves [main], so that the cycle that
    should follow is never run. *)
Theorem C4_failure_ends_the_loop :
  exists trace,
    process_emails (cycle prose (Ok [])) [] = (Raise (ValueError BadJSON), trace)
    /\ In (Canvas []) trace
    /\ forall interval next,
         main interval [cycle prose (Ok []); next] []
         = (Raise (ValueError BadJSON), trace).
Proof.
  eexists. split; [vm_compute; reflexivity|]. split.
  - cbn. tauto.
  - intros interval next. apply main_propagates. vm_compute. reflexivity.
Qed.




End PipelineClaims.

(* ================================================================== *)
(** * The claims about decoding the response *)
(* ================================================================== *)

Module DecodingClaims.
Import StrFacts JsonFacts DumpsFacts StripFacts LogFacts Invoice Examples.
Open Scope Z_scope.

(** A document that begins with a brace denotes a dictionary. *)
Lemma json_loads_object body v :
  json_loads (123%N :: body) = JOk v -> exists d, v = PDict d.
Proof.
  unfold json_loads. cbn [skip_ws json_ws]. 
  change (json_ws 123%N) with false. cbv iota.
  rewrite Nat.add_1_r. cbn [scan_once].
  change (123 =? 34)%N with false. change (123 =? 123)%N with true. cbv iota.
  destruct (skip_ws body) as [|c1 r1]; [discriminate|].
  destruct (c1 =? 125)%N.
  - destruct (skip_ws r1); [|discriminate]. intros H; inv H. eauto.
  - destruct (object_items _ _) as [[kvs rest]| |]; try discriminate.
    destruct (skip_ws rest); [|discriminate]. intros H; inv H. eauto.
Qed.

(** C3, as the claim states it, fails: the response [{}] has no
    top-level key, so it does not conform to the schema, and it is not
    rejected: it is processed as an order with no items and the
    document is saved. *)
Lemma C3_counterexample :
  json_loads (strip fence_chars (py "{}")) = JOk (PDict [])
  /\ Spec.conforms (PDict []) = false
  /\ exists ops,
       run with_logo (PStr (py "{}")) (py "invoice.pdf") = (Ok tt, ops)
       /\ written ops = true
       /\ table_of ops = Some [header_row].
Proof.
  split; [vm_compute; reflexivity|]. split; [reflexivity|].
  eexists. split; [vm_compute; reflexivity|]. split; reflexivity.
Qed.

(** Once the input is decoded, the only [ValueError] left is that of a
    table that is too large, or of a number: the call never raises the
    invalid-JSON error with an empty canvas log. *)
Lemma run_decoded e mp out v :
  decode mp = Ok v ->
  run e mp out <> (Raise (ValueError BadJSON), []).
Proof.
  intros D. unfold run, generate_invoice_pdf.
  rewrite D. rewrite bindM_ok.
  destruct (py_get v (py "productos") (PList [])) as [productos|x] eqn:G.
  - rewrite bindM_ok, bindM_emit.
    match goal with
    | |- ?k ?st <> _ => assert (W : grows k)
    end.
    { unfold letter, draw_image. repeat grows_step.
      - destruct (logo_present e); grows_step.
      - destruct (_ <? _); repeat grows_step. }
    match goal with
    | |- ?k ?st <> _ => destruct (grows_run k st W) as (r & tr & R)
    end.
    rewrite R. cbn. discriminate.
  - unfold bindM, lift. 
    destruct v; cbn in G; try discriminate; inversion G; discriminate.
Qed.

(** C3, amended.  A response is rejected with the invalid-JSON
    [ValueError], before anything is drawn, exactly when what is left
    of it after the fence characters are stripped is not a JSON
    document; the plain-prose response is such a one.  A response that
    decodes to an object without the key [productos] is processed as an
    order with no items. *)
Theorem C3_invalid_json_is_rejected (e : env) (s out : pystr) :
  (json_loads (strip fence_chars s) = JErr DecodeError
   <-> run e (PStr s) out = (Raise (ValueError BadJSON), []))
  /\ run e (PStr prose) out = (Raise (ValueError BadJSON), [])
  /\ (forall d, json_loads (strip fence_chars s) = JOk (PDict d) ->
      dict_get (py "productos") d = None ->
      logo_present e = true ->
      exists ops, run e (PStr s) out = (Ok tt, ops)
        /\ written ops = true /\ table_of ops = Some [header_row]).
Proof.
  split; [|split].
  - split.
    + intros H. unfold run, generate_invoice_pdf, decode. rewrite H. reflexivity.
    + intros H.
      destruct (json_loads (strip fence_chars s)) as [v|[|]|] eqn:J.
      * exfalso. apply (run_decoded e (PStr s) out v); [|exact H].
        unfold decode. now rewrite J.
      * reflexivity.
      * unfold run, generate_invoice_pdf, decode in H. rewrite J in H.
        discriminate.
      * unfold run, generate_invoice_pdf, decode in H. rewrite J in H.
        discriminate.
  - vm_compute. reflexivity.
  - intros d J G L.
    unfold run, generate_invoice_pdf, decode, draw_image. rewrite J, L.
    rewrite bindM_ok. unfold py_get. rewrite G.
    eexists. split; [vm_compute; reflexivity|]. split; reflexivity.
Qed.

(** C9.  A valid JSON object text wrapped in the fence markers, with
    any white space, such as newlines, between the markers and the
    text, is stripped to the text with that white space, and the
    generator decodes it to the object the text denotes, as it decodes
    the bare text.  The object is what is then processed: the rows of
    the table drawn are those priced from its items, and the call has
    exactly the outcome of the call on the bare text and of the call on
    that object. *)
Theorem C9_fenced_response (e : env) (out body ws1 ws2 : pystr) (v : pyval) :
  let J := py "{" ++ body ++ py "}" in
  let fenced := py "```json" ++ (ws1 ++ J ++ ws2) ++ py "```" in
  forallb json_ws ws1 = true ->
  forallb json_ws ws2 = true ->
  json_loads J = JOk v ->
  strip fence_chars fenced = ws1 ++ J ++ ws2
  /\ json_loads (strip fence_chars fenced) = JOk v
  /\ decode (PStr fenced) = Ok v
  /\ decode (PStr J) = Ok v
  /\ (exists d,
        v = PDict d
        /\ forall items table,
             logo_present e = true ->
             dict_get (py "productos") d = Some (PList items) ->
             price_rows items [header_row] = Ok table ->
             (length items <= 30)%nat ->
             exists ops,
               run e (PStr fenced) out = (Ok tt, ops)
               /\ written ops = true
               /\ table_of ops = Some table)
  /\ run e (PStr fenced) out = run e (PStr J) out
  /\ run e (PStr fenced) out = run e v out.
Proof.
  intros J fenced W1 W2 L.
  assert (S1 : strip fence_chars fenced = ws1 ++ J ++ ws2)
    by (apply strip_fenced; auto).
  assert (S2 : strip fence_chars J = J).
  { pose proof (strip_fenced [] [] body [] [] eq_refl eq_refl eq_refl eq_refl) as S.
    cbn [app] in S. rewrite !app_nil_r in S. exact S. }
  assert (L1 : json_loads (strip fence_chars fenced) = JOk v)
    by (rewrite S1; now apply json_loads_ws).
  assert (D1 : decode (PStr fenced) = Ok v)
    by (unfold decode; now rewrite L1).
  assert (D2 : decode (PStr J) = Ok v)
    by (unfold decode; now rewrite S2, L).
  destruct (json_loads_object _ _ L) as (d & ->).
  assert (R1 : run e (PStr fenced) out = run e (PDict d) out).
  { unfold run, generate_invoice_pdf. now rewrite D1. }
  assert (R2 : run e (PStr J) out = run e (PDict d) out).
  { unfold run, generate_invoice_pdf. now rewrite D2. }
  split; [exact S1|]. split; [exact L1|]. split; [exact D1|].
  split; [exact D2|]. split; [|split; congruence].
  exists d. split; [reflexivity|].
  intros items table Lg G P Le.
  destruct (InvoiceFacts.run_priced e d items out table Lg G P)
    as (ops & R & W & T).
  destruct (InvoiceFacts.price_rows_spec _ _ _ P) as (rows & E & F).
  apply InvoiceFacts.Forall2_length in F.
  assert (C : (682 - Z.of_nat (length table) * row_height <? 50) = false).
  { apply Z.ltb_ge. subst table. cbn [app length]. unfold row_height. lia. }
  rewrite C in R, W. cbn [negb] in W.
  exists ops. rewrite R1. split; [exact R|]. split; [exact W | exact (T W)].
Qed.

Lemma C9_fenced_response_witness :
  let J := py "{" ++ laptop_body ++ py "}" in
  let fenced := py "```json" ++ (newline ++ J ++ newline) ++ py "```" in
  forallb json_ws newline = true
  /\ json_loads J
     = JOk (PDict (order [product "LAPTOP HP" "5" "$800.00"]))
  /\ strip fence_chars fenced = newline ++ J ++ newline
  /\ decode (PStr fenced)
     = Ok (PDict (order [product "LAPTOP HP" "5" "$800.00"]))
  /\ (exists ops,
        run with_logo (PStr fenced) (py "invoice.pdf") = (Ok tt, ops)
        /\ written ops = true
        /\ table_of ops
           = Some [header_row;
                   [PStr (py "LAPTOP HP"); PInt 5; PStr (py "$800.00");
                    PStr (py "$4000.00")]])
  /\ run with_logo (PStr fenced) (py "invoice.pdf")
     = run with_logo (PDict (order [product "LAPTOP HP" "5" "$800.00"]))
         (py "invoice.pdf").
Proof.
  intros J fenced.
  assert (L : json_loads J
              = JOk (PDict (order [product "LAPTOP HP" "5" "$800.00"])))
    by (vm_compute; reflexivity).
  split; [reflexivity|]. split; [exact L|].
  destruct (C9_fenced_response with_logo (py "invoice.pdf")
              laptop_body
              newline newline _ eq_refl eq_refl L)
    as (A & _ & D & _ & (d & Ed & T) & _ & B).
  split; [exact A|]. split; [exact D|]. split; [|exact B].
  injection Ed as <-.
  apply (T [product "LAPTOP HP" "5" "$800.00"]
           [header_row;
            [PStr (py "LAPTOP HP"); PInt 5; PStr (py "$800.00");
             PStr (py "$4000.00")]]).
  - reflexivity.
  - reflexivity.
  - vm_compute. reflexivity.
  - cbn. lia.
Defined.


(** C10, as the claim states it, fails: in the name of this order a
    high surrogate is followed by a low surrogate; the serialisation
    escapes the two code units, the decoder reads the two escapes as one
    character, and the row drawn from the string carries another name
    than the row drawn from the dictionary. *)
Lemma C10_counterexample :
  json_loads (strip fence_chars (json_dumps (PDict surrogate_order)))
  = JOk (PDict (order [PDict [(py "nombre", PStr [128512%N]);
                              (py "cantidad", PStr (py "1"));
                              (py "costo", PStr (py "1"))]]))
  /\ run with_logo (PStr (json_dumps (PDict surrogate_order)))
       (py "invoice.pdf")
     <> run with_logo (PDict surrogate_order) (py "invoice.pdf").
Proof.
  split; [vm_compute; reflexivity|].
  intros H. vm_compute in H. discriminate H.
Qed.

(** The text of a dictionary is what [strip] leaves of it. *)
Lemma strip_dumps_dict d :
  strip fence_chars (json_dumps (PDict d)) = json_dumps (PDict d).
Proof.
  rewrite json_dumps_dict.
  pose proof (strip_fenced [] []
                (join (py ", ")
                   (List.map (fun kv => encode_string (fst kv) ++ py ": "
                                          ++ json_dumps (snd kv)) d))
                [] [] eq_refl eq_refl eq_refl eq_refl) as S.
  cbn [app] in S. rewrite !app_nil_r in S. exact S.
Qed.

(** C10, amended.  For every dictionary that [json.dumps] serialises to
    a text denoting it (distinct keys, strings without a high surrogate
    followed at once by a low one, integers within the digit limit,
    floats read back from their [repr]), the call on the serialisation
    has exactly the outcome of the call on the dictionary: the text is
    left as it is by the stripping of the fence characters and decodes
    to the dictionary. *)
Theorem C10_string_path_equals_dict_path (e : env) (d : dict) (out : pystr) :
  serializable (PDict d) ->
  strip fence_chars (json_dumps (PDict d)) = json_dumps (PDict d)
  /\ json_loads (json_dumps (PDict d)) = JOk (PDict d)
  /\ run e (PStr (json_dumps (PDict d))) out = run e (PDict d) out.
Proof.
  intros S. pose proof (loads_dumps _ S) as L.
  pose proof (strip_dumps_dict d) as T.
  repeat split; auto.
  unfold run, generate_invoice_pdf, decode. now rewrite T, L.
Qed.

Ltac distinct_keys :=
  repeat (constructor; [cbn; intuition discriminate|]); constructor.

Lemma C10_string_path_equals_dict_path_witness :
  serializable (PDict mixed_order)
  /\ json_loads (json_dumps (PDict mixed_order)) = JOk (PDict mixed_order)
  /\ run with_logo (PStr (json_dumps (PDict mixed_order))) (py "invoice.pdf")
     = run with_logo (PDict mixed_order) (py "invoice.pdf").
Proof.
  assert (S : serializable (PDict mixed_order)).
  { cbn [serializable mixed_order order fold_right List.map fst snd].
    repeat split; try reflexivity; try distinct_keys.
    all: vm_compute; try reflexivity; try lia. }
  split; [exact S|].
  exact (proj2 (C10_string_path_equals_dict_path with_logo mixed_order
                  (py "invoice.pdf") S)).
Defined.

End DecodingClaims.

(* ================================================================== *)
(** * Further properties of the invoice generator *)
(* ================================================================== *)

Module InvoiceProps.

Import StrFacts F64Facts LogFacts InvoiceFacts Invoice Page Examples.
Open Scope Z_scope.

(** What a call that returns has done. *)
Lemma run_ok_inv e mp out ops :
  run e mp out = (Ok tt, ops) ->
  exists v productos items table subtotal,
    decode mp = Ok v
    /\ py_get v (py "productos") (PList []) = Ok productos
    /\ logo_present e = true
    /\ py_iter productos = Ok items
    /\ price_rows items [header_row] = Ok table
    /\ 50 <= 682 - Z.of_nat (length table) * row_height
    /\ subtotal_of table = Ok subtotal
    /\ written ops = true
    /\ table_of ops = Some table
    /\ table_at ops = Some (50, 382)
    /\ strings_at 500 ops
       = [dollar (format_2f subtotal);
          dollar (format_2f (mul subtotal iva_rate));
          dollar (format_2f (add subtotal (mul subtotal iva_rate)))]
    /\ ys_of (py "Subtotal:") ops
       = [362 - Z.of_nat (length table) * row_height]
    /\ ys_of (py "IVA:") ops
       = [342 - Z.of_nat (length table) * row_height]
    /\ ys_of (py "Total:") ops
       = [322 - Z.of_nat (length table) * row_height].
Proof.
  unfold run, generate_invoice_pdf, draw_image, letter.
  unfold bindM, lift, emit, raise, ret.
  destruct (decode mp) as [v|x] eqn:D; [|discriminate].
  destruct (py_get v _ _) as [productos|x] eqn:G; [|discriminate].
  destruct (logo_present e) eqn:L; [|discriminate].
  destruct (py_iter productos) as [items|x] eqn:I; [|discriminate].
  destruct (price_rows items _) as [table|x] eqn:P; [|discriminate].
  change (792 - 50 - 60) with 682.
  destruct (682 - _ <? 50) eqn:C; [discriminate|].
  destruct (subtotal_of table) as [subtotal|x] eqn:S; [|discriminate].
  intros H. apply (f_equal snd) in H. cbv beta iota delta [snd] in H.
  subst ops.
  exists v, productos, items, table, subtotal.
  apply Z.ltb_ge in C.
  repeat (split; [first [assumption | reflexivity]|]).
  repeat split;
    cbv - [Z.sub Z.add Z.mul Z.of_nat length row_height];
    apply (f_equal (fun y => [y])); lia.
Qed.

(** A call that raises has saved nothing. *)
Lemma run_raise_unsaved e mp out x ops :
  run e mp out = (Raise x, ops) -> written ops = false.
Proof.
  unfold run, generate_invoice_pdf, draw_image, letter.
  unfold bindM, lift, emit, raise, ret.
  destruct (decode mp) as [v|y]; [|now intros [= _ <-]].
  destruct (py_get v _ _) as [productos|y]; [|now intros [= _ <-]].
  destruct (logo_present e); [|now intros [= _ <-]].
  destruct (py_iter productos) as [items|y]; [|now intros [= _ <-]].
  destruct (price_rows items _) as [table|y]; [|now intros [= _ <-]].
  destruct (_ <? 50); [now intros [= _ <-]|].
  destruct (subtotal_of table) as [subtotal|y]; [discriminate|].
  now intros [= _ <-].
Qed.

(** X1.  The document is saved exactly when the call returns: whatever the
    input and whatever exception ends the call, no partial document is
    left by it. *)
Theorem saved_iff_returned (e : env) (mp : pyval) (out : pystr) :
  written (snd (run e mp out)) = true <-> fst (run e mp out) = Ok tt.
Proof.
  destruct (run e mp out) as [[[]|x] ops] eqn:R; cbn [fst snd].
  - destruct (run_ok_inv _ _ _ _ R) as (v & p & i & t & s & H).
    split; [reflexivity|]. intros _. apply H.
  - rewrite (run_raise_unsaved _ _ _ _ _ R). split; discriminate.
Qed.

(** X2.  An input that is not a dictionary, or a response that decodes to
    something other than an object (an array, a number, a string, a
    constant), ends the call with [AttributeError], not [ValueError],
    before the canvas is created. *)
Theorem not_an_object_is_an_attribute_error (e : env) (mp v : pyval)
    (out : pystr) :
  decode mp = Ok v ->
  (forall d, v <> PDict d) ->
  run e mp out = (Raise AttributeError, []).
Proof.
  intros D N. unfold run, generate_invoice_pdf. rewrite D, bindM_ok.
  destruct v; try reflexivity. now destruct (N d).
Qed.

Lemma not_an_object_is_an_attribute_error_witness :
  decode (PStr (py "[1, 2]")) = Ok (PList [PInt 1; PInt 2])
  /\ run with_logo (PStr (py "[1, 2]")) (py "invoice.pdf")
     = (Raise AttributeError, []).
Proof.
  split; [vm_compute; reflexivity|].
  apply (not_an_object_is_an_attribute_error with_logo (PStr (py "[1, 2]"))
           (PList [PInt 1; PInt 2]) (py "invoice.pdf")).
  - vm_compute; reflexivity.
  - discriminate.
Defined.

(** X3.  Without the logo file every call on an object ends with the error
    of [drawImage], with the canvas created and nothing drawn: no line
    is priced, and the size of the table is not looked at. *)
Theorem missing_logo_fails_first (e : env) (mp : pyval) (d : dict)
    (out : pystr) :
  logo_present e = false ->
  decode mp = Ok (PDict d) ->
  run e mp out = (Raise OSError, [NewCanvas out]).
Proof.
  intros L D. unfold run, generate_invoice_pdf, draw_image.
  rewrite D, L. reflexivity.
Qed.

Lemma missing_logo_fails_first_witness :
  run {| logo_present := false |} (PDict (order (single_line_items 100)))
    (py "invoice.pdf")
  = (Raise OSError, [NewCanvas (py "invoice.pdf")]).
Proof.
  apply (missing_logo_fails_first {| logo_present := false |}
           (PDict (order (single_line_items 100)))
           (order (single_line_items 100)) (py "invoice.pdf"));
    reflexivity.
Defined.

(** X4.  A document that is saved holds a table of at most 30 product lines
    under the header, put at (50, 382); the three totals are written
    20 points apart below a height that falls by 20 points a line, so
    that from 16 lines on the grand total is written at a negative
    height, below the bottom edge of the page. *)
Theorem totals_heights (e : env) (mp : pyval) (out : pystr)
    (ops : list op) (table : list row) :
  run e mp out = (Ok tt, ops) ->
  table_of ops = Some table ->
  let n := Z.of_nat (length table) - 1 in
  0 <= n <= 30
  /\ hd_error table = Some header_row
  /\ table_at ops = Some (50, 382)
  /\ ys_of (py "Subtotal:") ops = [342 - 20 * n]
  /\ ys_of (py "IVA:") ops = [322 - 20 * n]
  /\ ys_of (py "Total:") ops = [302 - 20 * n]
  /\ (16 <= n -> 302 - 20 * n < 0).
Proof.
  intros R T n.
  destruct (run_ok_inv _ _ _ _ R)
    as (v & p & items & table' & s & _ & _ & _ & _ & P & C & _ & _ & T'
        & A & _ & Y1 & Y2 & Y3).
  rewrite T in T'. injection T' as <-.
  destruct (price_rows_spec _ _ _ P) as (rows & E & F).
  unfold row_height in *. subst n.
  rewrite Y1, Y2, Y3. subst table. cbn [app length hd_error] in *.
  split; [lia|]. split; [reflexivity|]. split; [assumption|].
  split; [apply (f_equal (fun y => [y])); lia|].
  split; [apply (f_equal (fun y => [y])); lia|].
  split; [apply (f_equal (fun y => [y])); lia | lia].
Qed.

Lemma totals_heights_witness :
  exists ops table,
    run with_logo (PDict (order (single_line_items 16))) (py "invoice.pdf")
    = (Ok tt, ops)
    /\ table_of ops = Some table
    /\ Z.of_nat (length table) - 1 = 16
    /\ ys_of (py "Total:") ops = [-18].
Proof.
  pose (r := run with_logo (PDict (order (single_line_items 16)))
               (py "invoice.pdf")).
  assert (R : r = (Ok tt, snd r)) by (vm_compute; reflexivity).
  assert (T : exists table, table_of (snd r) = Some table)
    by (eexists; vm_compute; reflexivity).
  destruct T as (table & T).
  assert (N : Z.of_nat (length table) - 1 = 16).
  { assert (L : option_map (@length row) (table_of (snd r)) = Some 17%nat)
      by (vm_compute; reflexivity).
    rewrite T in L. injection L as ->. reflexivity. }
  exists (snd r), table. split; [exact R|]. split; [exact T|].
  split; [exact N|].
  destruct (totals_heights with_logo (PDict (order (single_line_items 16)))
              (py "invoice.pdf") (snd r) table R T)
    as (_ & _ & _ & _ & _ & Y & _).
  rewrite N in Y. exact Y.
Defined.

(** X5.  An order without lines is not refused: when the value under
    [productos] is absent or is an empty list, an empty text or an empty
    object, the document is saved with the header as its only row and
    with [$0.00] as subtotal, tax and grand total. *)
Theorem empty_order_is_invoiced (e : env) (mp v productos : pyval)
    (out : pystr) :
  logo_present e = true ->
  decode mp = Ok v ->
  py_get v (py "productos") (PList []) = Ok productos ->
  py_iter productos = Ok [] ->
  exists ops,
    run e mp out = (Ok tt, ops)
    /\ written ops = true
    /\ table_of ops = Some [header_row]
    /\ strings_at 500 ops = [py "$0.00"; py "$0.00"; py "$0.00"].
Proof.
  intros L D G I. unfold run, generate_invoice_pdf, draw_image.
  rewrite D, bindM_ok, G, bindM_ok, L.
  unfold bindM, emit, lift, letter. rewrite I.
  eexists. split; [vm_compute; reflexivity|].
  split; [reflexivity|]. split; reflexivity.
Qed.

Lemma empty_order_is_invoiced_witness :
  exists ops,
    run with_logo (PStr (py "{}")) (py "invoice.pdf") = (Ok tt, ops)
    /\ written ops = true
    /\ table_of ops = Some [header_row]
    /\ strings_at 500 ops = [py "$0.00"; py "$0.00"; py "$0.00"].
Proof.
  apply (empty_order_is_invoiced with_logo (PStr (py "{}")) (PDict [])
           (PList []) (py "invoice.pdf")).
  - reflexivity.
  - vm_compute. reflexivity.
  - reflexivity.
  - reflexivity.
Defined.

End InvoiceProps.

(* ================================================================== *)
(** * The claim about the overflow of the page *)
(* ================================================================== *)

Module LayoutClaims.

Import InvoiceFacts InvoiceProps Invoice Page Examples.
Open Scope Z_scope.

(** C2.  The size check does not do what the overflow policy asks.
    Once the rows of a product list are priced, the call raises the
    table-too-large error, with nothing saved, only for more than 30
    items; for up to 30 items the table is drawn and the document
    saved, with the three totals written 20 points lower for every
    line.  From 13 items on the grand total is written below the
    bottom margin of 50 points that the check compares with, and from
    16 items on below the bottom edge of the page, and the document is
    saved all the same. *)
Theorem C2_overflow_is_not_detected (e : env) (d : dict)
    (items : list pyval) (out : pystr) (table : list row) :
  logo_present e = true ->
  dict_get (py "productos") d = Some (PList items) ->
  price_rows items [header_row] = Ok table ->
  let n := Z.of_nat (length items) in
  exists ops,
    (30 < n ->
       run e (PDict d) out = (Raise (ValueError TableTooLarge), ops)
       /\ written ops = false)
    /\ (n <= 30 ->
       run e (PDict d) out = (Ok tt, ops)
       /\ written ops = true /\ table_of ops = Some table
       /\ table_at ops = Some (50, 382)
       /\ ys_of (py "Subtotal:") ops = [342 - 20 * n]
       /\ ys_of (py "IVA:") ops = [322 - 20 * n]
       /\ ys_of (py "Total:") ops = [302 - 20 * n])
    /\ (13 <= n <= 30 ->
       written ops = true
       /\ exists y, ys_of (py "Total:") ops = [y] /\ y < 50)
    /\ (16 <= n <= 30 ->
       written ops = true
       /\ exists y, ys_of (py "Total:") ops = [y] /\ y < 0).
Proof.
  intros L G P n.
  destruct (run_priced e d items out table L G P) as (ops & R & W & T).
  exists ops.
  destruct (price_rows_spec _ _ _ P) as (rows & E & F).
  apply Forall2_length in F.
  assert (Len : Z.of_nat (length table) = n + 1).
  { subst table n. cbn [app length]. lia. }
  unfold row_height in R, W. rewrite Len in R, W.
  destruct (Z.ltb_spec (682 - (n + 1) * 20) 50) as [C|C]; cbn [negb] in W.
  - split; [auto|]. repeat split; intros; lia.
  - assert (S : run e (PDict d) out = (Ok tt, ops)
                /\ written ops = true /\ table_of ops = Some table
                /\ table_at ops = Some (50, 382)
                /\ ys_of (py "Subtotal:") ops = [342 - 20 * n]
                /\ ys_of (py "IVA:") ops = [322 - 20 * n]
                /\ ys_of (py "Total:") ops = [302 - 20 * n]).
    { destruct (run_ok_inv _ _ _ _ R)
        as (v & p & items' & table' & s & _ & _ & _ & _ & _ & _ & _ & _ & T'
            & A & _ & Y1 & Y2 & Y3).
      rewrite (T W) in T'. injection T' as <-.
      unfold row_height in Y1, Y2, Y3. rewrite Len in Y1, Y2, Y3.
      rewrite Y1, Y2, Y3.
      split; [exact R|]. split; [exact W|]. split; [exact (T W)|].
      split; [exact A|].
      split; [apply (f_equal (fun y => [y])); lia|].
      split; apply (f_equal (fun y => [y])); lia. }
    destruct S as (S1 & S2 & S3 & S4 & S5 & S6 & S7).
    split; [intros; lia|].
    split; [intros _; repeat split; assumption|].
    split; intros B; (split; [exact S2|]);
      exists (302 - 20 * n); (split; [exact S7 | lia]).
Qed.

Lemma C2_overflow_is_not_detected_witness :
  (exists ops,
     run with_logo (PDict (order (single_line_items 16))) (py "invoice.pdf")
     = (Ok tt, ops)
     /\ written ops = true
     /\ ys_of (py "Total:") ops = [-18])
  /\ (exists ops,
     run with_logo (PDict (order (single_line_items 100))) (py "invoice.pdf")
     = (Raise (ValueError TableTooLarge), ops)
     /\ written ops = false)
  /\ (exists ops,
     run with_logo (PDict (order (single_line_items 5))) (py "invoice.pdf")
     = (Ok tt, ops)
     /\ written ops = true
     /\ ys_of (py "Total:") ops = [202]).
Proof.
  assert (P : forall k, In k [16; 100; 5]%nat ->
            exists table,
              price_rows (single_line_items k) [header_row] = Ok table).
  { intros k [<-|[<-|[<-|[]]]]; eexists; vm_compute; reflexivity. }
  assert (Len : forall k, Z.of_nat (length (single_line_items k)) = Z.of_nat k).
  { intros k. unfold single_line_items. now rewrite repeat_length. }
  split; [|split].
  - destruct (P 16%nat ltac:(cbn; tauto)) as (table & Pt).
    destruct (C2_overflow_is_not_detected with_logo
                (order (single_line_items 16)) (single_line_items 16)
                (py "invoice.pdf") table eq_refl eq_refl Pt)
      as (ops & _ & A & _ & _).
    rewrite Len in A.
    destruct (A ltac:(lia)) as (R & W & _ & _ & _ & _ & Y).
    exists ops. repeat split; assumption.
  - destruct (P 100%nat ltac:(cbn; tauto)) as (table & Pt).
    destruct (C2_overflow_is_not_detected with_logo
                (order (single_line_items 100)) (single_line_items 100)
                (py "invoice.pdf") table eq_refl eq_refl Pt)
      as (ops & A & _).
    rewrite Len in A.
    destruct (A ltac:(lia)) as (R & W).
    exists ops. split; assumption.
  - destruct (P 5%nat ltac:(cbn; tauto)) as (table & Pt).
    destruct (C2_overflow_is_not_detected with_logo
                (order (single_line_items 5)) (single_line_items 5)
                (py "invoice.pdf") table eq_refl eq_refl Pt)
      as (ops & _ & A & _ & _).
    rewrite Len in A.
    destruct (A ltac:(lia)) as (R & W & _ & _ & _ & _ & Y).
    exists ops. repeat split; assumption.
Defined.

End LayoutClaims.

(* ================================================================== *)
(** * Further properties of the pricing loop *)
(* ================================================================== *)

Module PricingProps.

Import StrFacts F64Facts LogFacts InvoiceFacts InvoiceProps Invoice Page Fallback
  Examples.
Open Scope Z_scope.

(** ** One line that raises *)

Lemma price_rows_raise pre : forall p post acc x,
  Forall (fun q => exists r, price_row q = Ok r) pre ->
  price_row p = Raise x ->
  price_rows (pre ++ p :: post) acc = Raise x.
Proof.
  induction pre as [|q pre IH]; intros p post acc x F E; cbn [app price_rows].
  - now rewrite E.
  - inversion F as [|? ? (r & Q) F']; subst. rewrite Q. cbn [bind].
    now apply IH.
Qed.

(** X6.  The lines are priced in order and the first one that raises ends
    the call with its exception: nothing of the lines priced before it
    is drawn, and no document is saved. *)
Theorem first_bad_line_aborts (e : env) (d : dict) (pre post : list pyval)
    (p : pyval) (x : exn) (out : pystr) :
  logo_present e = true ->
  dict_get (py "productos") d = Some (PList (pre ++ p :: post)) ->
  Forall (fun q => exists r, price_row q = Ok r) pre ->
  price_row p = Raise x ->
  exists ops,
    run e (PDict d) out = (Raise x, ops)
    /\ written ops = false /\ table_of ops = None.
Proof.
  intros L G F E.
  pose proof (price_rows_raise pre p post [header_row] x F E) as P.
  unfold run, generate_invoice_pdf, draw_image, letter.
  unfold bindM, lift, emit, raise, ret, decode, py_get.
  rewrite G, L. cbn [py_iter]. rewrite P.
  eexists. split; [reflexivity|]. split; reflexivity.
Qed.

Lemma first_bad_line_aborts_witness :
  exists ops,
    run with_logo
      (PDict (order [product "LAPTOP HP" "5" "$800.00"; PStr (py "MONITOR")]))
      (py "invoice.pdf")
    = (Raise AttributeError, ops)
    /\ written ops = false /\ table_of ops = None.
Proof.
  apply (first_bad_line_aborts with_logo
           (order [product "LAPTOP HP" "5" "$800.00"; PStr (py "MONITOR")])
           [product "LAPTOP HP" "5" "$800.00"] [] (PStr (py "MONITOR"))
           AttributeError (py "invoice.pdf")).
  - reflexivity.
  - reflexivity.
  - constructor; [|constructor]. eexists. vm_compute. reflexivity.
  - reflexivity.
Defined.

(** ** What the two fallbacks do not catch *)

(** X7.  A cost that is not a text, such as a JSON number, has no [replace]
    method: the line raises [AttributeError], whatever its quantity,
    and so does an item that is not an object. *)
Theorem cost_must_be_a_text (d : dict) (v p : pyval) :
  (dict_get (py "costo") d = Some v -> (forall s, v <> PStr s) ->
   price_row (PDict d) = Raise AttributeError)
  /\ ((forall d', p <> PDict d') -> price_row p = Raise AttributeError).
Proof.
  split.
  - intros G N. unfold price_row, py_get. rewrite G. cbn [bind].
    destruct v; try reflexivity. now destruct (N s).
  - intros N. destruct p; try reflexivity. now destruct (N d0).
Qed.

Lemma cost_must_be_a_text_witness :
  price_row (PDict [(py "nombre", PStr (py "X")); (py "cantidad", PInt 2);
                    (py "costo", PInt 800)])
  = Raise AttributeError
  /\ price_row (PStr (py "LAPTOP HP")) = Raise AttributeError.
Proof.
  pose (d := [(py "nombre", PStr (py "X")); (py "cantidad", PInt 2);
              (py "costo", PInt 800)]).
  destruct (cost_must_be_a_text d (PInt 800) (PStr (py "LAPTOP HP")))
    as (A & B).
  split.
  - apply A; [reflexivity | discriminate].
  - apply B. discriminate.
Defined.

(** X8.  With a cost that is a text or is absent, a quantity that is [None],
    a list or an object raises [TypeError], an infinite one raises
    [OverflowError], and so does an integer too large for a float,
    when the line total is computed: only [ValueError] is replaced by
    the fallback. *)
Theorem quantity_errors_not_caught (d : dict) (q : pyval) :
  dict_get (py "cantidad") d = Some q ->
  match dict_get (py "costo") d with
  | Some v => exists s, v = PStr s
  | None => True
  end ->
  match q with
  | PNone | PList _ | PDict _ => price_row (PDict d) = Raise TypeError
  | PFloat (S754_infinity _) => price_row (PDict d) = Raise OverflowError
  | PInt z => is_finite (of_Z z) = false ->
              price_row (PDict d) = Raise OverflowError
  | _ => True
  end.
Proof.
  intros Q C.
  assert (K : exists s c,
             py_replace_dollar
               match dict_get (py "costo") d with
               | Some v => v | None => PStr (py "0") end = Ok s
             /\ coerce_costo s = Ok c).
  { assert (F : forall s, exists c, coerce_costo s = Ok c).
    { intros s. unfold coerce_costo, py_float.
      destruct (float_of_str s); eexists; reflexivity. }
    destruct (dict_get (py "costo") d) as [v|].
    - destruct C as (s & ->). destruct (F (remove_char 36%N s)) as (c & Hc).
      now exists (remove_char 36%N s), c.
    - destruct (F (remove_char 36%N (py "0"))) as (c & Hc).
      now exists (remove_char 36%N (py "0")), c. }
  destruct K as (s & c & K1 & K2).
  unfold price_row, py_get. rewrite Q. cbn [bind]. rewrite K1. cbn [bind].
  destruct q as [| | z|f| | |]; try exact I.
  - reflexivity.
  - intros O. cbn [coerce_cantidad py_int bind]. rewrite K2. cbn [bind py_float py_int].
    unfold int_mul_float, float_of_int. now rewrite O.
  - destruct f; try exact I. reflexivity.
  - reflexivity.
  - reflexivity.
Qed.

Lemma quantity_errors_not_caught_witness :
  price_row (PDict [(py "nombre", PStr (py "X")); (py "cantidad", PNone);
                    (py "costo", PStr (py "$800.00"))])
  = Raise TypeError.
Proof.
  apply (quantity_errors_not_caught
           [(py "nombre", PStr (py "X")); (py "cantidad", PNone);
            (py "costo", PStr (py "$800.00"))] PNone).
  - reflexivity.
  - cbn. eexists. reflexivity.
Defined.

(** ** The texts that fall back *)

Lemma drop_underscores_keeps c : forall s p t,
  drop_underscores p s = Some t -> (c =? 95)%N = false -> In c s -> In c t.
Proof.
  induction s as [|a s IH]; intros p t H U M; [destruct M|].
  cbn [drop_underscores] in H.
  destruct (a =? 95)%N eqn:A.
  - destruct M as [->|M]; [congruence|].
    destruct (is_digit p); [|discriminate]. eapply IH; eauto.
  - destruct (_ && _); [discriminate|].
    destruct (drop_underscores a s) as [t'|] eqn:D; [|discriminate].
    injection H as <-. destruct M as [->|M]; [now left|].
    right. eapply IH; eauto.
Qed.

Lemma lstrip_space_keeps c s :
  ascii_space c = false -> In c s -> In c (lstrip_space s).
Proof.
  intros S. induction s as [|a s IH]; intros M; [destruct M|].
  cbn [lstrip_space]. destruct (ascii_space a) eqn:A; [|exact M].
  destruct M as [->|M]; [congruence | auto].
Qed.

Lemma strip_space_keeps c s :
  ascii_space c = false -> In c s -> In c (strip_space s).
Proof.
  intros S M. unfold strip_space.
  apply in_rev. rewrite rev_involutive.
  apply lstrip_space_keeps; [exact S|]. apply -> in_rev.
  now apply lstrip_space_keeps.
Qed.

Lemma parse_sign_keeps c s :
  (c =? 45)%N = false -> (c =? 43)%N = false -> In c s ->
  In c (snd (parse_sign s)).
Proof.
  intros A B M. destruct s as [|a s]; [destruct M|].
  cbn [parse_sign].
  destruct (a =? 45)%N eqn:E1; [|destruct (a =? 43)%N eqn:E2]; cbn [snd];
    try exact M;
    (destruct M as [->|M]; [congruence | exact M]).
Qed.

Lemma not_all_digits c ds :
  is_digit c = false -> In c ds -> forallb is_digit ds = false.
Proof.
  intros D M. destruct (forallb is_digit ds) eqn:F; [|reflexivity].
  rewrite forallb_forall in F. rewrite (F _ M) in D. discriminate.
Qed.

(** What is left of a text when [int] or [float] looks for the digits
    still holds every character of it that is ASCII and is not an
    underscore, white space or a sign. *)
Lemma number_body_keeps c s t :
  (c <? 127)%N = true -> (c =? 95)%N = false -> ascii_space c = false ->
  (c =? 45)%N = false -> (c =? 43)%N = false -> In c s ->
  drop_underscores 0%N (List.map to_ascii s) = Some t ->
  In c (snd (parse_sign (strip_space t))).
Proof.
  intros A U S M P I D.
  apply parse_sign_keeps; try assumption.
  apply strip_space_keeps; [assumption|].
  apply (drop_underscores_keeps c _ _ _ D U).
  apply in_map_iff. exists c. split; [|exact I].
  unfold to_ascii. now rewrite A.
Qed.

Ltac split_bools :=
  repeat match goal with
         | H : _ && _ = true |- _ => apply andb_prop in H; destruct H
         | H : negb _ = true |- _ => apply negb_true_iff in H
         | H : _ || _ = false |- _ => apply orb_false_elim in H; destruct H
         end.

Lemma int_of_str_foreign c s :
  foreign_to_int c = true -> In c s -> int_of_str s = None.
Proof.
  unfold foreign_to_int, mem. cbn [py list_ascii_of_string List.map existsb].
  change (N_of_ascii "+") with 43%N. change (N_of_ascii "-") with 45%N.
  change (N_of_ascii "_") with 95%N.
  intros F I. split_bools.
  unfold int_of_str.
  destruct (drop_underscores _ _) as [t|] eqn:D; [|reflexivity].
  pose proof (number_body_keeps c s t) as K.
  destruct (parse_sign (strip_space t)) as [neg ds]. cbn [snd] in K.
  unfold all_digits.
  rewrite (not_all_digits c ds); auto.
Qed.

(** X9.  A quantity given as a text with any character foreign to an
    integer literal (a decimal point as in [2.5], a comma, a letter as
    in [5 units]) is not rounded or truncated: it becomes 1. *)
Theorem quantity_text_falls_back (c : char) (s : pystr) :
  foreign_to_int c = true -> In c s ->
  coerce_cantidad (PStr s) = Ok 1.
Proof.
  intros F I. unfold coerce_cantidad, py_int.
  now rewrite (int_of_str_foreign c s F I).
Qed.

Lemma quantity_text_falls_back_witness :
  coerce_cantidad (PStr (py "2.5")) = Ok 1.
Proof.
  apply (quantity_text_falls_back 46%N (py "2.5")).
  - reflexivity.
  - cbn. tauto.
Defined.

Lemma span_digits_spec s : forall ds t,
  span_digits s = (ds, t) -> s = ds ++ t /\ forallb is_digit ds = true.
Proof.
  induction s as [|c s IH]; intros ds t H; cbn [span_digits] in H.
  - injection H as <- <-. now split.
  - destruct (is_digit c) eqn:D.
    + destruct (span_digits s) as [ds' t'].
      injection H as <- <-. destruct (IH _ _ eq_refl) as (-> & F).
      split; [reflexivity|]. cbn [forallb]. now rewrite D.
    + injection H as <- <-. now split.
Qed.

Lemma digits_number_chars ds :
  forallb is_digit ds = true -> forallb Json.number_char ds = true.
Proof.
  apply forallb_imp. intros c D. unfold Json.number_char. now rewrite D.
Qed.

Lemma parse_sign_chars s neg ds :
  parse_sign s = (neg, ds) -> forallb Json.number_char ds = true ->
  forallb Json.number_char s = true.
Proof.
  destruct s as [|c s]; cbn [parse_sign]; [now intros [= <- <-]|].
  destruct (c =? 45)%N eqn:E1; [|destruct (c =? 43)%N eqn:E2];
    intros [= <- <-]; auto.
  - intros H. cbn [forallb]. rewrite H. unfold Json.number_char.
    rewrite E1. now rewrite !orb_true_r.
  - intros H. cbn [forallb]. rewrite H. unfold Json.number_char.
    rewrite E2. now rewrite !orb_true_r.
Qed.

(** A text that [strtod] reads to its end is made of digits, signs,
    points and exponent marks. *)
Lemma parse_decimal_chars neg r f :
  parse_decimal neg r = Some f -> forallb Json.number_char r = true.
Proof.
  unfold parse_decimal.
  destruct (span_digits r) as [ip r1] eqn:E1.
  destruct (span_digits_spec _ _ _ E1) as (-> & D1).
  rewrite forallb_app, (digits_number_chars _ D1). cbn [andb].
  assert (X : forall fp r2,
             (if Nat.eqb (length ip + length fp) 0 then None
              else match r2 with
                   | [] => Some (of_decimal neg (digits_val (ip ++ fp))
                                   (- Z.of_nat (length fp)))
                   | c :: r3 =>
                       if (c =? 101)%N || (c =? 69)%N then
                         let '(eneg, ds) := parse_sign r3 in
                         if all_digits ds then
                           let e := digits_val ds in
                           Some (of_decimal neg (digits_val (ip ++ fp))
                                   ((if eneg then - e else e)
                                    - Z.of_nat (length fp)))
                         else None
                       else None
                   end) = Some f ->
             forallb Json.number_char r2 = true).
  { intros fp r2. destruct (Nat.eqb _ 0); [discriminate|].
    destruct r2 as [|c r3]; [reflexivity|].
    destruct ((c =? 101)%N || (c =? 69)%N) eqn:C; [|discriminate].
    destruct (parse_sign r3) as [eneg ds] eqn:P.
    destruct (all_digits ds) eqn:A; [|discriminate]. intros _.
    unfold all_digits in A. apply andb_prop in A. destruct A as [A _].
    cbn [forallb].
    rewrite (parse_sign_chars _ _ _ P (digits_number_chars _ A)).
    unfold Json.number_char.
    apply orb_prop in C. destruct C as [C|C]; rewrite C;
      now rewrite ?orb_true_r. }
  destruct r1 as [|c r'].
  - intros H. reflexivity.
  - destruct (c =? 46)%N eqn:C.
    + destruct (span_digits r') as [fp r2] eqn:E2.
      destruct (span_digits_spec _ _ _ E2) as (-> & D2).
      intros H. apply (X fp r2) in H. cbn [forallb].
      rewrite forallb_app, (digits_number_chars _ D2), H.
      unfold Json.number_char. rewrite C. now rewrite ?orb_true_r.
    + intros H. exact (X [] (c :: r') H).
Qed.

Lemma eqb_lower_letters r lit c :
  Str.eqb (List.map lower r) lit = true -> In c r -> In (lower c) lit.
Proof.
  intros E I. destruct (StrFacts.eqb_spec (List.map lower r) lit) as [<-|];
    [now apply in_map | discriminate].
Qed.

Lemma float_of_str_foreign c s :
  foreign_to_float c = true -> In c s -> float_of_str s = None.
Proof.
  unfold foreign_to_float. intros F I.
  apply andb_prop in F. destruct F as [F NL].
  apply andb_prop in F. destruct F as [F NS].
  apply andb_prop in F. destruct F as [F NM].
  apply andb_prop in F. destruct F as [A ND].
  apply negb_true_iff in NL, NS, NM, ND.
  assert (M : forall x l, mem x l = false -> ~ In x l).
  { intros x l Hl Hin. unfold mem in Hl.
    assert (existsb (N.eqb x) l = true); [|congruence].
    apply existsb_exists. exists x. split; [exact Hin | apply N.eqb_refl]. }
  assert (Q : forall x, In x (py "+-._eE$") -> (c =? x)%N = false).
  { intros x Hx. apply N.eqb_neq. intros ->. exact (M _ _ NM Hx). }
  unfold float_of_str.
  destruct (drop_underscores _ _) as [t|] eqn:D; [|reflexivity].
  pose proof (number_body_keeps c s t A) as K.
  destruct (parse_sign (strip_space t)) as [neg r]. cbn [snd] in K.
  assert (Ir : In c r).
  { apply K; auto; apply Q; cbn; tauto. }
  assert (L : forall lit, (forall x, In x lit -> In x (py "infaty")) ->
                          Str.eqb (List.map lower r) lit = false).
  { intros lit Sub. destruct (Str.eqb _ lit) eqn:E; [|reflexivity].
    exfalso. apply (M _ _ NL). apply Sub.
    exact (eqb_lower_letters _ _ c E Ir). }
  rewrite !L by (cbn; tauto). cbn [orb].
  destruct (parse_decimal neg r) as [f|] eqn:P; [|reflexivity].
  apply parse_decimal_chars in P. rewrite forallb_forall in P.
  specialize (P c Ir). unfold Json.number_char in P.
  rewrite ND in P.
  rewrite !Q in P by (cbn; tauto). discriminate.
Qed.

(** X10.  A cost given as a text with any character foreign to a float
    literal once the dollar signs are removed (a thousands separator as
    in [$1,250.50], a currency code) is priced at 1.00: the line shows
    [$1.00] as its price and the quantity times 1.0 as its total. *)
Theorem cost_text_falls_back (d : dict) (s : pystr) (c : char) (q : Z) :
  dict_get (py "costo") d = Some (PStr s) ->
  In c s -> foreign_to_float c = true ->
  let nombre :=
    match dict_get (py "nombre") d with Some v => v | None => PStr [] end in
  coerce_costo (remove_char 36%N s) = Ok (of_Z 1)
  /\ (dict_get (py "cantidad") d = Some (PInt q) ->
      is_finite (of_Z q) = true ->
      price_row (PDict d)
      = Ok [nombre; PInt q; PStr (py "$1.00");
            PStr (dollar (format_2f (mul (of_Z q) (of_Z 1))))]).
Proof.
  intros G I F nombre.
  assert (C : coerce_costo (remove_char 36%N s) = Ok (of_Z 1)).
  { unfold coerce_costo, py_float.
    rewrite (float_of_str_foreign c); [reflexivity | exact F |].
    unfold remove_char. apply filter_In. split; [exact I|].
    apply negb_true_iff. unfold foreign_to_float in F.
    destruct (c =? 36)%N eqn:E; [|reflexivity].
    apply N.eqb_eq in E. subst c. discriminate F. }
  split; [exact C|].
  intros Q Fin. unfold price_row, py_get. rewrite Q, G.
  cbn [bind py_replace_dollar coerce_cantidad py_int]. rewrite C.
  cbn [bind py_float py_int]. unfold int_mul_float, float_of_int.
  rewrite Fin. reflexivity.
Qed.

Lemma cost_text_falls_back_witness :
  price_row (PDict [(py "nombre", PStr (py "X")); (py "cantidad", PInt 2);
                    (py "costo", PStr (py "$1,250.50"))])
  = Ok [PStr (py "X"); PInt 2; PStr (py "$1.00"); PStr (py "$2.00")].
Proof.
  apply (cost_text_falls_back
           [(py "nombre", PStr (py "X")); (py "cantidad", PInt 2);
            (py "costo", PStr (py "$1,250.50"))]
           (py "$1,250.50") 44%N 2);
    try reflexivity.
  cbn. tauto.
Defined.

(** ** The texts that are read as they are written *)

Lemma digit_plain c :
  is_digit c = true ->
  (c <? 127)%N = true /\ (c =? 95)%N = false /\ ascii_space c = false
  /\ (c =? 45)%N = false /\ (c =? 43)%N = false.
Proof.
  intros D.
  destruct (numeric_char_plain c) as (A & B & C & _);
    [unfold numeric_char; now rewrite D|].
  destruct (digit_not_sign c D) as (E & F & _). auto.
Qed.

(** X11.  A quantity written as the decimal text of an integer, with a minus
    sign when it is negative, is read as that integer, provided it has
    no more than 4300 digits: no validation follows, so a zero or a
    negative quantity is priced as it is. *)
Theorem quantity_text_round_trip (z : Z) :
  (length (digits (Z.abs z)) <= int_max_str_digits)%nat ->
  coerce_cantidad (PStr (Json.encode_int z)) = Ok z.
Proof.
  intros L. unfold coerce_cantidad, py_int, int_of_str, Json.encode_int.
  destruct (digits_spec (Z.abs z) (Z.abs_nonneg z)) as (D & NE & V).
  set (ds := digits (Z.abs z)) in *.
  set (sg := if z <? 0 then [45%N] else []).
  assert (P : forallb (fun c => (c <? 127)%N) (sg ++ ds) = true
              /\ forallb (fun c => negb (c =? 95)%N) (sg ++ ds) = true).
  { rewrite !forallb_app. split; apply andb_true_intro; split;
      try (unfold sg; destruct (z <? 0); reflexivity);
      (eapply forallb_imp; [|exact D]); intros c Hc;
      destruct (digit_plain c Hc) as (A1 & A2 & _); auto.
    now rewrite A2. }
  destruct P as (P1 & P2).
  rewrite to_ascii_plain by exact P1.
  rewrite drop_underscores_none by (reflexivity || exact P2).
  destruct ds as [|d0 ds'] eqn:Eds; [congruence|].
  cbn [forallb] in D. apply andb_prop in D. destruct D as [D0 D'].
  destruct (digit_plain d0 D0) as (_ & _ & S0 & M0 & P0).
  rewrite strip_space_id.
  - assert (PS : parse_sign (sg ++ d0 :: ds') = (z <? 0, d0 :: ds')).
    { unfold sg. destruct (z <? 0); [reflexivity|].
      cbn [app parse_sign]. now rewrite M0, P0. }
    rewrite PS. unfold all_digits. cbn [forallb]. rewrite D0, D'.
    change (negb (Nat.eqb (length (d0 :: ds')) 0)) with true. cbn [andb].
    apply Nat.leb_le in L. rewrite L. rewrite V.
    destruct (Z.ltb_spec z 0); f_equal; f_equal; lia.
  - unfold sg. destruct (z <? 0); cbn [app]; [reflexivity | exact S0].
  - rewrite rev_app_distr. unfold pystr, char in *.
    assert (Lst : forall l c, forallb is_digit (c :: l) = true ->
                   match rev (c :: l) with
                   | [] => True | x :: _ => ascii_space x = false end).
    { intros l c Hl.
      assert (Hr : forallb is_digit (rev (c :: l)) = true).
      { apply forallb_forall. intros x Hx. apply in_rev in Hx.
        rewrite forallb_forall in Hl. auto. }
      destruct (rev (c :: l)) as [|x r] eqn:R.
      - exact I.
      - cbn [forallb] in Hr. apply andb_prop in Hr.
        destruct Hr as [Hx _]. apply (digit_plain x Hx). }
    assert (Hd : forallb is_digit (d0 :: ds') = true)
      by (apply andb_true_intro; split; [exact D0 | exact D']).
    specialize (Lst ds' d0 Hd).
    destruct (rev (d0 :: ds')) as [|x r] eqn:R;       [|exact (eq_ind _ (fun l => match l with
                                   | [] => True
                                   | c :: _ => ascii_space c = false
                                   end) Lst _ R)].
    apply (f_equal (@length _)) in R. rewrite length_rev in R. discriminate.
Qed.

Lemma quantity_text_round_trip_witness :
  Json.encode_int (-3) = py "-3"
  /\ coerce_cantidad (PStr (py "-3")) = Ok (-3).
Proof.
  split; [reflexivity|].
  apply (quantity_text_round_trip (-3)). apply Nat.leb_le. reflexivity.
Defined.

(** ** A cost that is not a number *)

Lemma add_nan_l x : add nan x = nan.
Proof. reflexivity. Qed.

Lemma add_nan_r x : add x nan = nan.
Proof. destruct x; reflexivity. Qed.

Lemma fold_add_nan xs : fold_left add xs nan = nan.
Proof. induction xs as [|x xs IH]; [reflexivity | exact IH]. Qed.

Lemma py_sum_nan xs : In nan xs -> py_sum xs = nan.
Proof.
  intros I. apply in_split in I. destruct I as (pre & post & ->).
  unfold py_sum. rewrite fold_left_app. cbn [fold_left].
  rewrite add_nan_r. apply fold_add_nan.
Qed.

Lemma Forall2_in {A B} (R : A -> B -> Prop) l l' a :
  Forall2 R l l' -> In a l -> exists b, In b l' /\ R a b.
Proof.
  induction 1 as [|x y l l' Hxy F IH]; intros I; [destruct I|].
  destruct I as [->|I].
  - exists y. split; [now left | exact Hxy].
  - destruct (IH I) as (b & Ib & Rb). exists b. split; [now right | exact Rb].
Qed.

(** The line of an item whose cost is read as NaN. *)
Lemma price_row_nan p s r :
  dict_get (py "costo") p = Some (PStr s) ->
  float_of_str (remove_char 36%N s) = Some nan ->
  price_row (PDict p) = Ok r ->
  exists l, r = row_of_line l /\ l_total l = nan.
Proof.
  intros G F. unfold price_row, py_get. rewrite G.
  cbn [bind py_replace_dollar].
  destruct (coerce_cantidad _) as [q|x]; [|discriminate]. cbn [bind].
  unfold coerce_costo. cbn [py_float]. rewrite F. cbn [bind py_float py_int].
  unfold int_mul_float, float_of_int.
  destruct (is_finite (of_Z q)); [|discriminate]. cbn [bind].
  intros [= <-].
  exists (Build_line
            match dict_get (py "nombre") p with
            | Some v => v | None => PStr [] end q nan (mul (of_Z q) nan)).
  split; [reflexivity|]. cbn [l_total]. unfold mul.
  destruct (of_Z q); reflexivity.
Qed.

(** X13.  [float] accepts the texts [nan], [NaN] and the like, so the
    fallback does not apply to them: when the cost of any line of an
    order is such a text and the document is produced, the subtotal,
    the tax and the grand total are all printed as [$nan]. *)
Theorem nan_cost_poisons_totals (e : env) (d p : dict) (items : list pyval)
    (s out : pystr) (ops : list op) :
  dict_get (py "productos") d = Some (PList items) ->
  In (PDict p) items ->
  dict_get (py "costo") p = Some (PStr s) ->
  float_of_str (remove_char 36%N s) = Some nan ->
  run e (PDict d) out = (Ok tt, ops) ->
  strings_at 500 ops = [py "$nan"; py "$nan"; py "$nan"].
Proof.
  intros G I C F R.
  destruct (run_ok_inv _ _ _ _ R)
    as (v & productos & items' & table & subtotal & D & G' & _ & It & P & _
        & S & _ & _ & _ & X & _).
  cbn [decode] in D. injection D as <-.
  unfold py_get in G'. rewrite G in G'. injection G' as <-.
  cbn [py_iter] in It. injection It as <-.
  destruct (price_rows_spec _ _ _ P) as (rows & -> & F2).
  destruct (Forall2_in _ _ _ _ F2 I) as (r & Ir & Pr).
  destruct (price_row_nan _ _ _ C F Pr) as (l & -> & Tl).
  destruct (priced_lines _ _ F2) as (lines & -> & _).
  unfold subtotal_of in S. cbn [app tl] in S.
  rewrite row_totals_lines in S. cbn [bind] in S.
  assert (N : subtotal = nan).
  { injection S as <-. apply py_sum_nan.
    apply in_map_iff in Ir. destruct Ir as (l' & E & Il').
    apply in_map_iff. exists l'. split; [|exact Il'].
    assert (T : l_total l' = nan).
    { apply (f_equal (fun r => nth 3 r PNone)) in E. cbn in E.
      rewrite Tl in E. injection E as E.
      destruct (l_total l') as [sg|sg| |sg m ex]; try reflexivity.
      - destruct sg; discriminate.
      - destruct sg; discriminate.
      - exfalso. unfold format_2f in E.
        destruct (fixed2_shape _ (cents_nonneg m ex))
          as (ip & d1 & d2 & Ef & A & NE & _).
        rewrite Ef in E. destruct ip as [|i ip]; [congruence|].
        cbn [forallb] in A. apply andb_prop in A. destruct A as [Di _].
        destruct sg; [discriminate|].
        cbn in E. injection E as -> _. discriminate Di. }
    now rewrite T. }
  rewrite X, N. reflexivity.
Qed.

Lemma nan_cost_poisons_totals_witness :
  exists ops,
    run with_logo
      (PDict (order [product "LAPTOP HP" "5" "$800.00";
                     product "MONITOR" "1" "$NaN"])) (py "invoice.pdf")
    = (Ok tt, ops)
    /\ strings_at 500 ops = [py "$nan"; py "$nan"; py "$nan"].
Proof.
  pose (d := order [product "LAPTOP HP" "5" "$800.00";
                    product "MONITOR" "1" "$NaN"]).
  pose (r := run with_logo (PDict d) (py "invoice.pdf")).
  assert (R : r = (Ok tt, snd r)) by (vm_compute; reflexivity).
  exists (snd r). split; [exact R|].
  apply (nan_cost_poisons_totals with_logo d
           [(py "nombre", PStr (py "MONITOR")); (py "cantidad", PStr (py "1"));
            (py "costo", PStr (py "$NaN"))]
           [product "LAPTOP HP" "5" "$800.00"; product "MONITOR" "1" "$NaN"]
           (py "$NaN") (py "invoice.pdf") (snd r)).
  - reflexivity.
  - right. left. reflexivity.
  - reflexivity.
  - vm_compute. reflexivity.
  - exact R.
Defined.

End PricingProps.

(* ================================================================== *)
(** * Further properties of the decoding of the response *)
(* ================================================================== *)

Module DecodingProps.

Import StrFacts JsonFacts StripFacts LogFacts Json Invoice Texts Examples.
Open Scope Z_scope.

Lemma opens_value_false c :
  opens_value c = false ->
  (c =? 34)%N = false /\ is_digit c = false /\ (c =? 123)%N = false
  /\ (c =? 91)%N = false /\ (c =? 45)%N = false
  /\ (forall k, In k [110; 116; 102; 78; 73]%N -> (k =? c)%N = false).
Proof.
  unfold opens_value, mem.
  change (py "{[-ntfNI") with [123; 91; 45; 110; 116; 102; 78; 73]%N.
  cbn [existsb]. intros H.
  repeat match type of H with
         | _ || _ = false => apply orb_false_elim in H; destruct H as [? H]
         end.
  repeat match goal with
         | E : _ || _ = false |- _ => apply orb_false_elim in E; destruct E
         end.
  repeat (split; [assumption|]).
  intros k K. rewrite N.eqb_sym. cbn [In] in K.
  repeat (destruct K as [<-|K]; [assumption|]). destruct K.
Qed.

Lemma json_loads_bad_start t :
  match skip_ws t with
  | [] => True
  | c :: _ => opens_value c = false
  end ->
  json_loads t = JErr DecodeError.
Proof.
  unfold json_loads. rewrite Nat.add_1_r.
  destruct (skip_ws t) as [|c r]; intros H; [reflexivity|].
  destruct (opens_value_false c H) as (Q & D & B & K & M & L).
  cbn [scan_once]. rewrite Q, B, K.
  assert (C : match_constant (c :: r) = None).
  { unfold match_constant.
    rewrite !strip_prefix_first; [reflexivity|..];
      cbv - [N.eqb];
      first [ apply L; cbn [In]; tauto | rewrite N.eqb_sym; exact M ]. }
  rewrite C. unfold match_number. rewrite M. cbn [int_part].
  assert (Z0 : (c =? 48)%N = false).
  { apply N.eqb_neq. intros ->. discriminate. }
  now rewrite Z0, D.
Qed.

(** X15.  A response that, once stripped, is empty or begins (after white
    space) with a character no JSON value begins with is rejected with
    the invalid-JSON [ValueError] before anything is drawn: a sentence
    placed before the object is enough. *)
Theorem response_must_begin_with_a_value (e : env) (s out : pystr) :
  match skip_ws (strip fence_chars s) with
  | [] => True
  | c :: _ => opens_value c = false
  end ->
  run e (PStr s) out = (Raise (ValueError BadJSON), []).
Proof.
  intros H. unfold run, generate_invoice_pdf, decode.
  now rewrite (json_loads_bad_start _ H).
Qed.

Lemma response_must_begin_with_a_value_witness :
  run with_logo (PStr (py "Here is the order: " ++ matched_json))
    (py "invoice.pdf")
  = (Raise (ValueError BadJSON), [])
  /\ run with_logo (PStr (py "```json```")) (py "invoice.pdf")
     = (Raise (ValueError BadJSON), []).
Proof.
  split.
  - apply (response_must_begin_with_a_value with_logo
             (py "Here is the order: " ++ matched_json) (py "invoice.pdf")).
    vm_compute. reflexivity.
  - apply (response_must_begin_with_a_value with_logo (py "```json```")
             (py "invoice.pdf")).
    vm_compute. exact I.
Defined.

Lemma json_loads_extra J t v :
  json_loads J = JOk v -> boundary t -> skip_ws t <> [] ->
  json_loads (J ++ t) = JErr DecodeError.
Proof.
  unfold json_loads.
  destruct (scan_once (2 * length J + 1) (skip_ws J)) as [[x r]| |] eqn:E;
    try discriminate.
  destruct (skip_ws r) eqn:R; [|discriminate]. intros _ B NE.
  pose proof (proj1 (scan_length _) _ _ _ E) as L.
  destruct (skip_ws J) as [|c J'] eqn:S; [simpl in L; lia|].
  rewrite (skip_ws_app _ t _ _ S).
  change (c :: J' ++ t) with ((c :: J') ++ t).
  apply (proj1 (scan_app _ _ B)) in E.
  assert (F : (2 * length J + 1 <= 2 * length (J ++ t) + 1)%nat)
    by (rewrite !length_app; lia).
  rewrite (scan_once_mono _ _ _ _ F E).
  rewrite skip_ws_all by now apply skip_ws_nil.
  destruct (skip_ws t); [congruence | reflexivity].
Qed.

(** X16.  A response in which the JSON document is followed by anything but
    white space, as when a remark comes after the object, is rejected
    with the invalid-JSON [ValueError] before anything is drawn.  The
    text that follows begins with white space or with any character
    that cannot continue a number. *)
Theorem trailing_text_is_rejected (e : env) (s out J t : pystr) (v : pyval) :
  strip fence_chars s = J ++ t ->
  json_loads J = JOk v ->
  boundary t -> skip_ws t <> [] ->
  run e (PStr s) out = (Raise (ValueError BadJSON), []).
Proof.
  intros S L B NE. unfold run, generate_invoice_pdf, decode.
  now rewrite S, (json_loads_extra J t v L B NE).
Qed.

Lemma trailing_text_is_rejected_witness :
  json_loads (newline ++ matched_json)
  = JOk (PDict (order [product "LAPTOP HP" "5" "$800.00"]))
  /\ run with_logo
       (PStr (py "```json" ++ newline ++ matched_json ++ newline
              ++ py "```" ++ newline ++ py "Total: 4000 USD."))
       (py "invoice.pdf")
     = (Raise (ValueError BadJSON), []).
Proof.
  assert (L : json_loads (newline ++ matched_json)
              = JOk (PDict (order [product "LAPTOP HP" "5" "$800.00"])))
    by (vm_compute; reflexivity).
  split; [exact L|].
  apply (trailing_text_is_rejected with_logo _ (py "invoice.pdf")
           (newline ++ matched_json)
           (newline ++ py "```" ++ newline ++ py "Total: 4000 USD.")
           (PDict (order [product "LAPTOP HP" "5" "$800.00"]))).
  - vm_compute. reflexivity.
  - exact L.
  - reflexivity.
  - vm_compute. discriminate.
Defined.

(** ** What the stripping leaves *)

Lemma lstrip_spec cs s :
  exists p, s = p ++ lstrip cs s
    /\ forallb (fun c => mem c cs) p = true
    /\ match lstrip cs s with [] => True | c :: _ => mem c cs = false end.
Proof.
  induction s as [|c s (p & E & A & H)]; cbn [lstrip].
  - exists []. now repeat split.
  - destruct (mem c cs) eqn:M.
    + exists (c :: p). cbn [app forallb]. rewrite M, A, <- E. now repeat split.
    + exists []. now repeat split.
Qed.

Lemma lstrip_all cs p :
  forallb (fun c => mem c cs) p = true -> lstrip cs p = [].
Proof.
  intros A. rewrite <- (app_nil_r p). now rewrite lstrip_prefix.
Qed.

(** X17.  The text handed to [json.loads] is the response without the
    longest run of the characters [`], [j], [s], [o], [n] at each of
    its ends, whether or not these runs are fence markers: it neither
    begins nor ends with one of the five, and stripping it again
    changes nothing. *)
Theorem stripped_response (s : pystr) :
  exists p q,
    s = p ++ strip fence_chars s ++ q
    /\ forallb (fun c => mem c fence_chars) p = true
    /\ forallb (fun c => mem c fence_chars) q = true
    /\ match strip fence_chars s with
       | [] => True | c :: _ => mem c fence_chars = false end
    /\ match rev (strip fence_chars s) with
       | [] => True | c :: _ => mem c fence_chars = false end
    /\ strip fence_chars (strip fence_chars s) = strip fence_chars s.
Proof.
  set (cs := fence_chars).
  destruct (lstrip_spec cs s) as (p & E & A & H).
  destruct (lstrip_spec cs (rev (lstrip cs s))) as (q' & E' & A' & H').
  assert (M : lstrip cs s = strip cs s ++ rev q').
  { unfold strip, rstrip. rewrite <- rev_app_distr, <- E'.
    symmetry. apply rev_involutive. }
  assert (Aq : forallb (fun c => mem c cs) (rev q') = true).
  { rewrite forallb_forall in *. intros x Hx. apply A'. now apply in_rev. }
  assert (Hd : match strip cs s with
               | [] => True | c :: _ => mem c cs = false end).
  { destruct (strip cs s) as [|c r] eqn:S; [exact I|].
    rewrite M in H. exact H. }
  assert (Tl : match rev (strip cs s) with
               | [] => True | c :: _ => mem c cs = false end).
  { unfold strip, rstrip. now rewrite rev_involutive. }
  exists p, (rev q'). repeat split; try assumption.
  - now rewrite <- M.
  - rewrite <- (app_nil_r (strip cs s)) at 1.
    change (strip cs s ++ []) with ([] ++ strip cs s ++ []).
    now apply strip_between.
Qed.

End DecodingProps.

(* ================================================================== *)
(** * Further properties of the orchestrator and of the polling loop *)
(* ================================================================== *)

Module PipelineProps.

Import LogFacts InvoiceProps Invoice Pipeline Setup Trace Examples.
Open Scope log_scope.

(** ** Computations that do not look at the trace *)

Lemma local_ret {E A} (a : A) : local (ret (E:=E) a).
Proof. intros st. unfold ret. cbn. now rewrite app_nil_r. Qed.

Lemma local_lift {E A} (r : result A) : local (lift (E:=E) r).
Proof. intros st. unfold lift. cbn. now rewrite app_nil_r. Qed.

Lemma local_emit {E} (o : E) : local (emit o).
Proof. intros st. reflexivity. Qed.

Lemma local_bind {E A B} (m : Log E A) (k : A -> Log E B) :
  local m -> (forall a, local (k a)) -> local (bindM m k).
Proof.
  intros Hm Hk st. unfold bindM. rewrite (Hm st).
  destruct (m []) as [[a|e] tr]; cbn [fst snd].
  - rewrite (Hk a (st ++ tr)), (Hk a tr). cbn [fst snd].
    now rewrite app_assoc.
  - reflexivity.
Qed.

Ltac local_step :=
  first [ apply local_emit | apply local_lift | apply local_ret
        | apply local_bind; [|intros] ].

Lemma local_read_csv_columns src : local (read_csv_columns src).
Proof. destruct src; cbn [read_csv_columns]; repeat local_step. Qed.

Lemma local_process_message w m : local (process_message w m).
Proof.
  unfold process_message, call.
  repeat first [ apply local_read_csv_columns | local_step ].
  destruct (Invoice.run _ _ _). repeat local_step.
Qed.

Lemma local_process_parts w parts : local (process_parts w parts).
Proof.
  induction parts as [|[m|] parts IH]; cbn [process_parts].
  - apply local_ret.
  - apply local_bind; [apply local_process_message | intros; exact IH].
  - exact IH.
Qed.

Lemma local_process_emails w : local (process_emails w).
Proof.
  unfold process_emails. destruct (negb (connection w)); [apply local_ret|].
  destruct (inbox w); [apply local_emit | apply local_process_parts].
Qed.

(** ** The configured interval *)

Lemma os_getenv_text env key :
  os_getenv env key = PNone \/ exists s, os_getenv env key = PStr s.
Proof.
  induction env as [|[k v] env IH]; cbn [os_getenv]; [now left|].
  destruct (Str.eqb key k); [right; now exists v | exact IH].
Qed.

(** X20.  [CHECKING_INTERVAL] is what [os.getenv] returns, a text or [None],
    and [time.sleep] takes neither: whatever the environment holds,
    [main] ends in the first cycle, with the exception of
    [process_emails] if it raises and with [TypeError] at
    [time.sleep] if it returns; no second cycle is ever run. *)
Theorem configured_interval_ends_the_loop (env : environ) (w : world)
    (rest : list world) :
  main (CHECKING_INTERVAL env) (w :: rest) []
  = match process_emails w [] with
    | (Ok _, tr) => (Raise TypeError, tr ++ [waiting])
    | (Raise e, tr) => (Raise e, tr)
    end.
Proof.
  cbn [main]. unfold bindM at 1.
  destruct (process_emails w []) as [[[]|e] tr]; [|reflexivity].
  rewrite bindM_emit. unfold bindM, lift, CHECKING_INTERVAL.
  destruct (os_getenv_text env (py "CHECKING_INTERVAL")) as [->|(s & ->)];
    reflexivity.
Qed.

Lemma configured_interval_ends_the_loop_witness :
  let env := [(py "CHECKING_INTERVAL", py "180")] in
  let w := cycle matched_json (Ok []) in
  CHECKING_INTERVAL env = PStr (py "180")
  /\ fst (main (CHECKING_INTERVAL env) [w; w] []) = Raise TypeError
  /\ dispatches (snd (main (CHECKING_INTERVAL env) [w; w] []))
     = [SendCall (py "john@example.com") (py "invoice.pdf") (py "John Doe")].
Proof.
  intros env w. split; [reflexivity|].
  rewrite (configured_interval_ends_the_loop env w [w]).
  vm_compute. split; reflexivity.
Defined.

(** ** The loop with a numeric interval *)




(** ** Dispatch only after a saved invoice *)

Lemma guarded_app tr1 : forall tr2 b,
  (forall b', guarded b' tr2 = true) ->
  guarded b tr1 = true -> guarded b (tr1 ++ tr2) = true.
Proof.
  induction tr1 as [|ev tr1 IH]; intros tr2 b S H; cbn [app]; [apply S|].
  destruct ev; cbn [guarded] in *; auto.
  apply andb_prop in H. destruct H as [-> H]. cbn [andb]. auto.
Qed.

Lemma guarded_message w m b :
  guarded b (snd (process_message w m [])) = true.
Proof.
  unfold process_message, call, bindM, emit, lift, ret.
  destruct (extract_products_from_email w (body m)); [|reflexivity].
  destruct (extract_product_names w _); [|reflexivity].
  assert (C : forall k : pystr -> Log event unit,
             (forall s st, exists r tr,
                 k s st = (r, st ++ tr) /\ forall b', guarded b' tr = true) ->
             forall st, (forall b', guarded b' st = true) ->
             guarded b
               (snd (let (r, st') := read_csv_columns (catalog_source w) st in
                     match r with
                     | Ok a1 => k a1 st'
                     | Raise e => (Raise e, st')
                     end)) = true).
  { intros k K st G.
    destruct (catalog_source w); cbn [read_csv_columns];
      unfold bindM, emit, ret.
    - destruct (K a1 st) as (r & tr & -> & T). cbn [snd].
      apply guarded_app; auto.
    - destruct (K [] (st ++ [Print (py "Error reading CSV file: ") []]))
        as (r & tr & -> & T). cbn [snd].
      apply guarded_app; [exact T|]. apply guarded_app; [|apply G].
      intros b'. reflexivity. }
  apply C; [|intros b'; reflexivity].
  intros s st.
  destruct (match_products_with_costs w a s).
  - destruct (Invoice.run (files w) (PStr a1) (py "invoice.pdf"))
      as [[[]|e] ops] eqn:R.
    + assert (W : written ops = true).
      { destruct (run_ok_inv _ _ _ _ R) as (? & ? & ? & ? & ? & H).
        apply H. }
      destruct (smtp_send w _ _ _) as [[]|e]; eexists; eexists;
        (split; [rewrite <- !app_assoc; reflexivity|]);
        intros b'; cbn [app guarded]; now rewrite W.
    + eexists; eexists.
      split; [rewrite <- !app_assoc; reflexivity|]. intros b'. reflexivity.
  - eexists; eexists.
    split; [rewrite <- !app_assoc; reflexivity|]. intros b'. reflexivity.
Qed.

Lemma guarded_parts w parts : forall b,
  guarded b (snd (process_parts w parts [])) = true.
Proof.
  induction parts as [|[m|] parts IH]; intros b; cbn [process_parts].
  - reflexivity.
  - unfold bindM. pose proof (guarded_message w m b) as G.
    destruct (process_message w m []) as [[[]|e] tr]; cbn [snd] in *.
    + rewrite (local_process_parts w parts tr). cbn [snd].
      apply guarded_app; auto.
    + exact G.
  - apply IH.
Qed.

Lemma guarded_emails w b : guarded b (snd (process_emails w [])) = true.
Proof.
  unfold process_emails. destruct (negb (connection w)); [reflexivity|].
  destruct (inbox w); [reflexivity | apply guarded_parts].
Qed.

Lemma guarded_main interval cycles : forall b,
  guarded b (snd (main interval cycles [])) = true.
Proof.
  induction cycles as [|w cycles IH]; intros b; cbn [main]; [reflexivity|].
  unfold bindM at 1. pose proof (guarded_emails w b) as G.
  destruct (process_emails w []) as [[[]|e] tr]; cbn [snd] in *; [|exact G].
  rewrite bindM_emit. unfold bindM at 1, lift at 1.
  destruct (time_sleep interval) as [[]|e]; cbn [snd].
  - assert (L : local (main interval cycles)).
    { clear. induction cycles as [|w cycles IH]; cbn [main];
        [apply local_ret|].
      apply local_bind; [apply local_process_emails | intros].
      apply local_bind; [apply local_emit | intros].
      apply local_bind; [apply local_lift | intros; exact IH]. }
    rewrite (L (tr ++ _)). cbn [snd]. rewrite <- app_assoc.
    apply guarded_app; [|exact G]. intros b'. cbn [app guarded]. apply IH.
  - apply guarded_app; [|exact G]. intros b'. reflexivity.
Qed.

(** X19.  In a cycle, and over any number of cycles of the loop, every call
    of the mail dispatch comes after a run of the invoice generator
    that saved its document, with no other dispatch in between: an
    invoice that could not be produced is never sent. *)
Theorem dispatch_follows_a_saved_invoice (interval : pyval)
    (cycles : list world) (w : world) :
  guarded false (snd (process_emails w [])) = true
  /\ guarded false (snd (main interval cycles [])) = true.
Proof. split; [apply guarded_emails | apply guarded_main]. Qed.

(** ** No stage failure is caught *)

Lemma message_failure_ends_main w m parts older e interval rest st :
  connection w = true ->
  inbox w = (Tuple m :: parts) :: older ->
  fst (process_message w m st) = Raise e ->
  fst (main interval (w :: rest) st) = Raise e.
Proof.
  intros C I H. cbn [main]. unfold bindM at 1.
  unfold process_emails. rewrite C, I. cbn [negb process_parts].
  unfold bindM at 1.
  destruct (process_message w m st) as [[[]|e'] st']; cbn [fst] in H;
    [discriminate|].
  cbn [fst]. exact H.
Qed.

(** X18.  Only the reading of the catalog is protected.  For the message a
    cycle processes, an exception raised by the extraction, by the
    extraction of the names, by the matching, by the invoice generator
    or by the mail dispatch leaves [process_emails] and ends [main]
    with that exception, whatever the interval and the cycles that
    should follow. *)
Theorem stage_failures_end_the_loop (w : world) (m : fetched)
    (parts : list part) (older : list (list part)) :
  connection w = true ->
  inbox w = (Tuple m :: parts) :: older ->
  let ends e := forall interval rest st,
                  fst (main interval (w :: rest) st) = Raise e in
  let catalog := match catalog_source w with Ok s => s | Raise _ => [] end in
  (forall e, extract_products_from_email w (body m) = Raise e -> ends e)
  /\ (forall json e,
        extract_products_from_email w (body m) = Ok json ->
        extract_product_names w json = Raise e -> ends e)
  /\ (forall json names e,
        extract_products_from_email w (body m) = Ok json ->
        extract_product_names w json = Ok names ->
        match_products_with_costs w json catalog = Raise e -> ends e)
  /\ (forall json names matched e,
        extract_products_from_email w (body m) = Ok json ->
        extract_product_names w json = Ok names ->
        match_products_with_costs w json catalog = Ok matched ->
        fst (Invoice.run (files w) (PStr matched) (py "invoice.pdf")) = Raise e ->
        ends e)
  /\ (forall json names matched e,
        extract_products_from_email w (body m) = Ok json ->
        extract_product_names w json = Ok names ->
        match_products_with_costs w json catalog = Ok matched ->
        fst (Invoice.run (files w) (PStr matched) (py "invoice.pdf")) = Ok tt ->
        smtp_send w (from_addr m) (py "invoice.pdf") (from_name m) = Raise e ->
        ends e).
Proof.
  intros C I ends catalog. unfold ends.
  assert (K : forall e, (forall st, fst (process_message w m st) = Raise e) ->
                forall interval rest st,
                  fst (main interval (w :: rest) st) = Raise e).
  { intros e H interval rest st.
    eapply message_failure_ends_main; eauto. }
  repeat split; intros; apply K; intros st0;
    unfold process_message, call, bindM, emit, lift;
    repeat match goal with
           | H : _ = Raise _ |- _ => rewrite H
           | H : _ = Ok _ |- _ => rewrite H
           end; try reflexivity.
  all: subst catalog; destruct (catalog_source w); cbn [read_csv_columns];
    unfold bindM, emit, ret;
    repeat match goal with
           | H : match_products_with_costs _ _ _ = _ |- _ => rewrite H
           end; try reflexivity.
  all: destruct (Invoice.run _ _ _) as [r ops]; cbn [fst] in *; subst r;
    try reflexivity;
    repeat match goal with
           | H : smtp_send _ _ _ _ = _ |- _ => rewrite H
           end; reflexivity.
Qed.

Lemma stage_failures_end_the_loop_witness :
  fst (main (PInt 180) [cycle prose (Ok []); cycle matched_json (Ok [])] [])
  = Raise (ValueError BadJSON).
Proof.
  pose (w := cycle prose (Ok [])).
  destruct (stage_failures_end_the_loop w order_message [Token] []
              eq_refl eq_refl) as (_ & _ & _ & H & _).
  apply (H extracted_json (py "LAPTOP HP") prose (ValueError BadJSON));
    reflexivity.
Defined.

End PipelineProps.

(* ================================================================== *)
(** * Properties of the mailbox functions *)
(* ================================================================== *)

Module GmailProps.

Import LogFacts Setup Pipeline Gmail.
Open Scope log_scope.

Section Connecting.

Variable IMAP4_SSL : pystr -> result connection.
Variable env : environ.

(** X22.  [connect_to_email] never raises: it returns the connection when the
    constructor and the login both succeed, and [None] otherwise, after
    reporting the exception; the login is not attempted on a
    connection that could not be opened. *)
Theorem connect_to_email_never_raises (st : list event) :
  exists r tr,
    connect_to_email IMAP4_SSL env st = (Ok r, st ++ tr)
    /\ (forall con, r = Some con <->
          IMAP4_SSL IMAP_URL = Ok con
          /\ login con (EMAIL_USER env) (EMAIL_PASSWORD env) = Ok tt)
    /\ (r = None -> exists e,
          last tr (Print []) = PrintError (py "Error connecting to email: ") e)
    /\ ((exists e, IMAP4_SSL IMAP_URL = Raise e) ->
        forall u p, ~ In (Login u p) tr).
Proof.
  unfold connect_to_email, try_except, call, bindM, emit, lift, ret.
  destruct (IMAP4_SSL IMAP_URL) as [con|e] eqn:C.
  - destruct (login con _ _) as [[]|e] eqn:L.
    + eexists; eexists. split; [rewrite <- !app_assoc; reflexivity|].
      split; [|split].
      * intros con'. split.
        -- intros [= <-]. now split.
        -- intros [[= <-] _]. reflexivity.
      * discriminate.
      * intros (e & E). discriminate.
    + eexists; eexists. split; [rewrite <- !app_assoc; reflexivity|].
      split; [|split].
      * intros con'. split; [discriminate|].
        intros [[= <-] L']. congruence.
      * intros _. now exists e.
      * intros (e' & E). discriminate.
  - eexists; eexists. split; [rewrite <- !app_assoc; reflexivity|].
    split; [|split].
    + intros con'. split; [discriminate | intros [E _]; discriminate].
    + intros _. now exists e.
    + intros _ u p [H|[H|[]]]; discriminate.
Qed.



End Connecting.

Section Fetching.

Variable con : connection.

Lemma fetched_nums_app tr1 tr2 :
  fetched_nums (tr1 ++ tr2) = fetched_nums tr1 ++ fetched_nums tr2.
Proof. apply flat_map_app. Qed.

Lemma fetched_nums_fetches nums :
  fetched_nums (List.map fetch_event nums) = nums.
Proof.
  induction nums as [|n l IH]; [reflexivity|].
  change (fetched_nums (List.map fetch_event (n :: l)))
    with (n :: fetched_nums (List.map fetch_event l)).
  now rewrite IH.
Qed.

(** What the loop over the message numbers does: every message fetched
    is appended, and the first failure ends the loop. *)
Lemma fetch_all_spec nums : forall acc st,
  match fetch_all con nums acc st with
  | (Ok msgs, st') =>
      exists datas,
        msgs = acc ++ datas
        /\ Forall2 (fun num data => fetch con num (py "(RFC822)") = Ok data)
             nums datas
        /\ st' = st ++ List.map fetch_event nums
  | (Raise e, st') =>
      exists done rest num,
        nums = done ++ num :: rest
        /\ fetch con num (py "(RFC822)") = Raise e
        /\ st' = st ++ List.map fetch_event (done ++ [num])
  end.
Proof.
  induction nums as [|num nums IH]; intros acc st; cbn [fetch_all].
  - unfold ret. exists []. rewrite !app_nil_r. repeat split. constructor.
  - unfold call, bindM, emit, lift.
    destruct (fetch con num (py "(RFC822)")) as [data|e] eqn:F.
    + specialize (IH (acc ++ [data]) (st ++ [fetch_event num])).
      destruct (fetch_all con nums (acc ++ [data]) _) as [[msgs|e] st'].
      * destruct IH as (datas & -> & F2 & ->). exists (data :: datas).
        rewrite <- !app_assoc. repeat split. now constructor.
      * destruct IH as (done & rest & n & -> & Fn & ->).
        exists (num :: done), rest, n. rewrite <- !app_assoc.
        repeat split. exact Fn.
    + exists [], nums, num. repeat split. exact F.
Qed.

(** X23.  [fetch_emails] never raises, and it returns all or nothing: when it
    returns any message, the mailbox was selected, the search answered,
    and every number of the answer was fetched, the last number first;
    a failure at any step, the fetch of the last message included, is
    reported and gives the empty list, the messages already fetched
    being dropped. *)
Theorem fetch_emails_all_or_nothing (key value : pystr) (st : list event) :
  exists msgs tr,
    fetch_emails con key value st = (Ok msgs, st ++ tr)
    /\ (msgs <> [] ->
        exists ids more,
          select con (py "Inbox") = Ok tt
          /\ search con key (quoted value) = Ok (Some ids :: more)
          /\ Forall2 (fun num data => fetch con num (py "(RFC822)") = Ok data)
               (rev (split ids)) msgs
          /\ fetched_nums tr = rev (split ids))
    /\ ((exists num e, In num (fetched_nums tr)
                        /\ fetch con num (py "(RFC822)") = Raise e) ->
        msgs = []).
Proof.
  unfold fetch_emails, try_except, search_emails, call.
  unfold bindM at 1. unfold bindM at 1, emit at 1, lift at 1.
  destruct (select con (py "Inbox")) as [[]|e] eqn:S.
  2:{ eexists; eexists. split; [unfold bindM, emit, ret; cbn;
                                 rewrite <- !app_assoc; reflexivity|].
      split; [congruence|]. intros _. reflexivity. }
  unfold bindM at 1, emit at 1.
  unfold bindM at 1. unfold bindM at 1, emit at 1, lift at 1.
  destruct (search con key (quoted value)) as [data|e] eqn:Q.
  2:{ eexists; eexists. split; [unfold bindM, emit, ret; cbn;
                                 rewrite <- !app_assoc; reflexivity|].
      split; [congruence|]. intros _. reflexivity. }
  unfold bindM at 1, lift at 1.
  destruct (first_item data) as [ids|e] eqn:I.
  2:{ eexists; eexists. split; [unfold bindM, emit, ret; cbn;
                                 rewrite <- !app_assoc; reflexivity|].
      split; [congruence|]. intros _. reflexivity. }
  assert (D : exists more, data = Some ids :: more).
  { destruct data as [|[b|] more]; try discriminate.
    injection I as <-. now exists more. }
  destruct D as (more & ->).
  unfold bindM at 1.
  pose proof (fetch_all_spec (rev (split ids)) []
                (((st ++ [Select (py "Inbox")])
                    ++ [Print (py "Fetching emails...")])
                   ++ [Search key (quoted value)])) as A.
  destruct (fetch_all con (rev (split ids)) [] _) as [[msgs|e] st'].
  - destruct A as (datas & -> & F2 & ->). cbn [app].
    eexists; eexists.
    split; [unfold bindM, emit, ret; rewrite <- !app_assoc; reflexivity|].
    assert (N : fetched_nums
                  ([Select (py "Inbox")] ++ [Print (py "Fetching emails...")]
                     ++ [Search key (quoted value)]
                     ++ List.map fetch_event (rev (split ids))
                     ++ [Print (py "Fetching done")])
                = rev (split ids)).
    { rewrite !fetched_nums_app, fetched_nums_fetches. cbn.
      apply app_nil_r. }
    split.
    + intros _. exists ids, more. repeat split; assumption.
    + intros (num & e & In' & Fe). rewrite N in In'.
      destruct (PricingProps.Forall2_in _ _ _ _ F2 In') as (data & _ & Ok').
      congruence.
  - destruct A as (done & rest & n & E & Fn & ->).
    eexists; eexists.
    split; [unfold bindM, emit, ret; rewrite <- !app_assoc; reflexivity|].
    split; [congruence|]. intros _. reflexivity.
Qed.

End Fetching.

Lemma Forall2_fetched (con : connection) (d : bytes -> list part) nums :
  forall datas,
  (forall num, In num nums -> fetch con num (py "(RFC822)") = Ok (d num)) ->
  Forall2 (fun num data => fetch con num (py "(RFC822)") = Ok data) nums datas ->
  datas = List.map d nums.
Proof.
  induction nums as [|n nums IH]; intros datas H F; inversion F; subst.
  - reflexivity.
  - cbn [List.map]. f_equal.
    + rewrite (H n (or_introl eq_refl)) in *. congruence.
    + apply IH; [|assumption]. intros num I. apply H. now right.
Qed.

(** X24.  The numbers that the search returns are fetched from the last to
    the first, so that the list begins with the message of the greatest
    number; every matching message is downloaded in every cycle, and
    [process_emails], which reads [msgs[0:1]], processes the parts of
    that one message only. *)
Theorem newest_message_is_processed (con : connection)
    (ids newest : bytes) (older : list bytes)
    (more : list (option bytes)) (d : bytes -> list part) :
  select con (py "Inbox") = Ok tt ->
  search con (py "SUBJECT") (quoted (py "orden de pedido"))
  = Ok (Some ids :: more) ->
  split ids = older ++ [newest] ->
  (forall num, In num (split ids) ->
     fetch con num (py "(RFC822)") = Ok (d num)) ->
  let msgs := d newest :: List.map d (rev older) in
  exists tr,
    fetch_emails con (py "SUBJECT") (py "orden de pedido") [] = (Ok msgs, tr)
    /\ fetched_nums tr = newest :: rev older
    /\ forall w, Pipeline.connection w = true -> inbox w = msgs ->
         forall st, process_emails w st = process_parts w (d newest) st.
Proof.
  intros S Q Sp F msgs.
  assert (R : rev (split ids) = newest :: rev older).
  { rewrite Sp, rev_app_distr. reflexivity. }
  unfold fetch_emails, try_except, search_emails, call.
  unfold bindM at 1. unfold bindM at 1, emit at 1, lift at 1. rewrite S.
  unfold bindM at 1, emit at 1.
  unfold bindM at 1. unfold bindM at 1, emit at 1, lift at 1. rewrite Q.
  unfold bindM at 1, lift at 1. cbn [first_item].
  unfold bindM at 1.
  pose proof (fetch_all_spec con (rev (split ids)) []
                ((([] ++ [Select (py "Inbox")])
                    ++ [Print (py "Fetching emails...")])
                   ++ [Search (py "SUBJECT") (quoted (py "orden de pedido"))]))
    as A.
  destruct (fetch_all con (rev (split ids)) [] _) as [[got|e] st'].
  - destruct A as (datas & -> & F2 & ->).
    apply Forall2_fetched with (d := d) in F2.
    2:{ intros num I. apply F. now apply in_rev. }
    subst datas.
    eexists. split; [|split].
    + unfold bindM, emit, ret. apply (f_equal2 pair); [|reflexivity].
      cbn [app]. rewrite R. reflexivity.
    + rewrite !fetched_nums_app, fetched_nums_fetches. cbn.
      rewrite app_nil_r. exact R.
    + intros w C I st. unfold process_emails. now rewrite C, I.
  - exfalso. destruct A as (done & rest & n & E & Fn & _).
    rewrite (F n) in Fn; [discriminate|].
    apply in_rev. rewrite E. apply in_or_app. right. now left.
Qed.

Lemma newest_message_is_processed_witness :
  let d (num : bytes) := [Tuple {| from_name := []; from_addr := [];
                                   body := num |}; Token] in
  let con := {| login := fun _ _ => Ok tt;
                select := fun _ => Ok tt;
                search := fun _ _ => Ok [Some (py "4 17 23")];
                fetch := fun num _ => Ok (d num) |} in
  exists tr,
    fetch_emails con (py "SUBJECT") (py "orden de pedido") []
    = (Ok [d (py "23"); d (py "17"); d (py "4")], tr)
    /\ fetched_nums tr = [py "23"; py "17"; py "4"].
Proof.
  intros d con.
  destruct (newest_message_is_processed con (py "4 17 23") (py "23")
              [py "4"; py "17"] [] d)
    as (tr & A & B & _); try reflexivity.
  exists tr. split; [exact A | exact B].
Defined.

(** ** The body of a message *)

Open Scope nat_scope.

Lemma utf8_decode_ascii p :
  forallb (fun b => (b <? 128)%N) p = true -> utf8_decode p = Some p.
Proof.
  induction p as [|b p IH]; cbn [forallb utf8_decode]; [reflexivity|].
  intros H. apply andb_prop in H. destruct H as [-> H].
  now rewrite (IH H).
Qed.

Lemma utf8_decode_length : forall p s,
  utf8_decode p = Some s -> length s <= length p.
Proof.
  apply (JsonFacts.list_length_ind
           (fun p => forall s, utf8_decode p = Some s -> length s <= length p)).
  intros p IH s. destruct p as [|b0 r0]; cbn [utf8_decode].
  { intros [= <-]. reflexivity. }
  assert (K : forall c r, length r < length (b0 :: r0) ->
                option_map (cons c) (utf8_decode r) = Some s ->
                length s <= S (length r)).
  { intros c r L H. destruct (utf8_decode r) as [s'|] eqn:D; [|discriminate].
    injection H as <-. cbn [length]. apply le_n_S. now apply IH. }
  destruct (b0 <? 128)%N.
  { intros H. apply K in H; cbn [length] in *; lia. }
  destruct (_ && _).
  { destruct r0 as [|b1 r1]; [discriminate|].
    destruct (continuation b1); [|discriminate].
    intros H. apply K in H; cbn [length] in *; lia. }
  destruct (_ && _).
  { destruct r0 as [|b1 [|b2 r2]]; try discriminate.
    destruct (_ && _); [|discriminate].
    intros H. apply K in H; cbn [length] in *; lia. }
  destruct (_ && _); [|discriminate].
  destruct r0 as [|b1 [|b2 [|b3 r3]]]; try discriminate.
  destruct (_ && _); [|discriminate].
  intros H. apply K in H; cbn [length] in *; lia.
Qed.

(** X25.  For a message that is not multipart, [get_body] never raises and
    always returns a text, whatever the content type, so that the
    markup of a message sent as HTML only is returned as its body.  The
    text has at most as many characters as the payload has bytes; a
    payload of ASCII bytes, and a payload that is not valid UTF-8, come
    back with one character for each byte. *)
Theorem get_body_of_a_single_part (content_type : pystr) (payload : bytes) :
  exists s,
    get_body (Single content_type payload) = Ok (Some s)
    /\ length s <= length payload
    /\ (forallb (fun b => (b <? 128)%N) payload = true -> s = payload)
    /\ (utf8_decode payload = None -> s = payload).
Proof.
  unfold get_body. cbn [is_multipart decode_payload].
  destruct (utf8_decode payload) as [s|] eqn:D; cbn [bind].
  - exists s. split; [reflexivity|]. split; [now apply utf8_decode_length|].
    split; [|discriminate].
    intros A. rewrite (utf8_decode_ascii _ A) in D. congruence.
  - exists payload. repeat split; reflexivity.
Qed.

Lemma first_plain_none parts :
  first_plain parts = Ok None <->
  Forall (fun part => Str.eqb (get_content_type part) (py "text/plain") = false)
    parts.
Proof.
  induction parts as [|part parts IH]; cbn [first_plain].
  - split; [constructor | reflexivity].
  - destruct (Str.eqb _ _) eqn:E.
    + split.
      * destruct (decode_payload part); discriminate.
      * intros F. inversion F; congruence.
    + rewrite IH. split; [now constructor | intros F; now inversion F].
Qed.

Lemma first_plain_some parts s :
  first_plain parts = Ok (Some s) ->
  exists before part after,
    parts = before ++ part :: after
    /\ Forall (fun q => Str.eqb (get_content_type q) (py "text/plain") = false)
         before
    /\ get_content_type part = py "text/plain"
    /\ decode_payload part = Ok s.
Proof.
  induction parts as [|part parts IH]; cbn [first_plain]; [discriminate|].
  destruct (Str.eqb _ _) eqn:E.
  - destruct (decode_payload part) as [s'|] eqn:D; [|discriminate].
    intros [= <-]. exists [], part, parts. repeat split; [constructor| |exact D].
    now destruct (StrFacts.eqb_spec (get_content_type part) (py "text/plain")).
  - intros H. destruct (IH H) as (before & q & after & -> & F & T & D).
    exists (part :: before), q, after. repeat split; auto.
Qed.

(** X26.  For a multipart message, [get_body] returns the decoded payload of
    the first part of type [text/plain] met when the message is walked
    depth first, nested parts included, and [None] exactly when no
    part at any depth has that type, as for a message with an HTML
    alternative only. *)
Theorem get_body_of_a_multipart (content_type : pystr) (parts : list message) :
  let msg := Multipart content_type parts in
  (get_body msg = Ok None <->
   Forall (fun part => Str.eqb (get_content_type part) (py "text/plain") = false)
     (walk msg))
  /\ (forall s, get_body msg = Ok (Some s) ->
      exists before part after,
        walk msg = before ++ part :: after
        /\ Forall (fun q => Str.eqb (get_content_type q) (py "text/plain")
                            = false) before
        /\ get_content_type part = py "text/plain"
        /\ decode_payload part = Ok s).
Proof.
  intros msg. unfold get_body. cbn [is_multipart msg].
  split; [apply first_plain_none | intros s; apply first_plain_some].
Qed.

(** ** Examples *)

Lemma connect_to_email_never_raises_witness :
  let con := {| login := fun _ _ => Raise OSError;
                select := fun _ => Ok tt;
                search := fun _ _ => Ok [];
                fetch := fun _ _ => Ok [] |} in
  exists tr, connect_to_email (fun _ => Ok con) [] [] = (Ok None, tr).
Proof.
  intros con.
  destruct (connect_to_email_never_raises (fun _ => Ok con) [] [])
    as (r & tr & E & S & _).
  exists tr. rewrite E. destruct r as [c|]; [exfalso | reflexivity].
  destruct (proj1 (S c) eq_refl) as ([= <-] & L). discriminate L.
Defined.

Lemma fetch_emails_all_or_nothing_witness :
  let con := {| login := fun _ _ => Ok tt;
                select := fun _ => Ok tt;
                search := fun _ _ => Ok [Some (py "4 17 23")];
                fetch := fun num _ =>
                           if Str.eqb num (py "4") then Raise OSError
                           else Ok [Token] |} in
  fst (fetch_emails con (py "SUBJECT") (py "orden de pedido") []) = Ok []
  /\ fetched_nums (snd (fetch_emails con (py "SUBJECT")
                          (py "orden de pedido") []))
     = [py "23"; py "17"; py "4"].
Proof.
  intros con.
  assert (T : fetched_nums (snd (fetch_emails con (py "SUBJECT")
                                   (py "orden de pedido") []))
              = [py "23"; py "17"; py "4"]) by (vm_compute; reflexivity).
  split; [|exact T].
  destruct (fetch_emails_all_or_nothing con (py "SUBJECT")
              (py "orden de pedido") []) as (msgs & tr & E & _ & F).
  rewrite E in T |- *. cbn [fst snd app] in *. f_equal. apply F.
  exists (py "4"), OSError. rewrite T. split; [|reflexivity].
  right. right. left. reflexivity.
Defined.

Lemma get_body_of_a_single_part_witness :
  get_body (Single (py "text/html") [72; 233]%N) = Ok (Some [72; 233]%N).
Proof.
  destruct (get_body_of_a_single_part (py "text/html") [72; 233]%N)
    as (s & E & _ & _ & L).
  rewrite E, (L eq_refl). reflexivity.
Defined.

Lemma get_body_of_a_multipart_witness :
  get_body (Multipart (py "multipart/alternative")
              [Single (py "text/html") (py "<p>5 laptops HP</p>")])
  = Ok None.
Proof.
  apply (proj1 (get_body_of_a_multipart (py "multipart/alternative")
                  [Single (py "text/html") (py "<p>5 laptops HP</p>")])).
  repeat constructor.
Defined.

End GmailProps.

(* ================================================================== *)
(** * Properties of the mail dispatch *)
(* ================================================================== *)

Module MailProps.

Import LogFacts Gmail Mail.
Open Scope log_scope.

Section Dispatch.

Variable o : outside.
Variables sender password : pyval.
Variables receiver pdf_path name : pystr.

(** X27.  The dispatch reads the document before it opens any connection, so
    that a missing document raises with no connection made; [Mail Sent]
    is printed exactly when the call returns; the session is closed
    only when the message was accepted, and is left open when the
    login or the sending raises; the message handed to the server
    carries the greeting with the name of the sender, and the bytes
    read from the document under its path. *)
Theorem mail_is_sent_or_nothing (st : list event) :
  exists r tr,
    send_email_with_pdf o sender receiver password pdf_path name st
    = (r, st ++ tr)
    /\ (r = Ok tt <-> In (Print (py "Mail Sent")) tr)
    /\ (forall e, read_binary o pdf_path = Raise e ->
        r = Raise e /\ tr = [ReadFile pdf_path])
    /\ (In Quit tr ->
        exists data s m,
          read_binary o pdf_path = Ok data
          /\ SMTP o (py "smtp.gmail.com") 587 = Ok s
          /\ starttls s = Ok tt
          /\ login s sender password = Ok tt
          /\ sendmail s sender receiver m = Ok tt
          /\ In (SendMail sender receiver m) tr)
    /\ (forall a b m, In (SendMail a b m) tr ->
        text m = greeting name
        /\ attachment_name m = pdf_path
        /\ read_binary o pdf_path = Ok (attachment m)).
Proof.
  unfold send_email_with_pdf, call, bindM, emit, lift.
  destruct (read_binary o pdf_path) as [data|e] eqn:R.
  2:{ eexists; eexists. split; [reflexivity|].
      split; [split; [discriminate | intros [H|[]]; discriminate]|].
      split; [intros e' [= <-]; now split|].
      split; [intros [H|[]]; discriminate|].
      intros a b m [H|[]]. discriminate. }
  destruct (SMTP o _ _) as [s|e] eqn:C.
  2:{ eexists; eexists. split; [rewrite <- !app_assoc; reflexivity|].
      cbn [app In].
      split; [split; [discriminate | intuition discriminate]|].
      split; [discriminate|].
      split; intros; intuition discriminate. }
  destruct (starttls s) as [[]|e] eqn:T.
  2:{ eexists; eexists. split; [rewrite <- !app_assoc; reflexivity|].
      cbn [app In].
      split; [split; [discriminate | intuition discriminate]|].
      split; [discriminate|].
      split; intros; intuition discriminate. }
  destruct (login s sender password) as [[]|e] eqn:L.
  2:{ eexists; eexists. split; [rewrite <- !app_assoc; reflexivity|].
      cbn [app In].
      split; [split; [discriminate | intuition discriminate]|].
      split; [discriminate|].
      split; intros; intuition discriminate. }
  match goal with
  | |- context [sendmail s sender receiver ?m] => set (msg := m)
  end.
  assert (M : forall a b m, SendMail sender receiver msg = SendMail a b m ->
                text m = greeting name /\ attachment_name m = pdf_path
                /\ Ok data = Ok (attachment m)).
  { intros a b m [= _ _ <-]. repeat split. }
  destruct (sendmail s sender receiver msg) as [[]|e] eqn:S.
  2:{ eexists; eexists. split; [rewrite <- !app_assoc; reflexivity|].
      cbn [app In].
      split; [split; [discriminate | intuition discriminate]|].
      split; [discriminate|].
      split; [intuition discriminate|].
      intros a b m H.
      repeat (destruct H as [H|H]; [try discriminate H|]);
        [exact (M a b m H) | destruct H]. }
  destruct (quit s) as [[]|e] eqn:Q.
  - eexists; eexists. split; [rewrite <- !app_assoc; reflexivity|].
    cbn [app In].
    split; [split; [intros _; tauto | reflexivity]|].
    split; [discriminate|].
    split.
    + intros _. exists data, s, msg. repeat split; auto. tauto.
    + intros a b m H.
      repeat (destruct H as [H|H]; [try discriminate H|]);
        [exact (M a b m H) | destruct H].
  - eexists; eexists. split; [rewrite <- !app_assoc; reflexivity|].
    cbn [app In].
    split; [split; [discriminate | intuition discriminate]|].
    split; [discriminate|].
    split.
    + intros _. exists data, s, msg. repeat split; auto. tauto.
    + intros a b m H.
      repeat (destruct H as [H|H]; [try discriminate H|]);
        [exact (M a b m H) | destruct H].
Qed.

End Dispatch.

Lemma mail_is_sent_or_nothing_witness :
  let s := {| starttls := Ok tt;
              login := fun _ _ => Raise OSError;
              sendmail := fun _ _ _ => Ok tt;
              quit := Ok tt |} in
  let o := {| read_binary := fun _ => Ok [37; 80; 68; 70]%N;
              SMTP := fun _ _ => Ok s |} in
  exists r tr,
    send_email_with_pdf o (PStr (py "samla@example.com"))
      (py "john@example.com") (PStr (py "secret")) (py "invoice.pdf")
      (py "John Doe") []
    = (r, tr)
    /\ r <> Ok tt /\ ~ In Quit tr /\ ~ In (Print (py "Mail Sent")) tr.
Proof.
  intros s o.
  destruct (mail_is_sent_or_nothing o (PStr (py "samla@example.com"))
              (PStr (py "secret")) (py "john@example.com") (py "invoice.pdf")
              (py "John Doe") []) as (r & tr & E & P & _ & Q & _).
  exists r, tr. split; [exact E|].
  assert (NQ : ~ In Quit tr).
  { intros I. destruct (Q I) as (data & s' & m & _ & [= <-] & _ & L & _).
    discriminate L. }
  assert (R : r = Raise OSError).
  { assert (F : fst (send_email_with_pdf o (PStr (py "samla@example.com"))
                       (py "john@example.com") (PStr (py "secret"))
                       (py "invoice.pdf") (py "John Doe") [])
                = Raise OSError) by reflexivity.
    rewrite E in F. exact F. }
  split; [rewrite R; discriminate|]. split; [exact NQ|].
  intros I. apply P in I. rewrite R in I. discriminate I.
Defined.

End MailProps.

(* ================================================================== *)
(** * Numerical properties of the amounts *)
(* ================================================================== *)

Module AmountProps.

Import StrFacts F64Facts Invoice.
Open Scope Z_scope.

Lemma round_half_even_near n d :
  0 < d -> 2 * Z.abs (round_half_even n d * d - n) <= d.
Proof.
  intros Hd. unfold round_half_even.
  pose proof (Z.div_mod n d ltac:(lia)) as E.
  pose proof (Z.mod_pos_bound n d Hd) as B.
  destruct (2 * (n mod d) ?= d) eqn:C.
  - apply Z.compare_eq in C. destruct (Z.even (n / d)); nia.
  - rewrite Z.compare_lt_iff in C. nia.
  - rewrite Z.compare_gt_iff in C. nia.
Qed.

(** A negative power of two as the inverse of a positive integer. *)
Lemma pow2_inverse e :
  e < 0 -> 0 < 2 ^ (- e) /\ (inject_Z (2 ^ (- e)) * Qpower 2 e == 1)%Q.
Proof.
  intros H. split; [apply Z.pow_pos_nonneg; lia|].
  replace e with (- - e) at 2 by lia. rewrite Qpower_opp.
  rewrite Zpower_Qpower by lia. change (inject_Z 2) with 2%Q.
  apply Qmult_inv_r. intros Z0.
  assert (0 < 2 ^ (- e))%Q by (apply Qpower_0_lt; reflexivity).
  lra.
Qed.

Lemma inverse_positive (D q : Q) : (0 < D)%Q -> (D * q == 1)%Q -> (0 < q)%Q.
Proof.
  intros Dq Hq. destruct (Qlt_le_dec 0 q) as [P|P]; [exact P|]. exfalso.
  assert (D * q <= 0)%Q by nra. lra.
Qed.

Lemma magnitude s m e :
  (Qabs (to_Q (S754_finite s m e)) == inject_Z (Zpos m) * Qpower 2 e)%Q.
Proof.
  unfold to_Q.
  assert (P : (0 < Qpower 2 e)%Q) by (apply Qpower_0_lt; reflexivity).
  assert (M : (0 < inject_Z (Zpos m))%Q) by reflexivity.
  assert (N : (0 <= inject_Z (Z.pos m) * 2 ^ e)%Q)
    by (apply Qmult_le_0_compat; lra).
  destruct s; rewrite <- Qmult_assoc, Qabs_Qmult, (Qabs_pos _ N).
  - change (Qabs (-1)) with 1%Q. ring.
  - change (Qabs 1) with 1%Q. ring.
Qed.

Lemma scaled_near (c n d : Z) (q : Q) :
  0 < d -> (inject_Z d * q == 1)%Q ->
  2 * Z.abs (c * d - n) <= d ->
  (Qabs (inject_Z c - inject_Z n * q) <= 1 # 2)%Q.
Proof.
  intros Hd Hq R.
  assert (Dq : (0 < inject_Z d)%Q)
    by (change 0%Q with (inject_Z 0); now rewrite <- Zlt_Qlt).
  pose proof (inverse_positive _ _ Dq Hq) as Pq.
  assert (H1 : 2 * (c * d) <= d + 2 * n) by lia.
  assert (H2 : 2 * n <= d + 2 * (c * d)) by lia.
  rewrite Zle_Qle in H1, H2.
  rewrite !inject_Z_plus, !inject_Z_mult in H1, H2.
  change (inject_Z 2) with 2%Q in *.
  revert Hq H1 H2 Dq.
  generalize (inject_Z c) (inject_Z n) (inject_Z d). intros C N D Hq H1 H2 Dq.
  assert (E : (C - N * q == (C * D - N) * q)%Q).
  { transitivity (C * (D * q) - N * q)%Q; [rewrite Hq; ring | ring]. }
  apply Qabs_Qle_condition. rewrite E. split.
  - assert (T : ((- (D * (1 # 2))) * q <= (C * D - N) * q)%Q)
      by (apply Qmult_le_compat_r; lra).
    assert (U : (- (D * (1 # 2)) * q == - (1 # 2))%Q).
    { transitivity (- (1 # 2) * (D * q))%Q; [ring | rewrite Hq; ring]. }
    lra.
  - assert (T : ((C * D - N) * q <= (D * (1 # 2)) * q)%Q)
      by (apply Qmult_le_compat_r; lra).
    assert (U : ((D * (1 # 2)) * q == 1 # 2)%Q).
    { transitivity ((1 # 2) * (D * q))%Q; [ring | rewrite Hq; ring]. }
    lra.
Qed.

Lemma cents_near m e :
  (Qabs (inject_Z (cents m e) - inject_Z (Zpos m * 100) * Qpower 2 e)
   <= 1 # 2)%Q.
Proof.
  unfold cents. destruct (Z.leb_spec 0 e) as [H|H].
  - assert (E : (inject_Z (Z.pos m * 100 * 2 ^ e)
                 - inject_Z (Z.pos m * 100) * 2 ^ e == 0)%Q).
    { rewrite (inject_Z_mult _ (2 ^ e)), Zpower_Qpower by exact H.
      change (inject_Z 2) with 2%Q. ring. }
    rewrite E. discriminate.
  - destruct (pow2_inverse e H) as (Hd & Hq).
    apply (scaled_near _ _ _ _ Hd Hq). now apply round_half_even_near.
Qed.

(** X14.  Every finite amount is written with its sign, at least one digit,
    a point and two digits, and the number of cents so written differs
    from the exact binary value, in cents, by at most one half: the
    prices, the line totals and the three totals of the invoice are
    the computed values rounded to the nearest cent. *)
Theorem amounts_are_rounded_to_the_cent (s : bool) (m : positive) (e : Z) :
  let x := S754_finite s m e in
  exists c ip d1 d2,
    format_2f x = sign_str s ++ ip ++ py "." ++ [d1; d2]
    /\ ip <> []
    /\ forallb is_digit (ip ++ [d1; d2]) = true
    /\ digits_val (ip ++ [d1; d2]) = c
    /\ (Qabs (inject_Z c - 100 * Qabs (to_Q x)) <= 1 # 2)%Q.
Proof.
  intros x. exists (cents m e).
  destruct (fixed2_shape _ (cents_nonneg m e))
    as (ip & d1 & d2 & E & A & NE & D1 & D2 & V).
  exists ip, d1, d2. unfold x. cbn [format_2f]. rewrite E.
  split; [reflexivity|]. split; [exact NE|]. split.
  { rewrite forallb_app, A. cbn. now rewrite D1, D2. }
  split; [exact V|].
  rewrite magnitude.
  assert (R : (100 * (inject_Z (Z.pos m) * 2 ^ e)
               == inject_Z (Z.pos m * 100) * 2 ^ e)%Q).
  { rewrite inject_Z_mult. change (inject_Z 100) with 100%Q. ring. }
  rewrite R. apply cents_near.
Qed.

Lemma scaled_floor_bounds (a n d : Z) (q : Q) :
  0 < d -> (inject_Z d * q == 1)%Q ->
  a * d <= n < (a + 1) * d ->
  (inject_Z a <= inject_Z n * q < inject_Z a + 1)%Q.
Proof.
  intros Hd Hq [L U].
  assert (Dq : (0 < inject_Z d)%Q)
    by (change 0%Q with (inject_Z 0); now rewrite <- Zlt_Qlt).
  pose proof (inverse_positive _ _ Dq Hq) as Pq.
  rewrite Zle_Qle in L. rewrite Zlt_Qlt in U.
  rewrite inject_Z_mult in L. rewrite inject_Z_mult, inject_Z_plus in U.
  change (inject_Z 1) with 1%Q in *.
  revert Hq L U Dq.
  generalize (inject_Z a) (inject_Z n) (inject_Z d). intros A N D Hq L U Dq.
  assert (E1 : (A == (A * D) * q)%Q).
  { transitivity (A * (D * q))%Q; [rewrite Hq; ring | ring]. }
  assert (E2 : (A + 1 == ((A + 1) * D) * q)%Q).
  { transitivity ((A + 1) * (D * q))%Q; [rewrite Hq; ring | ring]. }
  split.
  - rewrite E1. apply Qmult_le_compat_r; lra.
  - rewrite E2. apply Qmult_lt_compat_r; lra.
Qed.

(** X12.  A quantity given as a finite JSON number with a fraction is
    truncated toward zero, as [2.7] to 2 and [0.5] to 0, while the same
    quantity given as a text falls back to 1. *)
Theorem float_quantity_is_truncated (s : bool) (m : positive) (e : Z) :
  let f := S754_finite s m e in
  exists t,
    coerce_cantidad (PFloat f) = Ok t
    /\ (inject_Z (Z.abs t) <= Qabs (to_Q f) < inject_Z (Z.abs t) + 1)%Q
    /\ (if s then t <= 0 else 0 <= t).
Proof.
  intros f. exists (trunc f). split; [reflexivity|].
  set (a := if 0 <=? e then Z.pos m * 2 ^ e else Z.pos m / 2 ^ (- e)).
  assert (Ha : 0 <= a).
  { unfold a. destruct (Z.leb_spec 0 e).
    - assert (0 < 2 ^ e) by (apply Z.pow_pos_nonneg; lia). nia.
    - apply Z.div_pos; [lia | apply Z.pow_pos_nonneg; lia]. }
  assert (T : Z.abs (trunc f) = a).
  { unfold f, trunc. fold a. destruct s; lia. }
  split.
  - rewrite T. unfold f. rewrite magnitude. unfold a.
    destruct (Z.leb_spec 0 e) as [H|H].
    + rewrite inject_Z_mult, Zpower_Qpower by exact H.
      change (inject_Z 2) with 2%Q. split; lra.
    + destruct (pow2_inverse e H) as (Hd & Hq).
      apply (scaled_floor_bounds _ _ _ _ Hd Hq).
      pose proof (Z.div_mod (Z.pos m) (2 ^ (- e)) ltac:(lia)).
      pose proof (Z.mod_pos_bound (Z.pos m) (2 ^ (- e)) Hd). nia.
  - unfold f, trunc. fold a. destruct s; lia.
Qed.

End AmountProps.
